(* ===== verification/_CoqProject ===== *)
-Q . S2P
Prelude.v
CLib.v
Account.v
AccountCodec.v
AccountTxt.v
AccountReload.v
AccountIface.v
Runtime.v
SqlModel.v
CsdbIterator.v
PartySql.v
PartyIface.v
