(* ===== verification/Prelude.v ===== *)
(** * Verification of the eAthena persistence layer (account TXT and party SQL backends)

    The program.  Two C files of the eAthena game servers implement one
    contract ("persistence interface", a vtable of function pointers):
    - [src/src/login/account_txt.c]: the flat-file backend of the account
      table.  It keeps every account in an in-memory map ([DBMap* accounts]),
      an auto-increment counter ([next_account_id]), a dirty counter
      ([auths_before_save], reset to [AUTHS_BEFORE_SAVE] = 10 by every
      flush) and a periodic timer.  [account_db_txt_init] parses the file
      line by line ([mmo_auth_fromstr], a versioned codec with three legacy
      layouts and a registry sub-grammar); [mmo_auth_sync] rewrites the
      whole file ([mmo_auth_tostr] per record); [create], [remove] flush at
      once, [save] flushes every tenth call, and the timer flushes when
      the counter shows unflushed saves.
    - [src/src/char/partydb_sql.c]: the relational backend of the party
      table.  Each operation issues SQL statements through the shared
      connection; [mmo_party_tosql] runs the update kinds a bitmask selects
      ([PS_CREATE], [PS_BASIC], [PS_LEADER], [PS_ADDMEMBER], [PS_DELMEMBER])
      in one transaction committed only when every statement succeeded;
      [party_db_sql_remove] does the same for its two statements;
      [mmo_party_fromsql] loads the party row and up to [MAX_PARTY] member
      rows and derives each member's leader flag from the party row;
      [party_db_sql_name2id] looks a name up and refuses an ambiguous one;
      [party_db_sql_iterator] hands out a cursor over the party ids;
      [party_db_sql_init]/[destroy] take and drop the owner's connection
      handle, and the constructor [party_db_sql] fills the vtable.

    The development.  Files, in dependency order (see [_CoqProject]):
    - [Prelude] (this file): the scope [eathena_scope], C integer widths
      ([int32], [uint32], [long]) with their wrap-around, character
      constants, the hint databases [eathena]/[eathena_rw] and shared
      lemmas and tactics.
    - [CLib]: the C library and [common/strlib.c] functions the code calls
      ([strtol], [strtoul], [atoi], the [%d]/[%u]/[%ld] printers,
      [safestrncpy], [sv_split], the [sscanf] conversions used, [fgets]
      line splitting), modelled from their C semantics (not under [src/]).
    - [Account]: [struct mmo_account] and the constants of [mmo.h].
    - [AccountCodec]: [mmo_auth_fromstr] (layout dispatch, registry loop
      [parse_regs] with fuel) and [mmo_auth_tostr].
    - [AccountTxt]: [AccountDB_TXT], [account_db_txt_init/free/create/
      remove/save/load_num/load_str], [mmo_auth_sync] and its timer, as
      explicit state passing over a state that also holds the file, and
      the step relation [txt_step] of the vtable.
    - [AccountReload]: the round trip of the accounts file: the lines
      [mmo_auth_sync] writes, read back by the loop of
      [account_db_txt_init] (a record line is never taken for a version
      or [%newid%] line; the [%newid%] line restores the counter), and
      what a restart does to accounts [create] stored.
    - [AccountIface] (Module [AccountIface]): [struct AccountDB] as a
      record of operations, the constructor [account_db_txt] that fills it
      (lines 43-57), the contract [AccountDBLaws] stated against a view of
      the object as a map from ids to records, its instance for the text
      backend, and the two callers of spec section 3 ([register]: refuse
      a name in use, then create; [change_pass]: load by name, change the
      copy, save it) proved against the contract and composed with the
      text backend.
    - [Runtime] (Module [Runtime]): what the account backend runs on,
      modelled from the spec since [lock.c] and [timer.c] are not under
      [src/]: a file system with the live file and the temporary file of
      [lock_fopen]/[lock_fclose], over which [mmo_auth_sync_fs] runs the
      [fprintf] calls of [mmo_auth_sync]; a scheduler with
      [add_timer_interval], [delete_timer] and the firing of a timer; a
      heap of backend objects with the casts [(int)db] (line 157) and back
      (line 482); and the login service's life cycle [rt_step] over them.
    - [SqlModel]: the SQL layer the party backend calls ([common/sql.c] and
      the server, not under [src/]): the party and character tables, the
      [AUTO_INCREMENT] counter (outside transactions, as InnoDB keeps it),
      the snapshot of an open transaction ([START TRANSACTION] commits an
      open one), one constructor of [stmt] per query string of the code,
      escaping and the server's string-literal lexer, and a state monad
      [M] with the outcomes [Ok], [Brk] (the [break] of the code's
      [do { } while(0)] blocks) and [Undef] (undefined behaviour).  Every
      round trip consumes a fault flag of the connection, so the theorems
      hold for every pattern of statement failures.  The combinators
      [respects] and [defined] carry the generic lemmas (a program built
      from the primitives preserves a relation every statement preserves;
      it is free of undefined behaviour; it runs to its end keeping a
      predicate of the caller's state: [runs]), with
      [sql_transaction_atomic] the all-or-nothing lemma of the
      transaction pattern.
    - [CsdbIterator] (Module [CSDBIter]): the key iterator
      [csdb_sql_iterator] the party backend returns (its code is not under
      [src/]; modelled from the specification as a cursor over the key
      column, read when the iterator is created), the caller's loop
      [iter_keys] with its variant [iter_measure], and the lemmas on both.
    - [PartySql] (Module [PartySQL]): [struct party], the flags,
      [struct PartyDB_SQL] with its owner, and every function of
      [partydb_sql.c] (the constructor, [init], [destroy], [sync],
      [create], [save], [load], [remove], [name2id], [iterator]) as
      programs of [M] over the connection and the caller's struct; the
      vtable [struct PartyDB] as a record of operations; the step
      relation [party_step]; the abstract view [party_view] of a party in
      the tables; the pure effect [save_effect] of the update kinds.
    - [PartyIface] (Module [PartyIface]): the contract [PartyDBLaws] a
      party vtable gives its callers (the iterator yields the table's
      keys, [load] returns a party's view, both leave the server alone),
      a client that iterates and loads every party on the same
      connection, proved against the contract, and the instance of the
      contract for the SQL backend's vtable.

    The theorems.  Account backend: the codec round trip; load after
    save/create/remove; the flush schedule of ten saves and of the timer;
    the reachable-state invariant of [txt_step] when flushes succeed;
    what failing flushes and the [<] of the init loop do (the findings of
    [PROJECT.json]); a restart ([free] then [init]) reloads the database
    it flushed.  The runtime: with objects at addresses that fit in an
    [int], every timer of every reachable world designates a live object
    (no firing dereferences a freed one) and a firing flushes its object
    exactly when it has unflushed saves, while above [2^31] the [(int)db]
    cast makes the first firing dereference a wild address; the flush run
    as its calls on the lock-file primitives gives the one-step flush
    (a lemma, as its crash safety is the spec's own promise).  Account
    callers on the text backend, through lemmas proved against any vtable
    that keeps [AccountDBLaws]: registration keeps names unique and stores
    the record under [next_account_id], where [load_str] finds it;
    load-change-save reaches the record when records sit under their own
    ids; but the update of a freshly registered account fails, since
    [create] keeps the caller's id field.  Party backend:
    [mmo_party_tosql] and [remove] are atomic under every failure pattern
    (a successful [remove] detaches the members and deletes the row
    together); with no failure, load returns [party_view] (a refinement),
    create-then-load and save-then-load round trip for the basic, leader
    and remove-member kinds, create under an id in use fails and changes
    nothing, remove-then-load reports not-found, name2id returns the
    unique id and fails alike on none and on several; a name of at most
    [NAME_LENGTH] characters escapes within [esc_name]; for every party,
    a failed [ROLLBACK] lets the next operation commit half a save, and
    for every server whose [AUTO_INCREMENT] value passed [INT_MAX] create
    hands back a negative id.  A save that combines update kinds is
    equivalent to the single-kind saves in the code's order.  Whatever
    the tables hold and whatever fails, load returns normally (its member
    loop never writes past [member[MAX_PARTY - 1]]) with a struct of its
    C type.  The files also prove, as lemmas, properties of the models of
    code not under [src/]: the iterator returns every party id once and
    its caller's loop stops; the client of [PartyIface] collects the view
    of every party; the server keeps party ids below [AUTO_INCREMENT].

    Bounds and fuel.  Addresses are 64-bit; the life cycle allocates below
    a bound [amax], and the timer invariant needs [amax <= 2^31], the
    addresses an [int] holds.  [parse_regs] runs on fuel [S (length regs)]: each
    iteration that does not stop consumes at least one character, so the
    fuel is enough ([parse_regs_total]).  The member loop of
    [mmo_party_fromsql] is structural on the [MAX_PARTY - i] slots left,
    the key loop of [csdb_sql_iterator] on the [Sql_NumRows] slots of its
    array (every row of the result fits).  The caller's loop over an
    iterator runs [iter_measure] rounds, the number of keys left, which
    [party_iterator_terminates] shows is exactly enough.  The file round
    trip assumes each record line shorter than the [fgets] buffer
    ([FGETS_SIZE] = 2048, lines 69 and 89): a longer line is read in pieces.
    Every other loop is a structural recursion on a list or a string.

    Not modelled.  Undefined behaviour of [account_txt.c] other than the
    timer's wild pointer: the signed overflow of [next_account_id++] and
    [account_id + 1] at [INT_MAX] is taken as gcc's wrap, and the
    overflows of [value[256]] (line 402) and [buf[2048]] (line 467) are
    findings of [PROJECT.json], not outcomes of the model.  Network,
    logging and configuration; the time of a
    timer's firing (the scheduler may fire a timer at any moment, which
    the spec allows); the name and the rename of the temporary file of
    [lock.c] (the spec only promises an atomic publish).  In [AccountTxt]
    the lock-file primitives appear by their outcome, a boolean input of
    the flushing operations, which [Runtime] justifies by refinement.  The handle [db->parties] that [init] sets is an address
    in the model: the operations run on the connection of their state,
    which stands for the connection it designates.  The callers of both
    vtables (the login and character services) are not in the
    repository: [AccountIface] and [PartyIface] model the usage patterns
    of the spec.  Plan of later growth: the [PS_ADDMEMBER]
    load-after-save law (the member may fall past the [MAX_PARTY] rows
    load reads).

    Modelling conventions.  A C [int] is a [Z] kept in the signed 32-bit
    range by [int32] (two's complement wrap-around, which is what gcc
    produces on the targets eAthena runs on); [unsigned int] uses [uint32];
    [long]/[time_t] use the 64-bit versions.  C strings are Coq [string]s
    that hold no NUL character; a character array of size [n] holds at
    most [n-1] characters.  The account file is a [string]; its absence is
    [None].  Failures of the file layer ([lock_fopen]) are an explicit
    boolean input of the operations that flush, failures of the SQL layer
    the fault flags of the connection, so every theorem states which I/O
    outcomes it assumes. *)

From stdpp Require Export base gmap strings list.
From Stdlib Require Export ZArith Ascii String Lia.

(** [length] is the length of a list; strings use [String.length]. *)
Abbreviation length := List.length (only parsing).

Declare Scope eathena_scope.
Delimit Scope eathena_scope with ea.
Open Scope Z_scope.

(** ** Characters *)

Definition NUL : ascii := "000"%char.
Definition TAB : ascii := "009"%char.
Definition LF  : ascii := "010"%char.
Definition VT  : ascii := "011"%char.
Definition FF  : ascii := "012"%char.
Definition CR  : ascii := "013"%char.
Definition SPACE : ascii := " "%char.
Definition COMMA : ascii := ","%char.

(** [s.[n]]: the C expression [s[n]] on a NUL-terminated string; reading
    at or past the terminator yields NUL. *)
Definition char_at (s : string) (n : nat) : ascii :=
  match String.get n s with Some c => c | None => NUL end.

Notation "s .[ n ]" := (char_at s n) (at level 1, left associativity,
  format "s .[ n ]") : eathena_scope.

(** The one-character string. *)
Notation "⌜ c ⌝" := (String c EmptyString) (at level 0, format "⌜ c ⌝")
  : eathena_scope.

Open Scope eathena_scope.

Abbreviation ascii_eqb := Ascii.eqb.

(** ** Machine integers *)

Definition wrap_unsigned (w : Z) (z : Z) : Z := z mod 2 ^ w.
Definition wrap_signed (w : Z) (z : Z) : Z :=
  let m := z mod 2 ^ w in if 2 ^ (w - 1) <=? m then m - 2 ^ w else m.

Definition int32 := wrap_signed 32.
Definition uint32 := wrap_unsigned 32.
Definition long64 := wrap_signed 64.

Definition INT_MAX : Z := 2 ^ 31 - 1.
Definition INT_MIN : Z := - 2 ^ 31.
Definition LONG_MAX : Z := 2 ^ 63 - 1.
Definition LONG_MIN : Z := - 2 ^ 63.
Definition ULONG_MAX : Z := 2 ^ 64 - 1.

Definition in_int (z : Z) : Prop := INT_MIN <= z <= INT_MAX.
Definition in_uint (z : Z) : Prop := 0 <= z < 2 ^ 32.
Definition in_long (z : Z) : Prop := LONG_MIN <= z <= LONG_MAX.

Create HintDb eathena.
Create Rewrite HintDb eathena_rw.

(** ** Shared lemmas *)

Section WrapLemmas.
Context (w : Z) (Hw : 0 < w).

Lemma wrap_signed_small z :
  - 2 ^ (w - 1) <= z < 2 ^ (w - 1) -> wrap_signed w z = z.
Proof.
  intros Hz. unfold wrap_signed.
  assert (Hpow : 2 ^ w = 2 * 2 ^ (w - 1)).
  { rewrite <- Z.pow_succ_r by lia. f_equal. lia. }
  destruct (Z_le_gt_dec 0 z).
  - rewrite Z.mod_small by lia.
    destruct (Z.leb_spec (2 ^ (w - 1)) z); lia.
  - replace (z mod 2 ^ w) with (z + 2 ^ w).
    + destruct (Z.leb_spec (2 ^ (w - 1)) (z + 2 ^ w)); lia.
    + symmetry. rewrite <- (Z.mod_small (z + 2 ^ w) (2 ^ w)) by lia.
      rewrite Z.add_mod, Z.mod_same, Z.add_0_r, Z.mod_mod by lia.
      reflexivity.
Qed.

Lemma wrap_signed_range z :
  - 2 ^ (w - 1) <= wrap_signed w z < 2 ^ (w - 1).
Proof.
  unfold wrap_signed.
  assert (Hpow : 2 ^ w = 2 * 2 ^ (w - 1)).
  { rewrite <- Z.pow_succ_r by lia. f_equal. lia. }
  pose proof (Z.mod_pos_bound z (2 ^ w)).
  destruct (Z.leb_spec (2 ^ (w - 1)) (z mod 2 ^ w)); lia.
Qed.

Lemma wrap_unsigned_small z : 0 <= z < 2 ^ w -> wrap_unsigned w z = z.
Proof. intros. unfold wrap_unsigned. apply Z.mod_small. lia. Qed.

Lemma wrap_unsigned_range z : 0 <= wrap_unsigned w z < 2 ^ w.
Proof. unfold wrap_unsigned. apply Z.mod_pos_bound. lia. Qed.
End WrapLemmas.

Lemma int32_id z : in_int z -> int32 z = z.
Proof. unfold in_int, INT_MIN, INT_MAX, int32. intros. apply wrap_signed_small; lia. Qed.

Lemma int32_in_int z : in_int (int32 z).
Proof.
  unfold in_int, INT_MIN, INT_MAX, int32.
  pose proof (wrap_signed_range 32 ltac:(lia) z). simpl in *. lia.
Qed.

Lemma uint32_id z : in_uint z -> uint32 z = z.
Proof. unfold in_uint, uint32. intros. apply wrap_unsigned_small; lia. Qed.

Lemma uint32_in_uint z : in_uint (uint32 z).
Proof. unfold in_uint, uint32. apply wrap_unsigned_range. lia. Qed.

Lemma long64_id z : in_long z -> long64 z = z.
Proof. unfold in_long, LONG_MIN, LONG_MAX, long64. intros. apply wrap_signed_small; lia. Qed.

#[export] Hint Resolve int32_in_int uint32_in_uint : eathena.
#[export] Hint Rewrite int32_id uint32_id long64_id using (assumption || lia) : eathena_rw.

(** Concatenation of strings.  stdpp blocks [simpl] on [String.append],
    so the step lemma [str_app_cons] is proved by conversion and used
    to rewrite. *)
Lemma str_app_cons (c : ascii) (s1 s2 : string) : String c s1 +:+ s2 = String c (s1 +:+ s2).
Proof. reflexivity. Qed.

Lemma str_app_nil_l (s : string) : "" +:+ s = s.
Proof. reflexivity. Qed.

Lemma str_length_app (s1 s2 : string) :
  String.length (s1 +:+ s2) = (String.length s1 + String.length s2)%nat.
Proof. induction s1 as [|c s1 IH]; [reflexivity|]. rewrite str_app_cons. simpl. lia. Qed.

Lemma str_app_assoc (s1 s2 s3 : string) : s1 +:+ (s2 +:+ s3) = (s1 +:+ s2) +:+ s3.
Proof. induction s1 as [|c s1 IH]; [reflexivity|]. rewrite !str_app_cons, IH. reflexivity. Qed.

Lemma str_app_nil_r (s : string) : s +:+ "" = s.
Proof. induction s as [|c s IH]; [reflexivity|]. rewrite str_app_cons, IH. reflexivity. Qed.

#[export] Hint Rewrite str_length_app str_app_nil_r str_app_cons : eathena_rw.

(** [char_at] on a concatenation. *)
Lemma char_at_app_r (s1 s2 : string) (n : nat) :
  char_at (s1 +:+ s2) (String.length s1 + n) = char_at s2 n.
Proof. unfold char_at. induction s1 as [|c s1 IH]; [reflexivity|]. rewrite str_app_cons. exact IH. Qed.

Lemma char_at_suffix (s r : string) :
  (exists p, s = p +:+ r) ->
  char_at s (String.length s - String.length r) = char_at r 0.
Proof.
  intros [p ->]. rewrite str_length_app.
  replace (String.length p + String.length r - String.length r)%nat
    with (String.length p + 0)%nat by lia.
  apply char_at_app_r.
Qed.

(** Every character of a string satisfies [p]. *)
Fixpoint str_forall (p : ascii -> bool) (s : string) : bool :=
  match s with
  | EmptyString => true
  | String c r => p c && str_forall p r
  end.

Lemma str_forall_app p (s1 s2 : string) :
  str_forall p (s1 +:+ s2) = str_forall p s1 && str_forall p s2.
Proof.
  induction s1 as [|c s1 IH]; [reflexivity|].
  rewrite str_app_cons. simpl. rewrite IH. apply andb_assoc.
Qed.

#[export] Hint Rewrite str_forall_app : eathena_rw.

(** [s] holds no character [c]. *)
Definition str_excludes (c : ascii) (s : string) : bool :=
  str_forall (fun x => negb (ascii_eqb x c)) s.

(** [str_norm]: right-associate string concatenations and push
    characters out of them. *)
Ltac str_norm :=
  repeat progress rewrite <- ?str_app_assoc, ?str_app_cons, ?str_app_nil_l, ?str_app_nil_r.
Ltac str_norm_in H :=
  repeat progress rewrite <- ?str_app_assoc, ?str_app_cons, ?str_app_nil_l, ?str_app_nil_r in H.

(** [ea_inv H]: invert a hypothesis and substitute. *)
Ltac ea_inv H := inversion H; subst; clear H.

(** [ea_andb]: split every boolean conjunction among the hypotheses. *)
Ltac ea_andb :=
  repeat match goal with
  | H : _ && _ = true |- _ => apply andb_prop in H as [? ?]
  | H : negb _ = true |- _ => apply negb_true_iff in H
  end.

(** [ea_cases]: split every [if]/[match] on a decidable test in the goal. *)
Ltac ea_cases :=
  repeat match goal with
  | |- context [if decide ?P then _ else _] => destruct (decide P)
  | |- context [Z.eqb ?a ?b] => destruct (Z.eqb_spec a b)
  | |- context [Z.ltb ?a ?b] => destruct (Z.ltb_spec a b)
  | |- context [Z.leb ?a ?b] => destruct (Z.leb_spec a b)
  end.
