(* ===== verification/CLib.v ===== *)
(** * The C library and [common/strlib.c] functions the backends call

    None of these functions is under [src/]: they are modelled from their
    C semantics (glibc, base 10) and eAthena's [strlib.c], only as far as
    the calls of [account_txt.c] use them: [isspace], [isdigit], [strtol],
    [strtoul], the [%d]/[%u]/[%ld]/[%s]/[%c] printers, [safestrncpy],
    [sv_split] with [SV_NOESCAPE_NOTERMINATE], the [sscanf] scan sets
    [%W[^...]] with [%n], and the line splitting of [fgets] on a 2048-byte
    buffer.  Each comes with the round-trip lemma the codec needs. *)

From S2P Require Import Prelude.
From Stdlib Require Import DecimalString DecimalN DecimalPos DecimalFacts.

(** ** Character classes *)

Definition isspace (c : ascii) : bool :=
  ascii_eqb c SPACE || ascii_eqb c TAB || ascii_eqb c LF ||
  ascii_eqb c VT || ascii_eqb c FF || ascii_eqb c CR.

Definition isdigit (c : ascii) : bool :=
  let n := nat_of_ascii c in (48 <=? n)%nat && (n <=? 57)%nat.

(** [starts_digit s]: the first character of [s] is a digit. *)
Definition starts_digit (s : string) : bool :=
  match s with String c _ => isdigit c | EmptyString => false end.

Fixpoint skip_space (s : string) : string :=
  match s with
  | String c r => if isspace c then skip_space r else s
  | EmptyString => EmptyString
  end.

Fixpoint span_digits (s : string) : string * string :=
  match s with
  | String c r =>
      if isdigit c then let '(d, rest) := span_digits r in (String c d, rest)
      else (EmptyString, s)
  | EmptyString => (EmptyString, EmptyString)
  end.

(** ** Numbers: [strtol], [strtoul], [%d] *)

(** The value of a nonempty digit sequence. *)
Definition digits_value (d : string) : N :=
  match NilEmpty.uint_of_string d with Some u => N.of_uint u | None => 0%N end.

(** The subject sequence of a base-10 conversion: leading white space, an
    optional sign, a nonempty digit sequence; [None] when there is none. *)
Definition scan_integer (s : string) : option (Z * string) :=
  let s1 := skip_space s in
  let '(neg, s2) :=
    match s1 with
    | String "-" r => (true, r)
    | String "+" r => (false, r)
    | _ => (false, s1)
    end in
  let '(ds, rest) := span_digits s2 in
  match ds with
  | EmptyString => None
  | _ => let v := Z.of_N (digits_value ds) in Some (if neg then - v else v, rest)
  end.

(** [strtol(s, NULL, 10)]: saturates at [LONG_MIN]/[LONG_MAX]. *)
Definition strtol (s : string) : Z :=
  match scan_integer s with
  | Some (v, _) => Z.max LONG_MIN (Z.min LONG_MAX v)
  | None => 0
  end.

(** [atoi(s)]: glibc computes [(int) strtol(s, NULL, 10)]. *)
Definition atoi (s : string) : Z := int32 (strtol s).

(** [strtoul(s, NULL, 10)]: a minus sign negates in the unsigned type;
    an out-of-range magnitude gives [ULONG_MAX]. *)
Definition strtoul (s : string) : Z :=
  match scan_integer s with
  | Some (v, _) => if ULONG_MAX <? Z.abs v then ULONG_MAX else v mod 2 ^ 64
  | None => 0
  end.

(** The [%d] conversion of [sscanf] into an [int], with [%n] right after
    it: the value and the number of characters consumed. *)
Definition sscanf_d_n (s : string) : option (Z * nat) :=
  match scan_integer s with
  | Some (v, rest) =>
      Some (int32 (Z.max LONG_MIN (Z.min LONG_MAX v)),
            (String.length s - String.length rest)%nat)
  | None => None
  end.

(** ** Printing *)

Definition fmt_N (n : N) : string := NilEmpty.string_of_uint (N.to_uint n).

Definition fmt_Z (z : Z) : string :=
  if z <? 0 then "-" +:+ fmt_N (Z.to_N (- z)) else fmt_N (Z.to_N z).

(** [printf] conversions: the argument converted to the conversion's type. *)
Definition printf_d (z : Z) : string := fmt_Z (int32 z).
Definition printf_u (z : Z) : string := fmt_Z (uint32 z).
Definition printf_ld (z : Z) : string := fmt_Z (long64 z).

(** ** Strings *)

(** [safestrncpy(dst, src, n)]: at most [n-1] characters, NUL-terminated. *)
Definition safestrncpy (src : string) (n : nat) : string :=
  String.substring 0 (n - 1) src.

(** The fields of [s] separated by [d]; there is always at least one. *)
Fixpoint split_on (d : ascii) (s : string) : list string :=
  match s with
  | EmptyString => [EmptyString]
  | String c r =>
      if ascii_eqb c d then EmptyString :: split_on d r
      else match split_on d r with
           | f :: fs => String c f :: fs
           | [] => [⌜c⌝]
           end
  end.

(** The inverse: the fields joined by [d]. *)
Fixpoint join_on (d : ascii) (fs : list string) : string :=
  match fs with
  | [] => EmptyString
  | [f] => f
  | f :: fs => f +:+ String d (join_on d fs)
  end.

(** [sv_split(str, strlen(str), 0, delim, fields, nfields,
    SV_NOESCAPE_NOTERMINATE)]: returns the number of fields found and the
    [fields] array, whose slot 0 is the start of the next line (the end of
    the string: no line terminator is recognised) and whose slots
    [1..nfields-1] are the fields; slots past the last field point at the
    end of the string. *)
Definition sv_split (s : string) (delim : ascii) (nfields : nat) : Z * list string :=
  let fs := split_on delim s in
  (Z.of_nat (List.length fs), EmptyString :: take (nfields - 1) fs).

(** [fields[k]]. *)
Definition field (fields : list string) (k : nat) : string := nth k fields EmptyString.

(** [p += n] on a [char*]: the string without its first [n] characters. *)
Fixpoint str_drop (n : nat) (s : string) : string :=
  match n, s with
  | O, _ => s
  | S n, String _ r => str_drop n r
  | S _, EmptyString => EmptyString
  end.

(** What [%s] prints of a character buffer: up to the first NUL. *)
Fixpoint c_str (s : string) : string :=
  match s with
  | EmptyString => EmptyString
  | String c r => if ascii_eqb c NUL then EmptyString else String c (c_str r)
  end.

(** Ordinary characters of a [sscanf] format: the input must hold [lit]
    next; the rest of the input. *)
Fixpoint match_literal (lit s : string) : option string :=
  match lit, s with
  | EmptyString, _ => Some s
  | String c l, String d r => if ascii_eqb c d then match_literal l r else None
  | String _ _, EmptyString => None
  end.

(** ** [sscanf] scan sets *)

(** [%W[...]]: the longest prefix of at most [width] characters accepted
    by [ok]; the conversion fails when that prefix is empty. *)
Fixpoint scan_while (width : nat) (ok : ascii -> bool) (s : string) : string * string :=
  match width, s with
  | O, _ => (EmptyString, s)
  | S w, String c r =>
      if ok c then let '(m, rest) := scan_while w ok r in (String c m, rest)
      else (EmptyString, s)
  | S _, EmptyString => (EmptyString, EmptyString)
  end.

Definition scan_set (width : nat) (ok : ascii -> bool) (s : string) : option (string * string) :=
  match scan_while width ok s with
  | (EmptyString, _) => None
  | (m, rest) => Some (m, rest)
  end.

(** An unbounded [%[...]]: the width of the whole input. *)
Definition scan_set_unbounded (ok : ascii -> bool) (s : string) : option (string * string) :=
  scan_set (String.length s) ok s.

(** ** [fgets] on a buffer of [FGETS_SIZE] bytes *)

Definition FGETS_SIZE : nat := 2048.

(** The successive results of [fgets(line, FGETS_SIZE, fp)] until it
    returns NULL: a line ends after a newline or when [FGETS_SIZE - 1]
    characters were read.  [room] is what the buffer can still take. *)
Fixpoint fgets_go (room : nat) (cur : string) (s : string) : list string :=
  match s with
  | EmptyString => match cur with EmptyString => [] | _ => [cur] end
  | String c r =>
      if ascii_eqb c LF then (cur +:+ ⌜LF⌝) :: fgets_go (FGETS_SIZE - 1) EmptyString r
      else if (room <=? 1)%nat then (cur +:+ ⌜c⌝) :: fgets_go (FGETS_SIZE - 1) EmptyString r
      else fgets_go (room - 1) (cur +:+ ⌜c⌝) r
  end.

Definition fgets_lines (s : string) : list string := fgets_go (FGETS_SIZE - 1) EmptyString s.

(** ** Lemmas *)

Lemma digit_not_space c : isdigit c = true -> isspace c = false.
Proof. destruct c as [[] [] [] [] [] [] [] []]; vm_compute; congruence. Qed.

(** A string that starts with a digit has no sign to skip. *)
Lemma sign_match_digit {A} c r (x y z : A) :
  isdigit c = true ->
  match String c r with String "-" _ => x | String "+" _ => y | _ => z end = z.
Proof. destruct c as [[] [] [] [] [] [] [] []]; vm_compute; congruence. Qed.

Lemma skip_space_digit c r : isdigit c = true -> skip_space (String c r) = String c r.
Proof. intros H. simpl. rewrite (digit_not_space c H). reflexivity. Qed.

Lemma span_digits_app d rest :
  str_forall isdigit d = true -> starts_digit rest = false ->
  span_digits (d +:+ rest) = (d, rest).
Proof.
  induction d as [|c d IH]; simpl.
  - intros _ Hr. destruct rest as [|c r]; [reflexivity|]. simpl in *. now rewrite Hr.
  - intros [Hc Hd]%andb_prop Hr. rewrite Hc, IH by assumption. reflexivity.
Qed.

Lemma fmt_N_digits n : str_forall isdigit (fmt_N n) = true.
Proof. unfold fmt_N. generalize (N.to_uint n). induction u; simpl; auto. Qed.

Lemma fmt_N_nonempty n : exists c r, fmt_N n = String c r.
Proof.
  unfold fmt_N. destruct n as [|p]; [eexists _, _; reflexivity|].
  simpl. pose proof (DecimalPos.Unsigned.to_uint_nonnil p) as Hp.
  destruct (Pos.to_uint p); try congruence; eexists _, _; reflexivity.
Qed.

Lemma digits_value_fmt_N n : digits_value (fmt_N n) = n.
Proof. unfold digits_value, fmt_N. rewrite NilEmpty.usu. apply DecimalN.Unsigned.of_to. Qed.

Lemma scan_integer_fmt_N n rest :
  starts_digit rest = false ->
  scan_integer (fmt_N n +:+ rest) = Some (Z.of_N n, rest).
Proof.
  intros Hr. unfold scan_integer.
  pose proof (fmt_N_digits n) as Hd. pose proof (digits_value_fmt_N n) as Hv.
  destruct (fmt_N_nonempty n) as (c & r & Hcr). rewrite Hcr in *.
  simpl in Hd. apply andb_prop in Hd as [Hc Hd].
  rewrite str_app_cons, (skip_space_digit c (r +:+ rest) Hc).
  erewrite (sign_match_digit c (r +:+ rest)) by exact Hc.
  rewrite <- str_app_cons, span_digits_app by (simpl; rewrite ?Hc, ?Hd; auto).
  rewrite Hv. reflexivity.
Qed.

Lemma scan_integer_fmt_Z z rest :
  starts_digit rest = false ->
  scan_integer (fmt_Z z +:+ rest) = Some (z, rest).
Proof.
  intros Hr. unfold fmt_Z. destruct (Z.ltb_spec z 0).
  - rewrite <- str_app_assoc, str_app_cons, str_app_nil_l. unfold scan_integer.
    cbn [skip_space]. change (isspace "-") with false. cbv iota beta.
    rewrite span_digits_app by (apply fmt_N_digits || assumption).
    destruct (fmt_N_nonempty (Z.to_N (- z))) as (c & r & Hcr). rewrite Hcr.
    rewrite <- Hcr, digits_value_fmt_N. f_equal. f_equal. lia.
  - rewrite scan_integer_fmt_N by assumption. f_equal. f_equal. lia.
Qed.

Lemma strtol_fmt_Z z : in_long z -> strtol (fmt_Z z) = z.
Proof.
  unfold in_long, strtol. intros Hz.
  rewrite <- (str_app_nil_r (fmt_Z z)), scan_integer_fmt_Z by reflexivity. lia.
Qed.

Lemma atoi_fmt_Z z : in_int z -> atoi (fmt_Z z) = z.
Proof.
  intros Hz. unfold atoi. rewrite strtol_fmt_Z; [by apply int32_id|].
  unfold in_int, in_long, INT_MIN, INT_MAX, LONG_MIN, LONG_MAX in *. lia.
Qed.

Lemma strtoul_fmt_Z z : 0 <= z <= ULONG_MAX -> strtoul (fmt_Z z) = z.
Proof.
  unfold strtoul, ULONG_MAX. intros Hz.
  rewrite <- (str_app_nil_r (fmt_Z z)), scan_integer_fmt_Z by reflexivity.
  destruct (Z.ltb_spec (2 ^ 64 - 1) (Z.abs z)); [lia|]. apply Z.mod_small. lia.
Qed.

Lemma sscanf_d_n_fmt z rest :
  in_int z -> starts_digit rest = false ->
  sscanf_d_n (fmt_Z z +:+ rest) = Some (z, String.length (fmt_Z z)).
Proof.
  intros Hz Hr. unfold sscanf_d_n.
  rewrite scan_integer_fmt_Z by assumption. rewrite str_length_app.
  unfold in_int, INT_MIN, INT_MAX in Hz. f_equal. f_equal.
  - unfold LONG_MIN, LONG_MAX.
    replace (Z.max (- 2 ^ 63) (Z.min (2 ^ 63 - 1) z)) with z by lia.
    apply int32_id. unfold in_int, INT_MIN, INT_MAX. lia.
  - lia.
Qed.

Lemma substring_all (s : string) m :
  (String.length s <= m)%nat -> String.substring 0 m s = s.
Proof.
  revert m. induction s as [|c s IH]; intros [|m] Hm; simpl in *; try reflexivity; try lia.
  rewrite IH by lia. reflexivity.
Qed.

(** The decimal text of a number has at most one digit per bit. *)
Lemma double_length d :
  (Decimal.nb_digits (Decimal.Little.double d) <= S (Decimal.nb_digits d))%nat /\
  (Decimal.nb_digits (Decimal.Little.succ_double d) <= S (Decimal.nb_digits d))%nat.
Proof. induction d; simpl; lia. Qed.

Lemma little_uint_length p : (Decimal.nb_digits (Pos.to_little_uint p) <= Pos.size_nat p)%nat.
Proof.
  induction p as [p IH|p IH|]; simpl; [| |lia].
  - pose proof (proj2 (double_length (Pos.to_little_uint p))). lia.
  - pose proof (proj1 (double_length (Pos.to_little_uint p))). lia.
Qed.

Lemma string_of_uint_length d : String.length (NilEmpty.string_of_uint d) = Decimal.nb_digits d.
Proof. induction d; simpl; auto. Qed.

Lemma fmt_N_length n : (String.length (fmt_N n) <= S (N.size_nat n))%nat.
Proof.
  destruct n as [|p]; simpl; [lia|]. unfold fmt_N. rewrite string_of_uint_length.
  unfold N.to_uint, Pos.to_uint. rewrite nb_digits_rev. pose proof (little_uint_length p). simpl. lia.
Qed.

(** [%d] of an [int] prints at most 34 characters. *)
Lemma fmt_Z_length z : in_int z -> (String.length (fmt_Z z) <= 34)%nat.
Proof.
  unfold in_int, INT_MIN, INT_MAX. intros Hz.
  assert (Hs : forall p, (p <= 2 ^ 31)%positive -> (Pos.size_nat p <= 32)%nat).
  { intros p Hp. assert (Hlt : (p < 2 ^ 31 + 1)%positive) by lia.
    pose proof (Pos.size_nat_monotone _ _ Hlt) as H. simpl in H. lia. }
  unfold fmt_Z. destruct (Z.ltb_spec z 0).
  - rewrite str_length_app. pose proof (fmt_N_length (Z.to_N (- z))).
    destruct (- z) as [|p|p] eqn:E; simpl in *; try lia.
    assert (p <= 2 ^ 31)%positive by lia. specialize (Hs p H1). lia.
  - pose proof (fmt_N_length (Z.to_N z)).
    destruct z as [|p|p]; simpl in *; try lia.
    assert (p <= 2 ^ 31)%positive by lia. specialize (Hs p H1). lia.
Qed.

Lemma substring_0_length (s : string) m : (String.length (String.substring 0 m s) <= m)%nat.
Proof. revert m. induction s as [|c s IH]; intros [|m]; simpl; try lia. specialize (IH m). lia. Qed.

Lemma safestrncpy_length (s : string) n : (String.length (safestrncpy s n) <= n - 1)%nat.
Proof. apply substring_0_length. Qed.

Lemma safestrncpy_id (s : string) n :
  (String.length s < n)%nat -> safestrncpy s n = s.
Proof. intros. apply substring_all. lia. Qed.

Lemma split_on_nonnil d s : split_on d s <> [].
Proof.
  destruct s as [|c r]; simpl; [congruence|].
  destruct (ascii_eqb c d); [congruence|]. destruct (split_on d r); congruence.
Qed.

Lemma split_on_app d f s :
  str_excludes d f = true ->
  split_on d (f +:+ s) =
    match split_on d s with g :: gs => (f +:+ g) :: gs | [] => [f] end.
Proof.
  unfold str_excludes. induction f as [|c f IH].
  - intros _. rewrite str_app_nil_l.
    destruct (split_on d s) eqn:E; [now destruct (split_on_nonnil d s)|reflexivity].
  - simpl. intros [Hc Hf]%andb_prop. apply negb_true_iff in Hc.
    rewrite Hc, IH by exact Hf.
    destruct (split_on d s); reflexivity.
Qed.

Lemma split_join d fs :
  fs <> [] -> Forall (fun f => str_excludes d f = true) fs ->
  split_on d (join_on d fs) = fs.
Proof.
  induction fs as [|f fs IH]; [congruence|]. intros _ Hall.
  inversion Hall as [|? ? Hf Hfs]; subst.
  destruct fs as [|g gs].
  - simpl. rewrite <- (str_app_nil_r f) at 1. rewrite split_on_app by exact Hf.
    simpl. rewrite str_app_nil_r. reflexivity.
  - change (join_on d (f :: g :: gs)) with (f +:+ String d (join_on d (g :: gs))).
    rewrite split_on_app by exact Hf.
    assert (Hd : split_on d (String d (join_on d (g :: gs))) = EmptyString :: g :: gs).
    { simpl split_on at 1. replace (ascii_eqb d d) with true by (symmetry; apply Ascii.eqb_refl).
      f_equal. apply IH; [congruence | exact Hfs]. }
    rewrite Hd, str_app_nil_r. reflexivity.
Qed.

Lemma scan_while_app w ok m rest :
  str_forall ok m = true -> (String.length m <= w)%nat ->
  (String.length m = w \/ match rest with String c _ => ok c = false | EmptyString => True end) ->
  scan_while w ok (m +:+ rest) = (m, rest).
Proof.
  revert w. induction m as [|c m IH]; intros w Hm Hw Hstop.
  - rewrite str_app_nil_l. destruct w as [|w]; [reflexivity|].
    destruct Hstop as [Hstop|Hstop]; [discriminate|].
    destruct rest as [|c r]; simpl; [reflexivity|]. rewrite Hstop. reflexivity.
  - simpl in Hm, Hw. apply andb_prop in Hm as [Hc Hm].
    destruct w as [|w]; [lia|]. rewrite str_app_cons. simpl. rewrite Hc.
    rewrite IH; [reflexivity | assumption | lia |].
    simpl in Hstop. destruct Hstop as [Hstop|Hstop]; [left; lia | right; exact Hstop].
Qed.

Lemma scan_set_app w ok c m rest :
  str_forall ok (String c m) = true -> (String.length (String c m) <= w)%nat ->
  (String.length (String c m) = w \/
   match rest with String c _ => ok c = false | EmptyString => True end) ->
  scan_set w ok (String c m +:+ rest) = Some (String c m, rest).
Proof. intros. unfold scan_set. rewrite scan_while_app by assumption. reflexivity. Qed.

Lemma skip_space_app s rest :
  str_forall isspace s = true ->
  skip_space (s +:+ rest) = skip_space rest.
Proof.
  induction s as [|c s IH]; [reflexivity|]. simpl. intros [Hc Hs]%andb_prop.
  rewrite Hc. exact (IH Hs).
Qed.

(** The text of a file made of the given lines, each ended by a newline. *)
Definition lines_text (ls : list string) : string :=
  foldr (fun l acc => l +:+ String LF acc) EmptyString ls.

Lemma fgets_go_line room cur l rest :
  str_excludes LF l = true -> (String.length l < room)%nat ->
  fgets_go room cur (l +:+ String LF rest) =
    (cur +:+ (l +:+ ⌜LF⌝)) :: fgets_go (FGETS_SIZE - 1) EmptyString rest.
Proof.
  unfold str_excludes. revert room cur. induction l as [|c l IH]; intros room cur Hl Hroom.
  - simpl. reflexivity.
  - simpl in Hl, Hroom. apply andb_prop in Hl as [Hc Hl]. apply negb_true_iff in Hc.
    rewrite str_app_cons. simpl fgets_go. rewrite Hc.
    destruct (Nat.leb_spec room 1); [lia|].
    rewrite IH by (assumption || lia). rewrite <- str_app_assoc. reflexivity.
Qed.

Lemma fgets_lines_text ls :
  Forall (fun l => str_excludes LF l = true /\ (String.length l < FGETS_SIZE - 1)%nat) ls ->
  fgets_lines (lines_text ls) = map (fun l => l +:+ ⌜LF⌝) ls.
Proof.
  unfold fgets_lines. induction 1 as [|l ls [Hl Hlen] _ IH]; [reflexivity|].
  simpl lines_text. rewrite fgets_go_line by assumption. rewrite IH. reflexivity.
Qed.

Lemma str_drop_suffix p r :
  str_drop (String.length (p +:+ r) - String.length r) (p +:+ r) = r.
Proof.
  rewrite str_length_app. replace (String.length p + String.length r - String.length r)%nat
    with (String.length p) by lia.
  induction p as [|c p IH]; [reflexivity|]. exact IH.
Qed.

Lemma c_str_id s : str_excludes NUL s = true -> c_str s = s.
Proof.
  unfold str_excludes. induction s as [|c s IH]; [reflexivity|]. simpl.
  intros H. ea_andb. rewrite H, IH by assumption. reflexivity.
Qed.

Lemma match_literal_split lit s r : match_literal lit s = Some r -> s = lit +:+ r.
Proof.
  revert s. induction lit as [|c l IH]; intros s.
  - simpl. intros [= ->]. reflexivity.
  - destruct s as [|d s]; simpl; [discriminate|].
    destruct (Ascii.eqb_spec c d); [|discriminate]. subst. intros H. rewrite (IH _ H). reflexivity.
Qed.
