(* ===== verification/Account.v ===== *)
(** * Account data: [struct mmo_account] and the constants of [mmo.h]

    [mmo.h] is not under [src/]; the record follows the fields that
    [account_txt.c] reads and writes, with the C type each conversion of
    the code implies: [account_id] and [logincount] are [int] ([%d],
    [strtol]); [level] and [state] are [unsigned int] ([%u], [strtoul]);
    [unban_time] and [expiration_time] are [time_t] ([%ld], [strtol]).
    The registry array [account_reg2] with its count [account_reg2_num]
    is the list of its first [account_reg2_num] entries, the only ones the
    code reads. *)

From S2P Require Import Prelude CLib.

(** Array sizes and limits of [mmo.h]. *)
Definition NAME_LENGTH : nat := 24.
Definition PASS_SIZE : nat := 33.
Definition EMAIL_SIZE : nat := 40.
Definition LASTLOGIN_SIZE : nat := 24.
Definition LAST_IP_SIZE : nat := 16.
Definition REG_STR_SIZE : nat := 32.
Definition REG_VALUE_SIZE : nat := 256.
Definition ACCOUNT_REG2_NUM : nat := 16.
Definition START_ACCOUNT_NUM : Z := 2000000.
Definition END_ACCOUNT_NUM : Z := 100000000.

(** [struct global_reg]. *)
Record global_reg := mk_reg { reg_str : string; reg_value : string }.

(** [struct mmo_account]. *)
Record mmo_account := mk_account {
  account_id : Z;
  userid : string;
  pass : string;
  sex : ascii;
  email : string;
  level : Z;
  state : Z;
  unban_time : Z;
  expiration_time : Z;
  logincount : Z;
  lastlogin : string;
  last_ip : string;
  account_reg2 : list global_reg
}.

(** [account_reg2_num]. *)
Definition account_reg2_num (a : mmo_account) : nat := length (account_reg2 a).

(** The record as [aCalloc] or [memset(acc, '\0', ...)] leave it. *)
Definition account_zero : mmo_account :=
  mk_account 0 "" "" NUL "" 0 0 0 0 0 "" "" [].

#[export] Instance global_reg_eq_dec : EqDecision global_reg.
Proof. solve_decision. Defined.

#[export] Instance mmo_account_eq_dec : EqDecision mmo_account.
Proof. solve_decision. Defined.

(** ** The C type invariant of a record *)

(** A character array of size [n] holds a NUL-free string of at most
    [n - 1] characters. *)
Definition fits (n : nat) (s : string) : bool :=
  (String.length s <? n)%nat && str_excludes NUL s.

Definition reg_wf (r : global_reg) : bool :=
  fits REG_STR_SIZE (reg_str r) && fits REG_VALUE_SIZE (reg_value r).

Definition int_b (z : Z) : bool := (INT_MIN <=? z) && (z <=? INT_MAX).
Definition uint_b (z : Z) : bool := (0 <=? z) && (z <? 2 ^ 32).
Definition long_b (z : Z) : bool := (LONG_MIN <=? z) && (z <=? LONG_MAX).

Definition account_wf (a : mmo_account) : bool :=
  int_b (account_id a) && fits NAME_LENGTH (userid a) && fits PASS_SIZE (pass a) &&
  fits EMAIL_SIZE (email a) && uint_b (level a) && uint_b (state a) &&
  long_b (unban_time a) && long_b (expiration_time a) && int_b (logincount a) &&
  fits LASTLOGIN_SIZE (lastlogin a) && fits LAST_IP_SIZE (last_ip a) &&
  (account_reg2_num a <=? ACCOUNT_REG2_NUM)%nat && forallb reg_wf (account_reg2 a).

Lemma int_b_spec z : int_b z = true <-> in_int z.
Proof. unfold int_b, in_int. rewrite andb_true_iff, !Z.leb_le. tauto. Qed.

Lemma uint_b_spec z : uint_b z = true <-> in_uint z.
Proof. unfold uint_b, in_uint. rewrite andb_true_iff, Z.leb_le, Z.ltb_lt. tauto. Qed.

Lemma long_b_spec z : long_b z = true <-> in_long z.
Proof. unfold long_b, in_long. rewrite andb_true_iff, !Z.leb_le. tauto. Qed.
