(* ===== verification/AccountCodec.v ===== *)
(** * The versioned account codec of [account_txt.c]

    [mmo_auth_fromstr] (lines 306-415) splits a line at its tabs and picks
    one of four layouts by the declared version and the field count; the
    text after the fixed fields is a sequence of registry entries
    [key,value ] read by a bounded loop of [sscanf] calls.
    [mmo_auth_tostr] (lines 418-431) prints the canonical (20080409)
    layout.  The theorems: the registry loop terminates within the length
    of its input; a line whose (version, count) matches no layout gives no
    record; printing then parsing gives back the record, without the
    registry entries whose key is empty (which the printer skips). *)

From S2P Require Import Prelude CLib Account.

(** ** Parsing: the registry entries *)

Definition reg_key_char (c : ascii) : bool := negb (ascii_eqb c TAB || ascii_eqb c COMMA).
Definition reg_value_char (c : ascii) : bool := negb (ascii_eqb c TAB || ascii_eqb c SPACE).

(** [sscanf(regs, "%31[^\t,],%255[^\t ] %n", key, value, &n)]: the number
    of conversions (-1 on empty input) and, when both succeeded, the key,
    the value and the [%n] count. *)
Definition sscanf_reg (regs : string) : Z * option (string * string * nat) :=
  match regs with
  | EmptyString => (-1, None)
  | _ =>
      match scan_set 31 reg_key_char regs with
      | None => (0, None)
      | Some (key, String c r2) =>
          if ascii_eqb c COMMA then
            match scan_set 255 reg_value_char r2 with
            | None => (1, None)
            | Some (value, r3) =>
                (2, Some (key, value, (String.length regs - String.length (skip_space r3))%nat))
            end
          else (1, None)
      | Some (_, EmptyString) => (1, None)
      end
  end.

(** [sscanf(regs, ",%[^\t ] %n", value, &n)]: the malformed entry with an
    empty key (line 402); the count and the [%n] count. *)
Definition sscanf_empty_key (regs : string) : Z * option nat :=
  match regs with
  | EmptyString => (-1, None)
  | String c r =>
      if ascii_eqb c COMMA then
        match scan_set_unbounded reg_value_char r with
        | Some (_, r3) => (1, Some (String.length regs - String.length (skip_space r3))%nat)
        | None => (0, None)
        end
      else (0, None)
  end.

(** The test of line 398, [sscanf(...) == 2], with what it scanned. *)
Definition reg_entry (regs : string) : option (string * string * nat) :=
  match sscanf_reg regs with
  | (cnt, Some e) => if cnt =? 2 then Some e else None
  | (_, None) => None
  end.

(** The test of line 402, [regs[0] == ',' && sscanf(...) == 1], with the
    [%n] count. *)
Definition empty_key_entry (regs : string) : option nat :=
  if ascii_eqb regs.[0] COMMA then
    match sscanf_empty_key regs with
    | (cnt, Some n) => if cnt =? 1 then Some n else None
    | (_, None) => None
    end
  else None.

(** The loop of lines 390-411.  [i] is the loop index, [acc] the entries
    [0..i-1] already stored.  [regs += n] is done right after the scan
    that sets [n] (the C code does it at the top of the next iteration,
    with [n = 0] on the first); the malformed entry leaves [i] unchanged
    ([i--; continue;]).  [fuel] bounds the iterations; [None] means it ran
    out, which [parse_regs_total] rules out. *)
Fixpoint parse_regs (fuel : nat) (i : nat) (regs : string) (acc : list global_reg)
    : option (list global_reg) :=
  match fuel with
  | O => None
  | S fuel =>
      if (i <? ACCOUNT_REG2_NUM)%nat then
        match reg_entry regs with
        | Some (key, value, n) =>
            parse_regs fuel (S i) (str_drop n regs)
              (acc ++ [mk_reg (safestrncpy key REG_STR_SIZE) (safestrncpy value REG_VALUE_SIZE)])
        | None =>
            match empty_key_entry regs with
            | Some n => parse_regs fuel i (str_drop n regs) acc
            | None => Some acc
            end
        end
      else Some acc
  end.

(** ** Parsing: the fixed fields *)

(** The four layouts; [f k] is [fields[k]].  Each starts from the zeroed
    record of [CREATE] and returns it with the registry text. *)
Definition layout_20080409 (f : nat -> string) : mmo_account * string :=
  (mk_account
     (int32 (strtol (f 1%nat))) (safestrncpy (f 2%nat) NAME_LENGTH)
     (safestrncpy (f 3%nat) PASS_SIZE) ((f 4%nat).[0]) (safestrncpy (f 5%nat) EMAIL_SIZE)
     (uint32 (strtoul (f 6%nat))) (uint32 (strtoul (f 7%nat)))
     (long64 (strtol (f 8%nat))) (long64 (strtol (f 9%nat))) (int32 (strtol (f 10%nat)))
     (safestrncpy (f 11%nat) LASTLOGIN_SIZE) (safestrncpy (f 12%nat) LAST_IP_SIZE) [],
   f 13%nat).

Definition layout_0_14 (f : nat -> string) : mmo_account * string :=
  (mk_account
     (int32 (strtol (f 1%nat))) (safestrncpy (f 2%nat) NAME_LENGTH)
     (safestrncpy (f 3%nat) PASS_SIZE) ((f 5%nat).[0]) (safestrncpy (f 8%nat) EMAIL_SIZE)
     0 (uint32 (strtoul (f 7%nat)))
     (long64 (strtol (f 13%nat))) (long64 (strtol (f 10%nat))) (int32 (strtol (f 6%nat)))
     (safestrncpy (f 4%nat) LASTLOGIN_SIZE) (safestrncpy (f 11%nat) LAST_IP_SIZE) [],
   f 14%nat).

Definition layout_0_13 (f : nat -> string) : mmo_account * string :=
  (mk_account
     (int32 (strtol (f 1%nat))) (safestrncpy (f 2%nat) NAME_LENGTH)
     (safestrncpy (f 3%nat) PASS_SIZE) ((f 5%nat).[0]) (safestrncpy (f 8%nat) EMAIL_SIZE)
     0 (uint32 (strtoul (f 7%nat)))
     0 (long64 (strtol (f 10%nat))) (int32 (strtol (f 6%nat)))
     (safestrncpy (f 4%nat) LASTLOGIN_SIZE) (safestrncpy (f 11%nat) LAST_IP_SIZE) [],
   f 13%nat).

Definition layout_0_8 (f : nat -> string) : mmo_account * string :=
  (mk_account
     (int32 (strtol (f 1%nat))) (safestrncpy (f 2%nat) NAME_LENGTH)
     (safestrncpy (f 3%nat) PASS_SIZE) ((f 5%nat).[0]) ""
     0 (uint32 (strtoul (f 7%nat)))
     0 0 (int32 (strtol (f 6%nat)))
     (safestrncpy (f 4%nat) LASTLOGIN_SIZE) "" [],
   f 8%nat).

(** The layout selected by [version] and the field count [count]. *)
Definition select_layout (version count : Z) : option ((nat -> string) -> mmo_account * string) :=
  if (version =? 20080409) && (count =? 13) then Some layout_20080409
  else if (version =? 0) && (count =? 14) then Some layout_0_14
  else if (version =? 0) && (count =? 13) then Some layout_0_13
  else if (version =? 0) && (count =? 8) then Some layout_0_8
  else None.

(** [mmo_auth_fromstr(str, version)]: [None] is the NULL of an unmatched
    row. *)
Definition mmo_auth_fromstr (str : string) (version : Z) : option mmo_account :=
  let '(count, fields) := sv_split str TAB 32 in
  match select_layout version count with
  | None => None
  | Some layout =>
      let '(a, regs) := layout (field fields) in
      match parse_regs (S (String.length regs)) 0 regs [] with
      | Some rs =>
          Some (mk_account (account_id a) (userid a) (pass a) (sex a) (email a)
                  (level a) (state a) (unban_time a) (expiration_time a)
                  (logincount a) (lastlogin a) (last_ip a) rs)
      | None => None
      end
  end.

(** ** Printing *)

(** The registry part of [mmo_auth_tostr]: entries with an empty key are
    skipped (line 429). *)
Fixpoint regs_tostr (rs : list global_reg) : string :=
  match rs with
  | [] => EmptyString
  | r :: rs =>
      match reg_str r with
      | EmptyString => regs_tostr rs
      | _ => reg_str r +:+ "," +:+ reg_value r +:+ " " +:+ regs_tostr rs
      end
  end.

(** The fixed fields of [mmo_auth_tostr], in the order of the format. *)
Definition fixed_fields (a : mmo_account) : list string :=
  [printf_d (account_id a); userid a; pass a; ⌜sex a⌝; email a;
   printf_u (level a); printf_u (state a); printf_ld (unban_time a);
   printf_ld (expiration_time a); printf_d (logincount a); lastlogin a; last_ip a].

(** [mmo_auth_tostr(str, a)]: each fixed field followed by a tab, then the
    registry entries. *)
Definition mmo_auth_tostr (a : mmo_account) : string :=
  foldr (fun f acc => f +:+ String TAB acc) (regs_tostr (account_reg2 a)) (fixed_fields a).

(** ** Which records a line can carry *)

(** Characters a registry key may hold so that it reads back: no
    separator of the line grammar, no white space. *)
Definition key_char_ok (c : ascii) : bool :=
  negb (isspace c) && negb (ascii_eqb c COMMA) && negb (ascii_eqb c NUL).
Definition value_char_ok (c : ascii) : bool :=
  negb (isspace c) && negb (ascii_eqb c NUL).

(** A printed registry entry (nonempty key) that reads back. *)
Definition reg_line_ok (r : global_reg) : bool :=
  match reg_str r, reg_value r with
  | EmptyString, _ => true
  | _, EmptyString => false
  | k, v => (String.length k <? REG_STR_SIZE)%nat && str_forall key_char_ok k &&
            (String.length v <? REG_VALUE_SIZE)%nat && str_forall value_char_ok v
  end.

(** A field of the line: no tab, no newline. *)
Definition field_ok (s : string) : bool := str_excludes TAB s && str_excludes LF s.

(** A record that the printer writes on one line and the parser reads
    back: the C type invariant, fields free of the separators, a [sex]
    character that is a visible field, registry entries that read back. *)
Definition account_line_ok (a : mmo_account) : bool :=
  account_wf a && field_ok (userid a) && field_ok (pass a) && field_ok (email a) &&
  field_ok (lastlogin a) && field_ok (last_ip a) &&
  negb (ascii_eqb (sex a) NUL) && negb (ascii_eqb (sex a) TAB) &&
  negb (ascii_eqb (sex a) LF) && forallb reg_line_ok (account_reg2 a).

(** The registry entries that the printer writes. *)
Definition printed_regs (rs : list global_reg) : list global_reg :=
  List.filter (fun r => negb (String.eqb (reg_str r) EmptyString)) rs.

(** The record as it reads back after printing. *)
Definition reread (a : mmo_account) : mmo_account :=
  mk_account (account_id a) (userid a) (pass a) (sex a) (email a) (level a) (state a)
    (unban_time a) (expiration_time a) (logincount a) (lastlogin a) (last_ip a)
    (printed_regs (account_reg2 a)).

(** ** Lemmas on the registry loop *)

Lemma regs_tostr_printed rs : regs_tostr (printed_regs rs) = regs_tostr rs.
Proof.
  unfold printed_regs. induction rs as [|[k v] rs IH]; [reflexivity|].
  destruct k as [|c k]; simpl; rewrite IH; reflexivity.
Qed.

Lemma printed_regs_length rs : (length (printed_regs rs) <= length rs)%nat.
Proof. apply List.filter_length_le. Qed.

(** What is left of the registry text after the entries before [rs]
    were read: the separator after the last value is skipped with the
    newline. *)
Definition regs_after (rs : list global_reg) : string :=
  match rs with [] => EmptyString | _ => regs_tostr rs +:+ ⌜LF⌝ end.

Definition key_nonempty (r : global_reg) : bool := negb (String.eqb (reg_str r) EmptyString).

Lemma key_char_ok_reg c : key_char_ok c = true -> reg_key_char c = true.
Proof. destruct c as [[] [] [] [] [] [] [] []]; vm_compute; congruence. Qed.

Lemma value_char_ok_reg c : value_char_ok c = true -> reg_value_char c = true.
Proof. destruct c as [[] [] [] [] [] [] [] []]; vm_compute; congruence. Qed.

Lemma key_char_ok_space c : key_char_ok c = true -> isspace c = false.
Proof. destruct c as [[] [] [] [] [] [] [] []]; vm_compute; congruence. Qed.

Lemma str_forall_impl (p q : ascii -> bool) s :
  (forall c, p c = true -> q c = true) -> str_forall p s = true -> str_forall q s = true.
Proof.
  intros Hpq. induction s as [|c s IH]; [reflexivity|]. simpl.
  intros [Hc Hs]%andb_prop. rewrite (Hpq c Hc). exact (IH Hs).
Qed.

Lemma reg_line_ok_iff k v :
  k <> EmptyString -> reg_line_ok (mk_reg k v) = true ->
  v <> EmptyString /\ (String.length k < REG_STR_SIZE)%nat /\ str_forall key_char_ok k = true /\
  (String.length v < REG_VALUE_SIZE)%nat /\ str_forall value_char_ok v = true.
Proof.
  intros Hk. unfold reg_line_ok. cbn [reg_str reg_value].
  destruct k as [|c k]; [congruence|]. destruct v as [|c' v]; [discriminate|].
  intros H. ea_andb. apply Nat.ltb_lt in H, H1. repeat split; congruence || assumption.
Qed.

(** The entries the loop reads back. *)
Definition reg_readable (r : global_reg) : Prop := key_nonempty r = true /\ reg_line_ok r = true.

Lemma skip_space_regs rs :
  Forall reg_readable rs ->
  skip_space (regs_tostr rs +:+ ⌜LF⌝) = regs_after rs.
Proof.
  intros Hall. destruct Hall as [|[[|c k] v] rs [Hne Hok] _]; [reflexivity|discriminate Hne|].
  apply reg_line_ok_iff in Hok as (_ & _ & Hk & _); [|congruence].
  simpl in Hk. ea_andb. simpl. rewrite (key_char_ok_space c) by assumption. reflexivity.
Qed.

Lemma str_drop_suffix' s p r :
  s = p +:+ r -> str_drop (String.length s - String.length r) s = r.
Proof. intros ->. apply str_drop_suffix. Qed.

Lemma scan_while_split w ok s : s = fst (scan_while w ok s) +:+ snd (scan_while w ok s).
Proof.
  revert s. induction w as [|w IH]; intros [|c r]; try reflexivity. simpl.
  destruct (ok c); [|reflexivity]. specialize (IH r).
  destruct (scan_while w ok r) as [m rest]. simpl in *. rewrite str_app_cons, <- IH. reflexivity.
Qed.

Lemma scan_set_split w ok s m rest :
  scan_set w ok s = Some (m, rest) -> s = m +:+ rest /\ m <> EmptyString.
Proof.
  unfold scan_set. pose proof (scan_while_split w ok s) as Hs.
  destruct (scan_while w ok s) as [[|c m'] r]; [discriminate|]. intros [= <- <-]. split; [exact Hs|congruence].
Qed.

Lemma skip_space_split s : exists p, s = p +:+ skip_space s.
Proof.
  induction s as [|c s [p IH]]; [exists EmptyString; reflexivity|]. simpl.
  destruct (isspace c); [exists (String c p); rewrite str_app_cons, <- IH; reflexivity|].
  exists EmptyString. reflexivity.
Qed.

(** A successful scan consumes at least one character. *)
Lemma sscanf_reg_progress regs k v n :
  sscanf_reg regs = (2, Some (k, v, n)) ->
  (String.length (str_drop n regs) < String.length regs)%nat.
Proof.
  unfold sscanf_reg. destruct regs as [|c0 r0] eqn:Eregs; [discriminate|]. rewrite <- Eregs.
  destruct (scan_set 31 reg_key_char regs) as [[key [|c r2]]|] eqn:E1; try discriminate.
  destruct (ascii_eqb c COMMA); [|discriminate].
  destruct (scan_set 255 reg_value_char r2) as [[value r3]|] eqn:E2; [|discriminate].
  intros [= <- <- <-]. apply scan_set_split in E1 as [Hs1 Hk], E2 as [Hs2 Hv].
  destruct (skip_space_split r3) as [p Hp].
  assert (Hsuf : regs = (key +:+ String c (value +:+ p)) +:+ skip_space r3).
  { rewrite Hs1, Hs2. rewrite Hp at 1. str_norm. reflexivity. }
  rewrite (str_drop_suffix' _ _ _ Hsuf). rewrite Hsuf. rewrite !str_length_app.
  destruct key; [congruence|]. simpl. lia.
Qed.

Lemma sscanf_empty_key_progress regs n :
  sscanf_empty_key regs = (1, Some n) ->
  (String.length (str_drop n regs) < String.length regs)%nat.
Proof.
  unfold sscanf_empty_key. destruct regs as [|c r] eqn:Eregs; [discriminate|]. rewrite <- Eregs.
  destruct (ascii_eqb c COMMA); [|discriminate].
  unfold scan_set_unbounded.
  destruct (scan_set (String.length r) reg_value_char r) as [[value r3]|] eqn:E; [|discriminate].
  intros [= <-]. apply scan_set_split in E as [Hs _].
  destruct (skip_space_split r3) as [p Hp].
  assert (Hsuf : regs = String c (value +:+ p) +:+ skip_space r3).
  { rewrite Eregs, Hs. rewrite Hp at 1. str_norm. reflexivity. }
  rewrite (str_drop_suffix' _ _ _ Hsuf). rewrite Hsuf. rewrite !str_length_app. simpl. lia.
Qed.

Lemma reg_entry_progress regs k v n :
  reg_entry regs = Some (k, v, n) ->
  (String.length (str_drop n regs) < String.length regs)%nat.
Proof.
  unfold reg_entry. destruct (sscanf_reg regs) as [cnt [e|]] eqn:E; [|discriminate].
  destruct (Z.eqb_spec cnt 2) as [->|]; [|discriminate]. intros [= ->].
  exact (sscanf_reg_progress _ _ _ _ E).
Qed.

Lemma empty_key_entry_progress regs n :
  empty_key_entry regs = Some n ->
  (String.length (str_drop n regs) < String.length regs)%nat.
Proof.
  unfold empty_key_entry. destruct (ascii_eqb _ _); [|discriminate].
  destruct (sscanf_empty_key regs) as [cnt [m|]] eqn:E; [|discriminate].
  destruct (Z.eqb_spec cnt 1) as [->|]; [|discriminate]. intros [= ->].
  exact (sscanf_empty_key_progress _ _ E).
Qed.

Lemma parse_regs_total fuel : forall i regs acc,
  (String.length regs < fuel)%nat -> parse_regs fuel i regs acc <> None.
Proof.
  induction fuel as [|fuel IH]; intros i regs acc Hlen; [lia|]. simpl.
  destruct (i <? ACCOUNT_REG2_NUM)%nat; [|congruence].
  destruct (reg_entry regs) as [[[key value] n]|] eqn:E.
  - apply IH. pose proof (reg_entry_progress _ _ _ _ E). lia.
  - destruct (empty_key_entry regs) as [n|] eqn:E'; [|congruence].
    apply IH. pose proof (empty_key_entry_progress _ _ E'). lia.
Qed.

Lemma regs_after_suffix rs : exists p, regs_tostr rs +:+ ⌜LF⌝ = p +:+ regs_after rs.
Proof.
  destruct rs as [|r rs]; [exists ⌜LF⌝; reflexivity|]. exists EmptyString. reflexivity.
Qed.

(** Reading back one printed entry. *)
Lemma reg_entry_printed k v rs :
  reg_readable (mk_reg k v) -> Forall reg_readable rs ->
  exists n, reg_entry (regs_tostr (mk_reg k v :: rs) +:+ ⌜LF⌝) = Some (k, v, n) /\
            str_drop n (regs_tostr (mk_reg k v :: rs) +:+ ⌜LF⌝) = regs_after rs.
Proof.
  intros [Hne Hok] Hrs. destruct k as [|c k]; [discriminate Hne|].
  apply reg_line_ok_iff in Hok as (Hv & Hklen & Hk & Hvlen & Hvc); [|congruence].
  destruct v as [|c' v]; [congruence|].
  set (tail := regs_tostr rs +:+ ⌜LF⌝).
  assert (Hs : regs_tostr (mk_reg (String c k) (String c' v) :: rs) +:+ ⌜LF⌝ =
               String c k +:+ String COMMA (String c' v +:+ String SPACE tail)).
  { unfold tail. simpl regs_tostr. str_norm. reflexivity. }
  rewrite Hs. clear Hs. unfold reg_entry, sscanf_reg.
  assert (Hkey : scan_set 31 reg_key_char (String c k +:+ String COMMA (String c' v +:+ String SPACE tail))
                 = Some (String c k, String COMMA (String c' v +:+ String SPACE tail))).
  { apply scan_set_app.
    - eapply str_forall_impl; [apply key_char_ok_reg | exact Hk].
    - unfold REG_STR_SIZE in Hklen. lia.
    - right. reflexivity. }
  assert (Hval : scan_set 255 reg_value_char (String c' v +:+ String SPACE tail)
                 = Some (String c' v, String SPACE tail)).
  { apply scan_set_app.
    - eapply str_forall_impl; [apply value_char_ok_reg | exact Hvc].
    - unfold REG_VALUE_SIZE in Hvlen. lia.
    - right. reflexivity. }
  eexists. rewrite Hkey. rewrite (str_app_cons c k) at 1. cbv iota beta.
  change (ascii_eqb COMMA COMMA) with true. cbv iota beta. rewrite Hval.
  change (skip_space (String SPACE tail)) with (skip_space tail).
  unfold tail. rewrite skip_space_regs by exact Hrs.
  split; [reflexivity|].
  destruct (regs_after_suffix rs) as [p Hp]. apply (str_drop_suffix' _ (String c k +:+ String COMMA (String c' v +:+ String SPACE p))).
  rewrite Hp. str_norm. reflexivity.
Qed.

Lemma regs_after_length rs :
  (String.length (regs_after rs) <= String.length (regs_tostr rs +:+ ⌜LF⌝))%nat.
Proof. destruct rs; simpl; [lia | reflexivity]. Qed.

(** The loop stops at the end of the printed entries: the rest is the
    newline of the line, or nothing once the separator was skipped. *)
Lemma parse_regs_end fuel i t acc :
  (t = ⌜LF⌝ \/ t = EmptyString) -> parse_regs (S fuel) i t acc = Some acc.
Proof.
  intros [-> | ->]; simpl; destruct (i <? ACCOUNT_REG2_NUM)%nat; reflexivity.
Qed.

Lemma parse_regs_printed rs : forall fuel i acc t,
  Forall reg_readable rs -> (i + length rs <= ACCOUNT_REG2_NUM)%nat ->
  (t = regs_tostr rs +:+ ⌜LF⌝ \/ t = regs_after rs) ->
  (String.length t < fuel)%nat ->
  parse_regs fuel i t acc = Some (acc ++ rs).
Proof.
  induction rs as [|[k v] rs IH]; intros fuel i acc t Hrs Hi Ht Hfuel.
  - destruct fuel as [|fuel]; [lia|]. rewrite app_nil_r. apply parse_regs_end.
    destruct Ht as [-> | ->]; [left|right]; reflexivity.
  - inversion Hrs as [|? ? Hr Hrs']; subst.
    assert (Ht' : t = regs_tostr (mk_reg k v :: rs) +:+ ⌜LF⌝) by (destruct Ht; assumption).
    subst t. destruct fuel as [|fuel]; [lia|].
    destruct (reg_entry_printed k v rs Hr Hrs') as (n & Hscan & Hdrop).
    simpl length in Hi. cbn [parse_regs].
    destruct (Nat.ltb_spec i ACCOUNT_REG2_NUM); [|lia].
    rewrite Hscan, Hdrop.
    destruct Hr as [Hne Hok]. destruct k as [|c k]; [discriminate Hne|].
    apply reg_line_ok_iff in Hok as (_ & Hklen & _ & Hvlen & _); [|congruence].
    rewrite !safestrncpy_id by assumption.
    replace (acc ++ mk_reg (String c k) v :: rs) with ((acc ++ [mk_reg (String c k) v]) ++ rs)
      by (rewrite <- app_assoc; reflexivity).
    apply IH; [exact Hrs' | lia | right; reflexivity |].
    pose proof (regs_after_length rs) as Hlen. rewrite str_length_app in Hlen.
    cbn [regs_tostr reg_str reg_value] in Hfuel.
    rewrite <- !str_app_assoc, !str_length_app in Hfuel. simpl in Hfuel, Hlen. lia.
Qed.

(** ** Printing then parsing *)

Lemma foldr_tab_join d R fs x :
  foldr (fun f acc => f +:+ String d acc) R fs +:+ x = join_on d (fs ++ [R +:+ x]).
Proof.
  induction fs as [|f fs IH]; [reflexivity|]. simpl foldr.
  rewrite <- str_app_assoc, str_app_cons, IH.
  destruct fs; reflexivity.
Qed.

Lemma digits_field_ok s : str_forall isdigit s = true -> field_ok s = true.
Proof.
  intros H. unfold field_ok, str_excludes.
  rewrite !(str_forall_impl isdigit); [reflexivity | | exact H | | exact H];
    intros c; destruct c as [[] [] [] [] [] [] [] []]; vm_compute; congruence.
Qed.

Lemma fmt_Z_field_ok z : field_ok (fmt_Z z) = true.
Proof.
  unfold fmt_Z. destruct (z <? 0).
  - pose proof (digits_field_ok _ (fmt_N_digits (Z.to_N (- z)))) as H.
    unfold field_ok, str_excludes in *. rewrite !str_forall_app. ea_andb.
    rewrite H, H0. reflexivity.
  - apply digits_field_ok, fmt_N_digits.
Qed.

Lemma key_char_ok_field c : key_char_ok c = true ->
  negb (ascii_eqb c TAB) = true /\ negb (ascii_eqb c LF) = true.
Proof. destruct c as [[] [] [] [] [] [] [] []]; vm_compute; intuition congruence. Qed.

Lemma value_char_ok_field c : value_char_ok c = true ->
  negb (ascii_eqb c TAB) = true /\ negb (ascii_eqb c LF) = true.
Proof. destruct c as [[] [] [] [] [] [] [] []]; vm_compute; intuition congruence. Qed.

Lemma field_ok_app s1 s2 : field_ok (s1 +:+ s2) = field_ok s1 && field_ok s2.
Proof.
  unfold field_ok, str_excludes. rewrite !str_forall_app.
  destruct (str_forall _ s1), (str_forall _ s2), (str_forall _ s1), (str_forall _ s2); reflexivity.
Qed.

Lemma field_ok_chars p s :
  (forall c, p c = true -> negb (ascii_eqb c TAB) = true /\ negb (ascii_eqb c LF) = true) ->
  str_forall p s = true -> field_ok s = true.
Proof.
  intros Hp Hs. unfold field_ok, str_excludes.
  rewrite (str_forall_impl p _ s), (str_forall_impl p _ s); try reflexivity; try exact Hs;
    intros c Hc; apply (Hp c Hc).
Qed.

Lemma regs_tostr_field_ok rs : forallb reg_line_ok rs = true -> field_ok (regs_tostr rs) = true.
Proof.
  induction rs as [|[k v] rs IH]; [reflexivity|]. simpl forallb. intros Hall. ea_andb.
  destruct k as [|c k]; [exact (IH H0)|].
  apply reg_line_ok_iff in H as (_ & _ & Hk & _ & Hv); [|congruence].
  cbn [regs_tostr reg_str reg_value]. rewrite !field_ok_app, IH by exact H0.
  rewrite (field_ok_chars key_char_ok _ key_char_ok_field Hk).
  rewrite (field_ok_chars value_char_ok _ value_char_ok_field Hv). reflexivity.
Qed.

Lemma printed_regs_readable rs :
  forallb reg_line_ok rs = true -> Forall reg_readable (printed_regs rs).
Proof.
  induction rs as [|r rs IH]; [constructor|]. simpl. intros Hall. ea_andb.
  unfold printed_regs in *. simpl. destruct (reg_str r =? "")%string eqn:E; simpl.
  - exact (IH H0).
  - constructor; [split; [unfold key_nonempty; rewrite E|]|]; auto.
Qed.

Lemma read_int z : in_int z -> int32 (strtol (printf_d z)) = z.
Proof.
  intros Hz. unfold printf_d. rewrite (int32_id z Hz), strtol_fmt_Z by
    (unfold in_int, in_long, INT_MIN, INT_MAX, LONG_MIN, LONG_MAX in *; lia).
  apply int32_id. exact Hz.
Qed.

Lemma read_uint z : in_uint z -> uint32 (strtoul (printf_u z)) = z.
Proof.
  intros Hz. unfold printf_u. rewrite (uint32_id z Hz), strtoul_fmt_Z by
    (unfold in_uint, ULONG_MAX in *; lia).
  apply uint32_id. exact Hz.
Qed.

Lemma read_long z : in_long z -> long64 (strtol (printf_ld z)) = z.
Proof.
  intros Hz. unfold printf_ld. rewrite (long64_id z Hz), strtol_fmt_Z by assumption.
  apply long64_id. exact Hz.
Qed.

Lemma read_str s n : fits n s = true -> safestrncpy s n = s.
Proof. unfold fits. intros H. ea_andb. apply safestrncpy_id, Nat.ltb_lt. assumption. Qed.

Lemma read_int_b z : int_b z = true -> int32 (strtol (printf_d z)) = z.
Proof. intros H. apply read_int, int_b_spec, H. Qed.

Lemma read_uint_b z : uint_b z = true -> uint32 (strtoul (printf_u z)) = z.
Proof. intros H. apply read_uint, uint_b_spec, H. Qed.

Lemma read_long_b z : long_b z = true -> long64 (strtol (printf_ld z)) = z.
Proof. intros H. apply read_long, long_b_spec, H. Qed.

Lemma field_ok_tab s : field_ok s = true -> str_excludes TAB s = true.
Proof. unfold field_ok. intros H. ea_andb. assumption. Qed.

#[export] Hint Resolve field_ok_tab fmt_Z_field_ok : eathena.

Lemma fromstr_tostr a :
  account_line_ok a = true ->
  mmo_auth_fromstr (mmo_auth_tostr a +:+ ⌜LF⌝) 20080409 = Some (reread a).
Proof.
  intros Hok. unfold account_line_ok, account_wf in Hok. ea_andb.
  unfold mmo_auth_fromstr, mmo_auth_tostr. rewrite foldr_tab_join.
  set (R := regs_tostr (account_reg2 a) +:+ ⌜LF⌝).
  assert (HR : field_ok (regs_tostr (account_reg2 a)) = true) by (apply regs_tostr_field_ok; assumption).
  assert (Hsplit : split_on TAB (join_on TAB (fixed_fields a ++ [R])) = fixed_fields a ++ [R]).
  { apply split_join; [destruct (fixed_fields a); discriminate |].
    unfold fixed_fields, R, printf_d, printf_u, printf_ld.
    repeat constructor; auto with eathena.
    - unfold str_excludes. simpl. apply andb_true_intro.
      split; [apply negb_true_iff; assumption | reflexivity].
    - unfold str_excludes. rewrite str_forall_app. apply andb_true_intro.
      split; [apply field_ok_tab, HR | reflexivity]. }
  unfold sv_split. rewrite Hsplit. unfold R. rewrite <- regs_tostr_printed.
  unfold fixed_fields.
  cbn -[parse_regs strtol strtoul safestrncpy printf_d printf_u printf_ld regs_tostr String.length].
  replace (select_layout 20080409 (Z.of_nat 13)) with (Some layout_20080409) by reflexivity.
  unfold layout_20080409. cbn [field nth fst snd].
  assert (Hrd : Forall reg_readable (printed_regs (account_reg2 a)))
    by (apply printed_regs_readable; assumption).
  rewrite (parse_regs_printed _ _ 0 [] _ Hrd); [| | left; reflexivity | lia].
  - simpl. unfold reread.
    rewrite !read_int_b, !read_uint_b, !read_long_b, !read_str by assumption. reflexivity.
  - pose proof (printed_regs_length (account_reg2 a)).
    match goal with H : (account_reg2_num a <=? _)%nat = true |- _ => apply Nat.leb_le in H end.
    unfold account_reg2_num in *. simpl. lia.
Qed.

(** C1. Printing a record with [mmo_auth_tostr] (and the newline [mmo_auth_sync]
    adds) and parsing the line back with [mmo_auth_fromstr] under the
    current version gives the record back, less the registry entries
    with an empty key. *)
Theorem mmo_auth_fromstr_tostr a :
  account_line_ok a = true ->
  mmo_auth_fromstr (mmo_auth_tostr a +:+ ⌜LF⌝) 20080409 = Some (reread a).
Proof. exact (fromstr_tostr a). Qed.

(** ** Layout selection *)

(** The (version, field count) pairs of the four layouts. *)
Definition known_layouts : list (Z * Z) := [(20080409, 13); (0, 14); (0, 13); (0, 8)].

Lemma select_layout_known version count :
  (version, count) ∈ known_layouts <-> is_Some (select_layout version count).
Proof.
  unfold known_layouts, select_layout. rewrite !elem_of_cons, elem_of_nil.
  destruct (Z.eqb_spec version 20080409), (Z.eqb_spec version 0), (Z.eqb_spec count 13),
    (Z.eqb_spec count 14), (Z.eqb_spec count 8); subst; simpl;
    split; intros H; try discriminate; try lia; eauto;
    repeat destruct H as [H|H]; simplify_eq; lia.
Qed.

Lemma mmo_auth_fromstr_select str version :
  mmo_auth_fromstr str version = None <->
  select_layout version (Z.of_nat (length (split_on TAB str))) = None.
Proof.
  unfold mmo_auth_fromstr, sv_split.
  destruct (select_layout _ _) as [layout|]; [|tauto]. split; [|discriminate].
  destruct (layout _) as [a regs].
  destruct (parse_regs _ _ _ _) eqn:E; [discriminate|].
  exfalso. exact (parse_regs_total _ _ _ _ (Nat.lt_succ_diag_r _) E).
Qed.

(** A line whose declared version and field count match none of the four
    layouts yields no record ([mmo_auth_fromstr] returns NULL and the
    loader skips the line). *)
Theorem mmo_auth_fromstr_unmatched str version :
  (version, Z.of_nat (length (split_on TAB str))) ∉ known_layouts ->
  mmo_auth_fromstr str version = None.
Proof.
  intros H. apply mmo_auth_fromstr_select.
  destruct (select_layout _ _) eqn:E; [|reflexivity].
  exfalso. apply H, select_layout_known. rewrite E. eauto.
Qed.

(** C32. A line whose version and field count match a layout always yields a
    record: the registry loop ends within the length of the line. *)
Theorem mmo_auth_fromstr_matched str version :
  (version, Z.of_nat (length (split_on TAB str))) ∈ known_layouts ->
  is_Some (mmo_auth_fromstr str version).
Proof.
  intros H. apply select_layout_known in H as [l Hl].
  destruct (mmo_auth_fromstr str version) eqn:E; [eauto|].
  apply mmo_auth_fromstr_select in E. congruence.
Qed.

(** The registry loop of [mmo_auth_fromstr], started on any text with the
    fuel the parser gives it, ends by its own conditions (index bound,
    failed scan) and never runs out. *)
Theorem parse_regs_terminates regs :
  exists rs, parse_regs (S (String.length regs)) 0 regs [] = Some rs.
Proof.
  destruct (parse_regs _ _ _ _) as [rs|] eqn:E; [eauto|].
  exfalso. exact (parse_regs_total _ _ _ _ (Nat.lt_succ_diag_r _) E).
Qed.

(** ** Witnesses *)

(** A record as the login server stores it, with one registry entry whose
    key is empty (dropped by the printer). *)
Definition codec_sample : mmo_account :=
  mk_account 2000001 "user1" "pass1" "M" "u1@x.com" 0 0 0 0 3 "2024-01-01" "1.2.3.4"
    [mk_reg "kk" "vv"; mk_reg "" "lost"; mk_reg "#bank" "1200"].

Lemma mmo_auth_fromstr_tostr_witness :
  account_line_ok codec_sample = true /\
  mmo_auth_fromstr (mmo_auth_tostr codec_sample +:+ ⌜LF⌝) 20080409 = Some (reread codec_sample).
Proof. split; [vm_compute; reflexivity | apply mmo_auth_fromstr_tostr; vm_compute; reflexivity]. Defined.

(** A line of two fields, such as the auto-increment marker. *)
Definition two_field_line : string := "2000002" +:+ String TAB ("%newid%" +:+ ⌜LF⌝).

Lemma mmo_auth_fromstr_unmatched_witness :
  ((20080409, Z.of_nat (length (split_on TAB two_field_line))) ∉ known_layouts) /\
  mmo_auth_fromstr two_field_line 20080409 = None.
Proof.
  assert (H : (20080409, Z.of_nat (length (split_on TAB two_field_line))) ∉ known_layouts)
    by (apply (bool_decide_unpack _); vm_compute; exact I).
  split; [exact H | apply mmo_auth_fromstr_unmatched; exact H].
Defined.

Lemma mmo_auth_fromstr_matched_witness :
  ((20080409, Z.of_nat (length (split_on TAB (mmo_auth_tostr codec_sample +:+ ⌜LF⌝)))) ∈ known_layouts) /\
  is_Some (mmo_auth_fromstr (mmo_auth_tostr codec_sample +:+ ⌜LF⌝) 20080409).
Proof.
  assert (H : (20080409, Z.of_nat (length (split_on TAB (mmo_auth_tostr codec_sample +:+ ⌜LF⌝))))
              ∈ known_layouts) by (apply (bool_decide_unpack _); vm_compute; exact I).
  split; [exact H | apply mmo_auth_fromstr_matched; exact H].
Defined.
