(* ===== verification/AccountTxt.v ===== *)
(** * The flat-file account backend [AccountDB_TXT] of [account_txt.c]

    State: the [AccountDB_TXT] record (lines 19-27) and the accounts file,
    which the operations read ([init]) and rewrite ([mmo_auth_sync]).  Every
    operation is a function from the state (and its inputs) to its C
    result and the next state; [lock_ok] is the outcome of [lock_fopen],
    the only I/O call that can fail after [init].  [txt_step] collects the
    state-changing operations as a step relation; the reachable states
    are those of [rtc txt_step] from a state [init] produced. *)

From S2P Require Import Prelude CLib Account AccountCodec.

Definition AUTHS_BEFORE_SAVE : Z := 10.
Definition AUTH_SAVING_INTERVAL : Z := 60000.
Definition INVALID_TIMER : Z := -1.

(** [struct AccountDB_TXT] without its vtable. *)
Record AccountDB_TXT := mk_db {
  accounts : gmap Z mmo_account;
  next_account_id : Z;
  auths_before_save : Z;
  save_timer : Z
}.

(** The backend and the accounts file it owns ([None]: no file). *)
Record txt_state := mk_state {
  st_db : AccountDB_TXT;
  st_file : option string
}.

Definition set_accounts (d : AccountDB_TXT) (m : gmap Z mmo_account) : AccountDB_TXT :=
  mk_db m (next_account_id d) (auths_before_save d) (save_timer d).
Definition set_next (d : AccountDB_TXT) (n : Z) : AccountDB_TXT :=
  mk_db (accounts d) n (auths_before_save d) (save_timer d).
Definition set_counter (d : AccountDB_TXT) (c : Z) : AccountDB_TXT :=
  mk_db (accounts d) (next_account_id d) c (save_timer d).
Definition set_timer (d : AccountDB_TXT) (t : Z) : AccountDB_TXT :=
  mk_db (accounts d) (next_account_id d) (auths_before_save d) t.

(** ** [mmo_auth_sync]: the full dump (lines 434-478) *)

(** The comment block of lines 449-460. *)
Definition sync_comments : list string := [
  "// Accounts file: here are saved all information about the accounts.";
  "// Structure: ID, account name, password, last login time, sex, # of logins, state, email, error message for state 7, validity time, last (accepted) login ip, memo field, ban timestamp, repeated(register text, register value)";
  "// Some explanations:";
  "//   account name    : between 4 to 23 char for a normal account (standard client can't send less than 4 char).";
  "//   account password: between 4 to 23 char";
  "//   sex             : M or F for normal accounts, S for server accounts";
  "//   state           : 0: account is ok, 1 to 256: error code of packet 0x006a + 1";
  "//   email           : between 3 to 39 char (a@a.com is like no email)";
  "//   error message   : text for the state 7: 'Your are Prohibited to login until <text>'. Max 19 char";
  "//   valitidy time   : 0: unlimited account, <other value>: date calculated by addition of 1/1/1970 + value (number of seconds since the 1/1/1970)";
  "//   memo field      : max 254 char";
  "//   ban time        : 0: no ban, <other value>: banned until the date: date calculated by addition of 1/1/1970 + value (number of seconds since the 1/1/1970)"].

Definition SAVEFILE_VERSION : Z := 20080409.

(** The lines the dump writes, each without its newline: the version, the
    comments, one line per record in the iteration order of the map, and
    the auto-increment marker. *)
Definition dump_lines (d : AccountDB_TXT) : list string :=
  [printf_d SAVEFILE_VERSION] ++ sync_comments ++
  map (fun a => c_str (mmo_auth_tostr a)) (map snd (map_to_list (accounts d))) ++
  [printf_d (next_account_id d) +:+ String TAB "%newid%"].

Definition mmo_auth_dump (d : AccountDB_TXT) : string := lines_text (dump_lines d).

(** [mmo_auth_sync(db)]: when [lock_fopen] fails nothing happens; else the
    file is replaced by the dump (published by [lock_fclose]) and the
    counter is reset. *)
Definition mmo_auth_sync (lock_ok : bool) (s : txt_state) : txt_state :=
  if lock_ok then
    mk_state (set_counter (st_db s) AUTHS_BEFORE_SAVE) (Some (mmo_auth_dump (st_db s)))
  else s.

(** [mmo_auth_sync_timer] (lines 480-488). *)
Definition mmo_auth_sync_timer (lock_ok : bool) (s : txt_state) : txt_state :=
  if auths_before_save (st_db s) <? AUTHS_BEFORE_SAVE then mmo_auth_sync lock_ok s else s.

(** ** [account_db_txt_init] (lines 64-160) *)

(** Line 95: a comment line. *)
Definition is_comment (line : string) : bool :=
  ascii_eqb line.[0] "/" && ascii_eqb line.[1] "/".

(** Line 98: [sscanf(line, "%d%n", &v, &n) == 1 && line[n] == '\n'];
    [v] is an [unsigned int].  Also returns [n], which line 104 reads. *)
Definition version_line (line : string) : option Z * option nat :=
  match sscanf_d_n line with
  | Some (v, n) => (if ascii_eqb line.[n] LF then Some (uint32 v) else None, Some n)
  | None => (None, None)
  end.

(** Line 104: [sscanf(line, "%d\t%%newid%%%n", &account_id, &n) == 1 &&
    line[n] == '\n'].  When the literal part fails, [n] keeps the value
    line 98 stored, which is the end of the same integer. *)
Definition newid_line (line : string) (n98 : option nat) : option Z :=
  match sscanf_d_n line, n98 with
  | Some (id, p), Some n_prev =>
      let n := match match_literal "%newid%" (skip_space (str_drop p line)) with
               | Some rest => (String.length line - String.length rest)%nat
               | None => n_prev
               end in
      if ascii_eqb line.[n] LF then Some id else None
  | _, _ => None
  end.

(** The whole condition of line 104, with [account_id > next_account_id]. *)
Definition newid_applies (line : string) (n98 : option nat) (d : AccountDB_TXT) : option Z :=
  match newid_line line n98 with
  | Some id => if next_account_id d <? id then Some id else None
  | None => None
  end.

(** Lines 110-149: the line parsed as a record under [version]; a record
    whose id is already loaded is dropped (first occurrence wins); the
    counter is raised to [id + 1] when it is below [id]. *)
Definition load_record (version : Z) (d : AccountDB_TXT) (line : string) : AccountDB_TXT :=
  match mmo_auth_fromstr line version with
  | None => d
  | Some a =>
      match accounts d !! account_id a with
      | Some _ => d
      | None =>
          let d1 := set_accounts d (<[account_id a := a]> (accounts d)) in
          if next_account_id d <? account_id a then set_next d1 (int32 (account_id a + 1)) else d1
      end
  end.

(** One iteration of the loop of lines 89-150 on the current version and
    database. *)
Definition init_line (acc : Z * AccountDB_TXT) (line : string) : Z * AccountDB_TXT :=
  let '(version, d) := acc in
  if is_comment line then (version, d) else
  match version_line line with
  | (Some v, _) => (v, d)
  | (None, n) =>
      match newid_applies line n d with
      | Some id => (version, set_next d id)
      | None => (version, load_record version d line)
      end
  end.

(** The database before the file is read (lines 73-76). *)
Definition db_initial : AccountDB_TXT := mk_db ∅ START_ACCOUNT_NUM AUTHS_BEFORE_SAVE INVALID_TIMER.

(** The database loaded from the text of the file. *)
Definition load_file (text : string) : AccountDB_TXT :=
  snd (fold_left init_line (fgets_lines text) (0, db_initial)).

(** [account_db_txt_init]: fails when the file is missing; else loads it
    and registers the periodic timer, whose id the scheduler returns. *)
Definition account_db_txt_init (file : option string) (timer_id : Z) : bool * txt_state :=
  match file with
  | None => (false, mk_state db_initial file)
  | Some text => (true, mk_state (set_timer (load_file text) timer_id) file)
  end.

(** ** The operations of the vtable *)

(** [account_db_txt_free]: stops the timer, flushes and releases the
    database; what remains is the file. *)
Definition account_db_txt_free (lock_ok : bool) (s : txt_state) : bool * option string :=
  (true, st_file (mmo_auth_sync lock_ok s)).

(** [account_db_txt_create]: the record is stored under [next_account_id],
    whatever its own [account_id] field holds; the counter is advanced
    and the database flushed. *)
Definition account_db_txt_create (lock_ok : bool) (acc : mmo_account) (s : txt_state)
    : bool * txt_state :=
  let d := st_db s in
  let id := next_account_id d in
  match accounts d !! id with
  | Some _ => (false, s)
  | None =>
      let d1 := set_next (set_accounts d (<[id := acc]> (accounts d))) (int32 (id + 1)) in
      (true, mmo_auth_sync lock_ok (mk_state d1 (st_file s)))
  end.

(** [account_db_txt_remove]. *)
Definition account_db_txt_remove (lock_ok : bool) (account_id : Z) (s : txt_state)
    : bool * txt_state :=
  let d := st_db s in
  match accounts d !! account_id with
  | None => (false, s)
  | Some _ =>
      (true, mmo_auth_sync lock_ok (mk_state (set_accounts d (delete account_id (accounts d))) (st_file s)))
  end.

(** [account_db_txt_save]: overwrites the record, decrements the counter
    and flushes when it reaches zero. *)
Definition account_db_txt_save (lock_ok : bool) (acc : mmo_account) (s : txt_state)
    : bool * txt_state :=
  let d := st_db s in
  match accounts d !! account_id acc with
  | None => (false, s)
  | Some _ =>
      let c := int32 (auths_before_save d - 1) in
      let s1 := mk_state (set_counter (set_accounts d (<[account_id acc := acc]> (accounts d))) c)
                         (st_file s) in
      (true, if c =? 0 then mmo_auth_sync lock_ok s1 else s1)
  end.

(** [account_db_txt_load_num]: the caller's buffer is zeroed when the id
    is unknown. *)
Definition account_db_txt_load_num (d : AccountDB_TXT) (account_id : Z) : bool * mmo_account :=
  match accounts d !! account_id with
  | Some a => (true, a)
  | None => (false, account_zero)
  end.

(** The scan of [account_db_txt_load_str] over the iteration order. *)
Fixpoint find_userid (uid : string) (l : list mmo_account) : option mmo_account :=
  match l with
  | [] => None
  | a :: l => if String.eqb uid (userid a) then Some a else find_userid uid l
  end.

(** [account_db_txt_load_str]: the first record in iteration order whose
    name equals [userid] (case-sensitive [strcmp]). *)
Definition account_db_txt_load_str (d : AccountDB_TXT) (uid : string) : bool * mmo_account :=
  match find_userid uid (map snd (map_to_list (accounts d))) with
  | Some a => (true, a)
  | None => (false, account_zero)
  end.

(** ** The state machine *)

(** One state-changing call, with the outcome of its [lock_fopen]. *)
Inductive txt_step (lock_ok : bool) : txt_state -> txt_state -> Prop :=
| step_create acc s b s' :
    account_db_txt_create lock_ok acc s = (b, s') -> txt_step lock_ok s s'
| step_remove id s b s' :
    account_db_txt_remove lock_ok id s = (b, s') -> txt_step lock_ok s s'
| step_save acc s b s' :
    account_db_txt_save lock_ok acc s = (b, s') -> txt_step lock_ok s s'
| step_timer s :
    txt_step lock_ok s (mmo_auth_sync_timer lock_ok s).

(** ** Lemmas on the flush *)

Lemma sync_accounts b s : accounts (st_db (mmo_auth_sync b s)) = accounts (st_db s).
Proof. destruct b; reflexivity. Qed.

Lemma sync_next b s : next_account_id (st_db (mmo_auth_sync b s)) = next_account_id (st_db s).
Proof. destruct b; reflexivity. Qed.

Lemma sync_ok_file s : st_file (mmo_auth_sync true s) = Some (mmo_auth_dump (st_db s)).
Proof. reflexivity. Qed.

Lemma sync_ok_counter s : auths_before_save (st_db (mmo_auth_sync true s)) = AUTHS_BEFORE_SAVE.
Proof. reflexivity. Qed.

Lemma sync_failed s : mmo_auth_sync false s = s.
Proof. reflexivity. Qed.

(** The dump reads only the records and the counter of ids. *)
Lemma dump_counter d c : mmo_auth_dump (set_counter d c) = mmo_auth_dump d.
Proof. reflexivity. Qed.

#[export] Hint Rewrite sync_accounts sync_next sync_ok_file sync_ok_counter sync_failed
  dump_counter : eathena_rw.

(** [save] on a known id: the new database before any flush. *)
Definition saved_db (acc : mmo_account) (d : AccountDB_TXT) : AccountDB_TXT :=
  set_counter (set_accounts d (<[account_id acc := acc]> (accounts d)))
    (int32 (auths_before_save d - 1)).

Lemma save_known b acc s a :
  accounts (st_db s) !! account_id acc = Some a ->
  account_db_txt_save b acc s =
    (true, let s1 := mk_state (saved_db acc (st_db s)) (st_file s) in
           if int32 (auths_before_save (st_db s) - 1) =? 0 then mmo_auth_sync b s1 else s1).
Proof. intros H. unfold account_db_txt_save. rewrite H. reflexivity. Qed.

(** ** Operations: load after save, create, remove *)

(** C2. After a successful [save], [load_num] of the record's id returns the
    record that was saved, whether or not the save flushed. *)
Theorem save_then_load_num b acc s s' :
  account_db_txt_save b acc s = (true, s') ->
  account_db_txt_load_num (st_db s') (account_id acc) = (true, acc).
Proof.
  unfold account_db_txt_save. destruct (accounts (st_db s) !! account_id acc); [|discriminate].
  intros [= <-]. unfold account_db_txt_load_num.
  destruct (_ =? 0); autorewrite with eathena_rw; simpl; by rewrite lookup_insert_eq.
Qed.

(** [save] of a record whose id is not loaded fails and changes nothing. *)
Theorem save_unknown b acc s :
  accounts (st_db s) !! account_id acc = None ->
  account_db_txt_save b acc s = (false, s).
Proof. intros H. unfold account_db_txt_save. by rewrite H. Qed.

Lemma create_free b acc s :
  accounts (st_db s) !! next_account_id (st_db s) = None ->
  account_db_txt_create b acc s =
    (true, mmo_auth_sync b (mk_state (set_next (set_accounts (st_db s)
              (<[next_account_id (st_db s) := acc]> (accounts (st_db s))))
              (int32 (next_account_id (st_db s) + 1))) (st_file s))).
Proof. intros H. unfold account_db_txt_create. by rewrite H. Qed.

(** C3. [create] stores the record under the current auto-increment value when
    it is free, advances the value (with [int]'s wrap-around) and flushes;
    [load_num] of that id returns the record. *)
Theorem create_then_load_num b acc s :
  accounts (st_db s) !! next_account_id (st_db s) = None ->
  exists s', account_db_txt_create b acc s = (true, s') /\
    account_db_txt_load_num (st_db s') (next_account_id (st_db s)) = (true, acc) /\
    next_account_id (st_db s') = int32 (next_account_id (st_db s) + 1).
Proof.
  intros H. unfold account_db_txt_create. rewrite H. eexists. split; [reflexivity|].
  unfold account_db_txt_load_num. autorewrite with eathena_rw. simpl.
  by rewrite lookup_insert_eq.
Qed.

(** [create] fails, changing nothing, when the auto-increment value is an
    id already loaded. *)
Theorem create_occupied b acc s a :
  accounts (st_db s) !! next_account_id (st_db s) = Some a ->
  account_db_txt_create b acc s = (false, s).
Proof. intros H. unfold account_db_txt_create. by rewrite H. Qed.

(** C4. After a successful [remove], [load_num] of the id reports not-found
    with a zeroed record; a [remove] of an unknown id fails and changes
    nothing. *)
Theorem remove_then_load_num b id s :
  match account_db_txt_remove b id s with
  | (true, s') => account_db_txt_load_num (st_db s') id = (false, account_zero)
  | (false, s') => s' = s /\ accounts (st_db s) !! id = None
  end.
Proof.
  unfold account_db_txt_remove. destruct (accounts (st_db s) !! id) eqn:E.
  - unfold account_db_txt_load_num. autorewrite with eathena_rw. simpl.
    by rewrite lookup_delete_eq.
  - auto.
Qed.

(** ** The dirty counter of [save] and the timer *)

Lemma int32_pred_small c : 1 <= c <= AUTHS_BEFORE_SAVE -> int32 (c - 1) = c - 1.
Proof. unfold AUTHS_BEFORE_SAVE. intros. apply int32_id. unfold in_int, INT_MIN, INT_MAX. lia. Qed.

(** Below the threshold, a [save] of a loaded id only decrements the
    counter: the file is not written. *)
Lemma save_defer_step b acc s a :
  accounts (st_db s) !! account_id acc = Some a ->
  2 <= auths_before_save (st_db s) <= AUTHS_BEFORE_SAVE ->
  exists s', account_db_txt_save b acc s = (true, s') /\
    st_file s' = st_file s /\
    auths_before_save (st_db s') = auths_before_save (st_db s) - 1 /\
    accounts (st_db s') = <[account_id acc := acc]> (accounts (st_db s)).
Proof.
  intros Ha Hc. rewrite (save_known b acc s a Ha). eexists. split; [reflexivity|].
  rewrite int32_pred_small by lia. destruct (Z.eqb_spec (auths_before_save (st_db s) - 1) 0); [lia|].
  simpl. rewrite int32_pred_small by lia. auto.
Qed.

(** The [save] that brings the counter to zero flushes the database with
    the saved record and resets the counter. *)
Lemma save_threshold_step acc s a :
  accounts (st_db s) !! account_id acc = Some a ->
  auths_before_save (st_db s) = 1 ->
  exists s', account_db_txt_save true acc s = (true, s') /\
    st_file s' = Some (mmo_auth_dump (st_db s')) /\
    auths_before_save (st_db s') = AUTHS_BEFORE_SAVE /\
    accounts (st_db s') = <[account_id acc := acc]> (accounts (st_db s)).
Proof.
  intros Ha Hc. rewrite (save_known true acc s a Ha), Hc. eexists. split; [reflexivity|].
  simpl. auto.
Qed.

(** The saves of [accs], one after the other. *)
Fixpoint run_saves (b : bool) (accs : list mmo_account) (s : txt_state) : txt_state :=
  match accs with
  | [] => s
  | a :: accs => run_saves b accs (snd (account_db_txt_save b a s))
  end.

Lemma run_saves_app b l1 l2 s : run_saves b (l1 ++ l2) s = run_saves b l2 (run_saves b l1 s).
Proof. revert s. induction l1; simpl; auto. Qed.

(** The ids of [accs] are loaded. *)
Definition all_loaded (s : txt_state) (accs : list mmo_account) : Prop :=
  Forall (fun a => is_Some (accounts (st_db s) !! account_id a)) accs.

Lemma save_keeps_loaded b acc s k :
  is_Some (accounts (st_db s) !! k) ->
  is_Some (accounts (st_db (snd (account_db_txt_save b acc s))) !! k).
Proof.
  intros Hk. unfold account_db_txt_save.
  destruct (accounts (st_db s) !! account_id acc) eqn:E; [|exact Hk].
  simpl. destruct (_ =? 0); autorewrite with eathena_rw; simpl;
    rewrite lookup_insert; case_decide; eauto.
Qed.

Lemma run_saves_defer b accs s :
  all_loaded s accs ->
  Z.of_nat (length accs) < auths_before_save (st_db s) -> auths_before_save (st_db s) <= AUTHS_BEFORE_SAVE ->
  st_file (run_saves b accs s) = st_file s /\
  auths_before_save (st_db (run_saves b accs s)) = auths_before_save (st_db s) - Z.of_nat (length accs).
Proof.
  revert s. induction accs as [|acc accs IH]; intros s Hall Hlen Hc; [simpl; split; [done|lia]|].
  inversion Hall as [|? ? [a Ha] Hall']; subst. simpl length in Hlen.
  destruct (save_defer_step b acc s a Ha) as (s1 & Hs1 & Hf & Hcnt & _); [lia|].
  simpl. rewrite Hs1. simpl.
  assert (Hall1 : all_loaded s1 accs).
  { eapply Forall_impl; [exact Hall'|]. intros x Hx.
    pose proof (save_keeps_loaded b acc s _ Hx) as Hk. rewrite Hs1 in Hk. exact Hk. }
  destruct (IH s1 Hall1) as [IHf IHc]; [lia|lia|]. rewrite IHf, IHc, Hf, Hcnt. split; [done|lia].
Qed.

Lemma run_saves_keeps_loaded b accs s k :
  is_Some (accounts (st_db s) !! k) -> is_Some (accounts (st_db (run_saves b accs s)) !! k).
Proof. revert s. induction accs as [|a accs IH]; intros s Hk; [exact Hk|]. apply IH, save_keeps_loaded, Hk. Qed.

Lemma run_saves_all_loaded b pre accs s :
  all_loaded s accs -> all_loaded (run_saves b pre s) accs.
Proof. intros H. eapply Forall_impl; [exact H|]. intros x. apply run_saves_keeps_loaded. Qed.

(** C19. From a clean state, ten saves of loaded records in a row write the
    file exactly once, at the tenth: after each of the first nine the file
    is unchanged, after the tenth it is the dump of the database and the
    counter is reset. *)
Theorem ten_saves_flush_once accs s :
  all_loaded s accs -> length accs = 10%nat ->
  auths_before_save (st_db s) = AUTHS_BEFORE_SAVE ->
  (forall k, (k < 10)%nat -> st_file (run_saves true (take k accs) s) = st_file s) /\
  st_file (run_saves true accs s) = Some (mmo_auth_dump (st_db (run_saves true accs s))) /\
  auths_before_save (st_db (run_saves true accs s)) = AUTHS_BEFORE_SAVE.
Proof.
  intros Hall Hlen Hc. unfold AUTHS_BEFORE_SAVE in Hc. split.
  - intros k Hk. apply run_saves_defer.
    + apply Forall_take, Hall.
    + rewrite length_take. lia.
    + unfold AUTHS_BEFORE_SAVE. lia.
  - rewrite <- (take_drop 9 accs), run_saves_app.
    assert (H9 : all_loaded s (take 9 accs)) by (apply Forall_take, Hall).
    destruct (run_saves_defer true (take 9 accs) s H9) as [_ Hc9];
      [rewrite length_take; lia | unfold AUTHS_BEFORE_SAVE; lia |].
    rewrite length_take, Hc in Hc9.
    assert (Hd : length (drop 9 accs) = 1%nat) by (rewrite length_drop; lia).
    assert (Hl : all_loaded (run_saves true (take 9 accs) s) (drop 9 accs))
      by (apply run_saves_all_loaded, Forall_drop, Hall).
    destruct (drop 9 accs) as [|z [|]]; simpl in Hd; try lia.
    inversion Hl as [|? ? [a Ha] _]; subst.
    destruct (save_threshold_step z _ a Ha) as (s' & Hs' & Hf & Hc' & _); [lia|].
    simpl. rewrite Hs'. simpl. auto.
Qed.

(** With no unflushed save, the periodic callback writes nothing. *)
Theorem timer_clean_noop b s :
  auths_before_save (st_db s) = AUTHS_BEFORE_SAVE -> mmo_auth_sync_timer b s = s.
Proof. intros H. unfold mmo_auth_sync_timer. rewrite H. reflexivity. Qed.

(** With an unflushed save, the periodic callback flushes. *)
Theorem timer_dirty_flushes s :
  auths_before_save (st_db s) < AUTHS_BEFORE_SAVE ->
  mmo_auth_sync_timer true s = mmo_auth_sync true s.
Proof. intros H. unfold mmo_auth_sync_timer. destruct (Z.ltb_spec (auths_before_save (st_db s)) AUTHS_BEFORE_SAVE); [reflexivity|lia]. Qed.

(** ** Reachable states when every flush succeeds *)

(** The state is the loaded one, untouched, or its counter is in
    [1..AUTHS_BEFORE_SAVE] and a clean counter means the file is the
    dump of the database. *)
Definition txt_inv (s0 s : txt_state) : Prop :=
  s = s0 \/
  (1 <= auths_before_save (st_db s) <= AUTHS_BEFORE_SAVE /\
   (auths_before_save (st_db s) = AUTHS_BEFORE_SAVE ->
    st_file s = Some (mmo_auth_dump (st_db s)))).

Lemma txt_inv_flushed s0 s : txt_inv s0 (mmo_auth_sync true s).
Proof. right. autorewrite with eathena_rw. unfold AUTHS_BEFORE_SAVE. split; [lia|]. intros _. reflexivity. Qed.

(** A state just flushed satisfies the invariant (after [mmo_auth_sync]
    has been unfolded by computation). *)
Ltac flushed_inv := right; cbn; unfold AUTHS_BEFORE_SAVE; split; [lia | intros _; reflexivity].

Lemma txt_inv_step s0 s s' :
  1 <= auths_before_save (st_db s0) <= AUTHS_BEFORE_SAVE ->
  txt_inv s0 s -> txt_step true s s' -> txt_inv s0 s'.
Proof.
  intros H0 Hinv Hstep.
  assert (Hc : 1 <= auths_before_save (st_db s) <= AUTHS_BEFORE_SAVE)
    by (destruct Hinv as [->|[Hc _]]; assumption).
  destruct Hstep as [acc s b s' E|id s b s' E|acc s b s' E|s].
  - unfold account_db_txt_create in E. destruct (_ !! _); injection E as <- <-;
      [exact Hinv | flushed_inv].
  - unfold account_db_txt_remove in E. destruct (_ !! _); injection E as <- <-;
      [flushed_inv | exact Hinv].
  - unfold account_db_txt_save in E. destruct (_ !! _); injection E as <- <-; [|exact Hinv].
    rewrite int32_pred_small by exact Hc.
    destruct (Z.eqb_spec (auths_before_save (st_db s) - 1) 0); [flushed_inv|].
    right. simpl. unfold AUTHS_BEFORE_SAVE in *. split; [lia|]. lia.
  - unfold mmo_auth_sync_timer.
    destruct (Z.ltb_spec (auths_before_save (st_db s)) AUTHS_BEFORE_SAVE);
      [apply txt_inv_flushed | exact Hinv].
Qed.

Lemma txt_inv_rtc s0 x s :
  1 <= auths_before_save (st_db s0) <= AUTHS_BEFORE_SAVE ->
  txt_inv s0 x -> rtc (txt_step true) x s -> txt_inv s0 s.
Proof.
  intros H0 Hx Hr. induction Hr as [x|x y z Hxy _ IH]; [exact Hx|].
  apply IH. eapply txt_inv_step; eauto.
Qed.

(** C20. Invariant of every state reachable from a loaded state when every
    [lock_fopen] succeeds: the counter stays in [1..AUTHS_BEFORE_SAVE],
    and once the state has changed, a clean counter means the file holds
    the dump of the database. *)
Theorem reliable_txt_invariant s0 s :
  1 <= auths_before_save (st_db s0) <= AUTHS_BEFORE_SAVE ->
  rtc (txt_step true) s0 s -> txt_inv s0 s.
Proof.
  intros H0 Hr. apply (txt_inv_rtc s0 s0 s H0); [left; reflexivity | exact Hr].
Qed.

(** ** Failed flushes *)

(** C27. A [create] whose flush fails keeps the new record in memory only, but
    leaves the counter clean: the periodic callback never writes it, with
    or without working I/O. *)
Theorem create_failed_flush_not_retried acc s :
  accounts (st_db s) !! next_account_id (st_db s) = None ->
  auths_before_save (st_db s) = AUTHS_BEFORE_SAVE ->
  exists s1, account_db_txt_create false acc s = (true, s1) /\
    st_file s1 = st_file s /\
    account_db_txt_load_num (st_db s1) (next_account_id (st_db s)) = (true, acc) /\
    (forall b, mmo_auth_sync_timer b s1 = s1).
Proof.
  intros Hfree Hc. unfold account_db_txt_create. rewrite Hfree. eexists. split; [reflexivity|].
  split; [reflexivity|]. split.
  - unfold account_db_txt_load_num. simpl. by rewrite lookup_insert_eq.
  - intros b. unfold mmo_auth_sync_timer. simpl. rewrite Hc. reflexivity.
Qed.

Lemma save_nonpositive b acc s a :
  accounts (st_db s) !! account_id acc = Some a ->
  INT_MIN < auths_before_save (st_db s) <= 0 ->
  exists s', account_db_txt_save b acc s = (true, s') /\ st_file s' = st_file s /\
    auths_before_save (st_db s') = auths_before_save (st_db s) - 1.
Proof.
  intros Ha Hc. rewrite (save_known b acc s a Ha).
  rewrite int32_id by (unfold in_int, INT_MIN, INT_MAX in *; lia).
  destruct (Z.eqb_spec (auths_before_save (st_db s) - 1) 0); [lia|].
  eexists. split; [reflexivity|]. simpl. rewrite int32_id by (unfold in_int, INT_MIN, INT_MAX in *; lia).
  auto.
Qed.

Lemma run_saves_nonpositive b accs s :
  all_loaded s accs -> auths_before_save (st_db s) <= 0 ->
  INT_MIN < auths_before_save (st_db s) - Z.of_nat (length accs) ->
  st_file (run_saves b accs s) = st_file s.
Proof.
  revert s. induction accs as [|acc accs IH]; intros s Hall Hc Hmin; [reflexivity|].
  inversion Hall as [|? ? [a Ha] Hall']; subst. simpl length in Hmin.
  destruct (save_nonpositive b acc s a Ha) as (s1 & Hs1 & Hf & Hcnt); [lia|].
  simpl. rewrite Hs1. simpl. rewrite <- Hf. apply IH; [|lia|lia].
  eapply Forall_impl; [exact Hall'|]. intros x Hx.
  pose proof (save_keeps_loaded b acc s _ Hx) as Hk. rewrite Hs1 in Hk. exact Hk.
Qed.

(** C28. When the flush of the threshold [save] fails, the counter reaches zero
    and then goes negative: no later [save] flushes again, even when the
    I/O works (up to the [int] wrap-around, 2^31 saves later); only the
    periodic callback does. *)
Theorem failed_threshold_flush_disables_saves acc accs s a :
  accounts (st_db s) !! account_id acc = Some a ->
  auths_before_save (st_db s) = 1 ->
  all_loaded s accs -> Z.of_nat (length accs) < 2 ^ 31 - 1 ->
  let s1 := snd (account_db_txt_save false acc s) in
  auths_before_save (st_db s1) = 0 /\ st_file (run_saves true accs s1) = st_file s.
Proof.
  intros Ha Hc Hall Hlen. cbv zeta. unfold account_db_txt_save. rewrite Ha, Hc. simpl.
  change (int32 (1 - 1)) with 0. simpl.
  split; [reflexivity|]. rewrite run_saves_nonpositive; simpl; [reflexivity| |lia|unfold INT_MIN; lia].
  eapply Forall_impl; [exact Hall|]. intros x Hx.
  pose proof (save_keeps_loaded false acc s _ Hx) as Hk.
  unfold account_db_txt_save in Hk. rewrite Ha, Hc in Hk. exact Hk.
Qed.

(** ** Loading: the auto-increment value *)

(** C31. A loaded record whose id equals the current auto-increment value does
    not raise it (line 148 tests [<], not [<=]): the value then names an
    occupied id and the next [create] fails. *)
Theorem load_record_at_next_blocks_create version d line a b acc f :
  mmo_auth_fromstr line version = Some a ->
  accounts d !! account_id a = None ->
  account_id a = next_account_id d ->
  account_db_txt_create b acc (mk_state (load_record version d line) f) =
    (false, mk_state (load_record version d line) f).
Proof.
  intros Hparse Hfree Hid. unfold load_record. rewrite Hparse, Hfree.
  rewrite Hid, Z.ltb_irrefl. apply (create_occupied b acc _ a). simpl.
  rewrite <- Hid. by rewrite lookup_insert_eq.
Qed.

(** ** [load_str] *)

Lemma find_userid_spec uid l :
  match find_userid uid l with
  | Some a => userid a = uid /\ a ∈ l
  | None => forall a, a ∈ l -> userid a <> uid
  end.
Proof.
  induction l as [|x l IH]; simpl; [intros a Ha; inversion Ha|].
  destruct (String.eqb_spec uid (userid x)) as [->|Hne].
  - split; [reflexivity | left].
  - destruct (find_userid uid l); [destruct IH as [? ?]; split; [done | by right]|].
    intros a [->|Ha]%elem_of_cons; [congruence | exact (IH a Ha)].
Qed.

(** [load_str] finds a loaded record with that name when there is one, and
    reports not-found with a zeroed record only when there is none.  It
    never reports two records with the same name as a distinct failure. *)
Lemma load_str_cases d uid :
  match account_db_txt_load_str d uid with
  | (true, a) => userid a = uid /\ exists k, accounts d !! k = Some a
  | (false, a) => a = account_zero /\ forall k a', accounts d !! k = Some a' -> userid a' <> uid
  end.
Proof.
  unfold account_db_txt_load_str.
  pose proof (find_userid_spec uid (map snd (map_to_list (accounts d)))) as H.
  destruct (find_userid _ _) as [a|].
  - destruct H as [Hu Ha]. split; [exact Hu|].
    apply list_elem_of_In, in_map_iff in Ha as ([k a'] & Heq & Hin). simpl in Heq. subst a'.
    exists k. apply elem_of_map_to_list, list_elem_of_In, Hin.
  - split; [reflexivity|]. intros k a' Hk. apply H.
    apply list_elem_of_In, in_map_iff. exists (k, a'). split; [reflexivity|].
    apply list_elem_of_In, elem_of_map_to_list, Hk.
Qed.

(** ** The width of the auto-increment value *)

(** [next_account_id] is an [int] and nothing bounds it (the
    [END_ACCOUNT_NUM] check of lines 115-119 is commented out): a [create]
    at [INT_MAX] overflows it.  In C that [++] is undefined behaviour; the
    model takes the two's-complement wrap gcc produces, to [INT_MIN]. *)
Theorem create_next_wraps b acc s :
  next_account_id (st_db s) = INT_MAX ->
  accounts (st_db s) !! INT_MAX = None ->
  exists s', account_db_txt_create b acc s = (true, s') /\ next_account_id (st_db s') = INT_MIN.
Proof.
  intros Hn Hfree. rewrite <- Hn in Hfree. rewrite (create_free b acc s Hfree).
  eexists. split; [reflexivity|]. autorewrite with eathena_rw. simpl. rewrite Hn. reflexivity.
Qed.

(** ** Witnesses *)

Definition sample_account : mmo_account :=
  mk_account 2000001 "user1" "pass1" "M" "u1@x.com" 0 0 0 0 3 "2024-01-01" "1.2.3.4"
    [mk_reg "kk" "vv"].

Definition sample_renamed : mmo_account :=
  mk_account 2000001 "user1" "secret" "M" "u1@x.com" 0 0 0 0 4 "2024-02-01" "1.2.3.5"
    [mk_reg "kk" "ww"].

(** A loaded backend with one account and a clean counter. *)
Definition sample_state : txt_state :=
  mk_state (mk_db {[2000001 := sample_account]} 2000002 AUTHS_BEFORE_SAVE 1) (Some "").

Lemma save_then_load_num_witness :
  account_db_txt_save true sample_renamed sample_state =
    (true, snd (account_db_txt_save true sample_renamed sample_state)) /\
  account_db_txt_load_num (st_db (snd (account_db_txt_save true sample_renamed sample_state)))
    (account_id sample_renamed) = (true, sample_renamed).
Proof.
  split; [reflexivity|].
  apply (save_then_load_num true sample_renamed sample_state); reflexivity.
Defined.

Lemma save_unknown_witness :
  accounts (st_db sample_state) !! account_id account_zero = None /\
  account_db_txt_save true account_zero sample_state = (false, sample_state).
Proof. split; [reflexivity | apply save_unknown; reflexivity]. Defined.

Lemma create_then_load_num_witness :
  accounts (st_db sample_state) !! next_account_id (st_db sample_state) = None /\
  exists s', account_db_txt_create true sample_account sample_state = (true, s') /\
    account_db_txt_load_num (st_db s') (next_account_id (st_db sample_state)) = (true, sample_account) /\
    next_account_id (st_db s') = int32 (next_account_id (st_db sample_state) + 1).
Proof. split; [reflexivity | apply create_then_load_num; reflexivity]. Defined.

Lemma ten_saves_flush_once_witness :
  all_loaded sample_state (repeat sample_renamed 10) /\
  length (repeat sample_renamed 10) = 10%nat /\
  auths_before_save (st_db sample_state) = AUTHS_BEFORE_SAVE /\
  st_file (run_saves true (repeat sample_renamed 10) sample_state) =
    Some (mmo_auth_dump (st_db (run_saves true (repeat sample_renamed 10) sample_state))).
Proof.
  assert (H : all_loaded sample_state (repeat sample_renamed 10))
    by (repeat constructor; eexists; reflexivity).
  split; [exact H|]. split; [reflexivity|]. split; [reflexivity|].
  apply (ten_saves_flush_once (repeat sample_renamed 10) sample_state H); reflexivity.
Defined.

Lemma timer_clean_noop_witness :
  auths_before_save (st_db sample_state) = AUTHS_BEFORE_SAVE /\
  mmo_auth_sync_timer true sample_state = sample_state.
Proof. split; [reflexivity | apply timer_clean_noop; reflexivity]. Defined.

Lemma reliable_txt_invariant_witness :
  1 <= auths_before_save (st_db sample_state) <= AUTHS_BEFORE_SAVE /\
  rtc (txt_step true) sample_state (snd (account_db_txt_save true sample_renamed sample_state)) /\
  txt_inv sample_state (snd (account_db_txt_save true sample_renamed sample_state)).
Proof.
  assert (H1 : 1 <= auths_before_save (st_db sample_state) <= AUTHS_BEFORE_SAVE)
    by (vm_compute; split; discriminate).
  assert (H2 : rtc (txt_step true) sample_state (snd (account_db_txt_save true sample_renamed sample_state)))
    by (apply rtc_once; eapply (step_save true sample_renamed _ true); reflexivity).
  split; [exact H1|]. split; [exact H2|]. exact (reliable_txt_invariant _ _ H1 H2).
Defined.

Lemma create_failed_flush_not_retried_witness :
  accounts (st_db sample_state) !! next_account_id (st_db sample_state) = None /\
  auths_before_save (st_db sample_state) = AUTHS_BEFORE_SAVE /\
  exists s1, account_db_txt_create false sample_renamed sample_state = (true, s1) /\
    st_file s1 = st_file sample_state /\
    account_db_txt_load_num (st_db s1) (next_account_id (st_db sample_state)) = (true, sample_renamed) /\
    (forall b, mmo_auth_sync_timer b s1 = s1).
Proof.
  split; [reflexivity|]. split; [reflexivity|].
  apply create_failed_flush_not_retried; reflexivity.
Defined.

(** The same backend one save before the threshold. *)
Definition sample_state_1 : txt_state :=
  mk_state (set_counter (st_db sample_state) 1) (Some "").

Lemma failed_threshold_flush_disables_saves_witness :
  accounts (st_db sample_state_1) !! account_id sample_renamed = Some sample_account /\
  auths_before_save (st_db sample_state_1) = 1 /\
  all_loaded sample_state_1 (repeat sample_account 20) /\
  auths_before_save (st_db (snd (account_db_txt_save false sample_renamed sample_state_1))) = 0 /\
  st_file (run_saves true (repeat sample_account 20)
             (snd (account_db_txt_save false sample_renamed sample_state_1))) = st_file sample_state_1.
Proof.
  assert (H : all_loaded sample_state_1 (repeat sample_account 20))
    by (repeat constructor; eexists; reflexivity).
  split; [reflexivity|]. split; [reflexivity|]. split; [exact H|].
  apply (failed_threshold_flush_disables_saves sample_renamed _ sample_state_1 sample_account);
    [reflexivity | reflexivity | exact H | simpl; lia].
Defined.

(** A file line holding a record whose id is the initial auto-increment
    value [START_ACCOUNT_NUM]. *)
Definition line_at_start : string :=
  mmo_auth_tostr (mk_account START_ACCOUNT_NUM "first" "pw" "F" "" 0 0 0 0 0 "" "" []) +:+ ⌜LF⌝.

Lemma load_record_at_next_blocks_create_witness :
  (exists a, mmo_auth_fromstr line_at_start 20080409 = Some a /\
     accounts db_initial !! account_id a = None /\ account_id a = next_account_id db_initial) /\
  account_db_txt_create true sample_account (mk_state (load_record 20080409 db_initial line_at_start) None) =
    (false, mk_state (load_record 20080409 db_initial line_at_start) None).
Proof.
  assert (H : exists a, mmo_auth_fromstr line_at_start 20080409 = Some a /\
     accounts db_initial !! account_id a = None /\ account_id a = next_account_id db_initial)
    by (eexists; split; [vm_compute; reflexivity | split; reflexivity]).
  split; [exact H|]. destruct H as (a & H1 & H2 & H3).
  exact (load_record_at_next_blocks_create _ _ _ _ _ _ _ H1 H2 H3).
Defined.

(** A backend whose auto-increment value reached [INT_MAX]. *)
Definition state_at_int_max : txt_state :=
  mk_state (mk_db ∅ INT_MAX AUTHS_BEFORE_SAVE 1) (Some "").

Lemma create_next_wraps_witness :
  next_account_id (st_db state_at_int_max) = INT_MAX /\
  accounts (st_db state_at_int_max) !! INT_MAX = None /\
  exists s', account_db_txt_create true sample_account state_at_int_max = (true, s') /\
    next_account_id (st_db s') = INT_MIN.
Proof. split; [reflexivity|]. split; [reflexivity|]. apply create_next_wraps; reflexivity. Defined.

(** ** The sample file of the specification *)

Definition spec_sample_file : string :=
  "20080409" +:+ ⌜LF⌝ +:+ "// comment" +:+ ⌜LF⌝ +:+
  join_on TAB ["1001"; "user1"; "pass1"; "M"; "u1@x.com"; "0"; "0"; "0"; "0"; "3";
               "2024-01-01"; "1.2.3.4"; "kk,vv "] +:+ ⌜LF⌝ +:+
  "1002" +:+ String TAB "%newid%" +:+ ⌜LF⌝.

(** Loading the sample file of the specification gives the one account
    1001 with its registry entry [kk=vv]; the auto-increment value stays
    at [START_ACCOUNT_NUM] = 2000000, because both 1001 + 1 and the marker
    1002 are below it. *)
Theorem spec_sample_file_loads :
  load_file spec_sample_file =
    mk_db {[1001 := mk_account 1001 "user1" "pass1" "M" "u1@x.com" 0 0 0 0 3
                      "2024-01-01" "1.2.3.4" [mk_reg "kk" "vv"]]}
          START_ACCOUNT_NUM AUTHS_BEFORE_SAVE INVALID_TIMER.
Proof. vm_compute. reflexivity. Qed.
