(* ===== verification/AccountReload.v ===== *)
(** * Flush then reload: the round trip of the accounts file

    [mmo_auth_sync] writes the file that [account_db_txt_init] reads back
    when the login server restarts.  This file shows that the loader of
    lines 89-153 reads back what the flush of lines 441-474 wrote: the
    version line sets the layout, the comment lines are skipped, each
    record line is parsed by [mmo_auth_fromstr] (never mistaken for a
    version or [%newid%] line), and the final [%newid%] line restores the
    auto-increment counter.  The records come back as [reread] gives them
    (registry entries with an empty key are not printed), keyed by their
    [account_id]: a database whose keys and [account_id]s agree, whose
    records print on lines [fgets] reads whole and whose ids are below
    the counter is reloaded as it was. *)

From S2P Require Import Prelude CLib Account AccountCodec AccountTxt.

(** ** Strings of the printed lines *)

Lemma str_excludes_app c s1 s2 :
  str_excludes c (s1 +:+ s2) = str_excludes c s1 && str_excludes c s2.
Proof. unfold str_excludes. apply str_forall_app. Qed.

Lemma str_excludes_char c x : x <> c -> str_excludes c ⌜x⌝ = true.
Proof.
  intros H. unfold str_excludes. cbn. rewrite andb_true_r. apply negb_true_iff.
  destruct (Ascii.eqb_spec x c); [congruence | reflexivity].
Qed.

#[local] Hint Rewrite str_excludes_app : eathena_rw.

(** A character no digit is, absent from the decimal text of a number. *)
Lemma fmt_Z_excludes c z : isdigit c = false -> c <> "-"%char -> str_excludes c (fmt_Z z) = true.
Proof.
  intros Hd Hm.
  assert (HN : forall n, str_excludes c (fmt_N n) = true).
  { intros n. unfold str_excludes. apply (str_forall_impl isdigit); [|apply fmt_N_digits].
    intros x Hx. apply negb_true_iff. destruct (Ascii.eqb_spec x c); [congruence | reflexivity]. }
  unfold fmt_Z. destruct (z <? 0); [|apply HN].
  rewrite str_excludes_app, HN, str_excludes_char by exact (not_eq_sym Hm). reflexivity.
Qed.

(** A character neither a key nor a value may hold, absent from the
    printed registry entries. *)
Lemma regs_tostr_excludes c rs :
  key_char_ok c = false -> value_char_ok c = false -> c <> COMMA -> c <> SPACE ->
  forallb reg_line_ok rs = true -> str_excludes c (regs_tostr rs) = true.
Proof.
  intros Hk Hv Hc Hs. induction rs as [|[k v] rs IH]; [reflexivity|]. simpl forallb.
  intros Hall. ea_andb. destruct k as [|x k]; [exact (IH H0)|].
  apply reg_line_ok_iff in H as (_ & _ & Hkc & _ & Hvc); [|congruence].
  cbn [regs_tostr reg_str reg_value]. rewrite !str_excludes_app, IH by exact H0.
  assert (Hneq : forall p s, (forall y, p y = true -> y <> c) -> str_forall p s = true ->
                   str_excludes c s = true).
  { intros p s Hp. apply str_forall_impl. intros y Hy. apply negb_true_iff.
    destruct (Ascii.eqb_spec y c); [by destruct (Hp y Hy) | reflexivity]. }
  assert (Hk' : forall y, key_char_ok y = true -> y <> c) by (intros y Hy ->; congruence).
  assert (Hv' : forall y, value_char_ok y = true -> y <> c) by (intros y Hy ->; congruence).
  rewrite (Hneq _ _ Hk' Hkc), (Hneq _ _ Hv' Hvc).
  unfold COMMA, SPACE in *.
  rewrite (str_excludes_char c ","%char), (str_excludes_char c " "%char) by congruence.
  reflexivity.
Qed.

Lemma foldr_tab_excludes c fs r :
  c <> TAB -> Forall (fun f => str_excludes c f = true) fs -> str_excludes c r = true ->
  str_excludes c (foldr (fun f acc => f +:+ String TAB acc) r fs) = true.
Proof.
  intros Ht Hfs Hr. induction Hfs as [|f fs Hf _ IH]; [exact Hr|]. cbn [foldr].
  rewrite str_excludes_app, Hf. change (String TAB ?x) with (⌜TAB⌝ +:+ x).
  rewrite str_excludes_app, str_excludes_char, IH by congruence. reflexivity.
Qed.

(** The printed record holds neither NUL nor newline. *)
Lemma tostr_excludes c a :
  account_line_ok a = true -> isdigit c = false -> c <> "-"%char -> c <> TAB ->
  key_char_ok c = false -> value_char_ok c = false -> c <> COMMA -> c <> SPACE -> c <> sex a ->
  Forall (fun f => str_excludes c f = true) [userid a; pass a; email a; lastlogin a; last_ip a] ->
  str_excludes c (mmo_auth_tostr a) = true.
Proof.
  intros Hok Hd Hm Ht Hk Hv Hc Hs Hsex Hf. unfold mmo_auth_tostr.
  apply foldr_tab_excludes; [exact Ht| |].
  - unfold fixed_fields, printf_d, printf_u, printf_ld.
    rewrite !Forall_cons in Hf. destruct Hf as (F1 & F2 & F3 & F4 & F5 & _).
    repeat constructor; try apply fmt_Z_excludes; try assumption.
    apply str_excludes_char. congruence.
  - unfold account_line_ok in Hok. ea_andb. by apply regs_tostr_excludes.
Qed.

Lemma tostr_no_LF a : account_line_ok a = true -> str_excludes LF (mmo_auth_tostr a) = true.
Proof.
  intros Hok. pose proof Hok as Hok'. unfold account_line_ok in Hok'. ea_andb.
  apply tostr_excludes; try assumption; try reflexivity; try discriminate.
  - intros E. rewrite E, Ascii.eqb_refl in H1. discriminate.
  - unfold field_ok in *. ea_andb. repeat constructor; assumption.
Qed.

Lemma tostr_no_NUL a : account_line_ok a = true -> str_excludes NUL (mmo_auth_tostr a) = true.
Proof.
  intros Hok. pose proof Hok as Hok'. unfold account_line_ok, account_wf, fits in Hok'. ea_andb.
  apply tostr_excludes; try assumption; try reflexivity; try discriminate.
  - intros E. rewrite E, Ascii.eqb_refl in H3. discriminate.
  - repeat constructor; assumption.
Qed.

(** The printed record ends with the tab after the last fixed field or
    with the space after the last registry entry. *)
Lemma regs_tostr_end rs : regs_tostr rs = EmptyString \/ exists p, regs_tostr rs = p +:+ " ".
Proof.
  induction rs as [|[k v] rs IH]; [by left|]. cbn [regs_tostr reg_str reg_value].
  destruct k as [|x k]; [exact IH|]. right.
  destruct IH as [-> | [p ->]].
  - exists (String x k +:+ "," +:+ v). rewrite str_app_nil_r. str_norm. reflexivity.
  - exists (String x k +:+ "," +:+ v +:+ " " +:+ p). str_norm. reflexivity.
Qed.

Lemma foldr_tab_end fs r :
  fs <> [] -> exists q, foldr (fun f acc => f +:+ String TAB acc) r fs = q +:+ String TAB r.
Proof.
  induction fs as [|f fs IH]; [congruence|]. intros _. cbn [foldr].
  destruct fs as [|g fs]; [by exists f|].
  destruct (IH ltac:(discriminate)) as [q ->]. exists (f +:+ String TAB q).
  str_norm. reflexivity.
Qed.

Lemma tostr_end a : exists p c, mmo_auth_tostr a = p +:+ ⌜c⌝ /\ (c = TAB \/ c = SPACE).
Proof.
  unfold mmo_auth_tostr. destruct (foldr_tab_end (fixed_fields a) (regs_tostr (account_reg2 a)))
    as [q ->]; [discriminate|].
  destruct (regs_tostr_end (account_reg2 a)) as [-> | [p ->]].
  - exists q, TAB. split; [reflexivity | by left].
  - exists (q +:+ String TAB p), SPACE. split; [|by right]. str_norm. reflexivity.
Qed.

(** The newline the flush appends is the only one of the line. *)
Lemma app_LF_inv s q r :
  str_excludes LF s = true -> s +:+ ⌜LF⌝ = q +:+ String LF r -> q = s /\ r = EmptyString.
Proof.
  revert s. induction q as [|x q IH]; intros [|y s] Hs E; cbn in E.
  - by injection E as <-.
  - injection E as -> _. unfold str_excludes in Hs. cbn in Hs. discriminate.
  - injection E as <- E. destruct q; discriminate.
  - injection E as -> E. unfold str_excludes in Hs. cbn in Hs. apply andb_prop in Hs as [_ Hs].
    destruct (IH s Hs E) as [-> ->]. split; reflexivity.
Qed.

Lemma last_char_inj p q c d : p +:+ ⌜c⌝ = q +:+ ⌜d⌝ -> c = d.
Proof.
  revert q. induction p as [|x p IH]; intros [|y q] E; cbn in E.
  - by injection E.
  - injection E as _ E. destruct q; discriminate.
  - injection E as _ E. destruct p; discriminate.
  - injection E as _ E. exact (IH q E).
Qed.

(** A line that starts with a number is no comment. *)
Lemma fmt_Z_not_comment z rest : is_comment (fmt_Z z +:+ rest) = false.
Proof.
  unfold is_comment, fmt_Z. destruct (z <? 0); [reflexivity|].
  destruct (fmt_N_nonempty (Z.to_N z)) as (c & r & E).
  pose proof (fmt_N_digits (Z.to_N z)) as Hd. rewrite E in Hd. cbn in Hd. apply andb_prop in Hd as [Hd _].
  rewrite E, str_app_cons. unfold char_at. cbn [String.get].
  destruct (Ascii.eqb_spec c "/") as [->|Hc]; [discriminate | reflexivity].
Qed.

Lemma str_drop_app p r : str_drop (String.length p) (p +:+ r) = r.
Proof. induction p as [|c p IH]; [reflexivity | exact IH]. Qed.

Lemma char_at_after p c r : (p +:+ String c r).[String.length p] = c.
Proof. rewrite <- (Nat.add_0_r (String.length p)). apply char_at_app_r. Qed.

Lemma line_ok_id a : account_line_ok a = true -> in_int (account_id a).
Proof. unfold account_line_ok, account_wf. intros H. ea_andb. by apply int_b_spec. Qed.

(** A printed record: its id, a tab, the rest of the line. *)
Lemma tostr_shape a :
  in_int (account_id a) ->
  exists R, mmo_auth_tostr a +:+ ⌜LF⌝ = fmt_Z (account_id a) +:+ String TAB R.
Proof.
  intros Hid. unfold mmo_auth_tostr, fixed_fields. cbn [foldr]. unfold printf_d at 1.
  rewrite int32_id by exact Hid. eexists. rewrite <- str_app_assoc. reflexivity.
Qed.

(** The [%newid%] test never holds of a printed record, with the [%n] of
    line 98 (the end of the id): the literal would have to end the line,
    which ends with a tab or a space. *)
Lemma newid_line_record a :
  account_line_ok a = true ->
  newid_line (mmo_auth_tostr a +:+ ⌜LF⌝) (Some (String.length (fmt_Z (account_id a)))) = None.
Proof.
  intros Hok. pose proof (line_ok_id a Hok) as Hid.
  destruct (tostr_shape a Hid) as [R HR].
  unfold newid_line. rewrite HR, sscanf_d_n_fmt by (assumption || reflexivity).
  rewrite str_drop_app. rewrite <- HR.
  destruct (match_literal _ _) as [rest|] eqn:Em.
  - apply match_literal_split in Em.
    destruct (skip_space_split (String TAB R)) as [p Hp]. rewrite Em in Hp.
    assert (Hline : mmo_auth_tostr a +:+ ⌜LF⌝ = (fmt_Z (account_id a) +:+ p +:+ "%newid%") +:+ rest).
    { rewrite HR, Hp. str_norm. reflexivity. }
    rewrite (char_at_suffix _ rest) by eauto.
    destruct rest as [|x r]; [reflexivity|]. unfold char_at. cbn [String.get].
    destruct (Ascii.eqb_spec x LF) as [->|]; [|reflexivity]. exfalso.
    destruct (app_LF_inv _ _ _ (tostr_no_LF a Hok) Hline) as [Hq _].
    destruct (tostr_end a) as (p0 & c & Hc & Hct).
    assert (Hlast : (fmt_Z (account_id a) +:+ p +:+ "%newid") +:+ ⌜"%"%char⌝ = p0 +:+ ⌜c⌝).
    { rewrite <- Hc, <- Hq. str_norm. reflexivity. }
    apply last_char_inj in Hlast. destruct Hct; subst c; discriminate.
  - rewrite HR, char_at_after. reflexivity.
Qed.

Lemma version_line_record a :
  account_line_ok a = true ->
  version_line (mmo_auth_tostr a +:+ ⌜LF⌝) = (None, Some (String.length (fmt_Z (account_id a)))).
Proof.
  intros Hok. pose proof (line_ok_id a Hok) as Hid.
  destruct (tostr_shape a Hid) as [R HR]. unfold version_line.
  rewrite HR, sscanf_d_n_fmt, char_at_after by (assumption || reflexivity). reflexivity.
Qed.

(** A printed record line is read as a record: [load_record]. *)
Lemma init_line_record v d a :
  account_line_ok a = true ->
  init_line (v, d) (mmo_auth_tostr a +:+ ⌜LF⌝) = (v, load_record v d (mmo_auth_tostr a +:+ ⌜LF⌝)).
Proof.
  intros Hok. pose proof (line_ok_id a Hok) as Hid.
  destruct (tostr_shape a Hid) as [R HR].
  assert (Hc : is_comment (mmo_auth_tostr a +:+ ⌜LF⌝) = false)
    by (rewrite HR; apply fmt_Z_not_comment).
  unfold init_line. rewrite Hc, version_line_record by exact Hok.
  unfold newid_applies. rewrite newid_line_record by exact Hok. reflexivity.
Qed.

(** ** The records of the dump *)

(** The line the flush writes for a record, with its newline. *)
Definition record_line (a : mmo_account) : string := mmo_auth_tostr a +:+ ⌜LF⌝.

(** The map the loader builds from records with distinct ids. *)
Definition insert_reread (m : gmap Z mmo_account) (a : mmo_account) : gmap Z mmo_account :=
  <[account_id a := reread a]> m.

Lemma load_records l d N :
  Forall (fun a => account_line_ok a = true /\ account_id a < N) l ->
  NoDup (account_id <$> l) -> Forall (fun a => accounts d !! account_id a = None) l ->
  next_account_id d <= N -> N <= INT_MAX ->
  exists n', next_account_id d <= n' <= N /\
    fold_left init_line (record_line <$> l) (20080409, d) =
      (20080409, mk_db (foldl insert_reread (accounts d) l) n' (auths_before_save d) (save_timer d)).
Proof.
  revert d. induction l as [|a l IH]; intros d Hl Hnd Hfree Hn HN.
  - exists (next_account_id d). split; [lia|]. by destruct d.
  - apply Forall_cons in Hl as [[Hok Hlt] Hl]. apply Forall_cons in Hfree as [Hfa Hfree].
    rewrite fmap_cons, NoDup_cons in Hnd. destruct Hnd as [Hnin Hnd].
    rewrite fmap_cons. cbn [fold_left].
    change (init_line (20080409, d) (record_line a))
      with (init_line (20080409, d) (mmo_auth_tostr a +:+ ⌜LF⌝)).
    rewrite init_line_record by exact Hok. unfold load_record.
    rewrite fromstr_tostr by exact Hok. cbn [account_id reread]. rewrite Hfa.
    pose proof (line_ok_id a Hok) as Hid.
    set (d1 := set_accounts d (<[account_id a := reread a]> (accounts d))).
    set (d2 := if next_account_id d <? account_id a then set_next d1 (int32 (account_id a + 1)) else d1).
    assert (Hd2 : accounts d2 = <[account_id a := reread a]> (accounts d) /\
                  next_account_id d <= next_account_id d2 <= N /\
                  auths_before_save d2 = auths_before_save d /\ save_timer d2 = save_timer d).
    { unfold d2, d1. destruct (Z.ltb_spec (next_account_id d) (account_id a)); cbn.
      - rewrite int32_id by (unfold in_int, INT_MIN, INT_MAX in *; lia).
        repeat split; try reflexivity; lia.
      - repeat split; try reflexivity; lia. }
    destruct Hd2 as (Ha & Hnx & Hau & Hti).
    destruct (IH d2) as (n' & Hn' & E); try assumption; [| lia |].
    + apply Forall_forall. intros b Hb. rewrite Ha, lookup_insert_ne.
      * by apply (proj1 (Forall_forall _ _) Hfree).
      * intros E. apply Hnin, list_elem_of_fmap. exists b. split; [congruence | exact Hb].
    + exists n'. split; [lia|]. rewrite E, Ha, Hau, Hti. reflexivity.
Qed.

Lemma foldl_insert_reread_other l m0 k :
  Forall (fun a => account_id a <> k) l -> foldl insert_reread m0 l !! k = m0 !! k.
Proof.
  intros Hl. revert m0. induction Hl as [|a l Ha _ IH]; intros m0; [reflexivity|]. cbn [foldl].
  rewrite IH. unfold insert_reread. by rewrite lookup_insert_ne.
Qed.

Lemma foldl_insert_reread_elem l m0 a :
  NoDup (account_id <$> l) -> a ∈ l -> foldl insert_reread m0 l !! account_id a = Some (reread a).
Proof.
  revert m0. induction l as [|b l IH]; intros m0 Hnd Ha; [by apply elem_of_nil in Ha|].
  rewrite fmap_cons, NoDup_cons in Hnd. destruct Hnd as [Hnin Hnd]. cbn [foldl].
  apply elem_of_cons in Ha as [-> | Ha]; [|by apply IH].
  rewrite foldl_insert_reread_other.
  - unfold insert_reread. by rewrite lookup_insert_eq.
  - apply Forall_forall. intros c Hc E. apply Hnin, list_elem_of_fmap. eauto.
Qed.

(** Reading the records of a map whose keys are the records' ids, in the
    map's order, gives the map back (each record as it reads back). *)
Lemma reload_map (m : gmap Z mmo_account) :
  map_Forall (fun k a => account_id a = k) m ->
  foldl insert_reread ∅ (map_to_list m).*2 = reread <$> m.
Proof.
  intros Hm.
  assert (Hids : account_id <$> (map_to_list m).*2 = (map_to_list m).*1).
  { rewrite <- !list_fmap_compose. apply Forall_fmap_ext_1.
    apply map_Forall_to_list in Hm. eapply Forall_impl; [exact Hm|]. intros [k a] H. exact H. }
  assert (Hnd : NoDup (account_id <$> (map_to_list m).*2)) by (rewrite Hids; apply NoDup_fst_map_to_list).
  apply map_eq. intros k. rewrite lookup_fmap. destruct (m !! k) as [a|] eqn:Hk; cbn.
  - rewrite <- (Hm k a Hk). apply foldl_insert_reread_elem; [exact Hnd|].
    apply list_elem_of_fmap. exists (k, a). split; [reflexivity|]. by apply elem_of_map_to_list.
  - rewrite foldl_insert_reread_other; [apply lookup_empty|].
    apply Forall_forall. intros b Hb E. apply list_elem_of_fmap in Hb as [[k' b'] [-> Hkb]].
    apply elem_of_map_to_list in Hkb. cbn in E. rewrite (Hm _ _ Hkb) in E. congruence.
Qed.

(** ** The [%newid%] line *)

(** The last line of the dump restores the counter, whatever version is
    current. *)
Lemma init_line_newid v d N :
  in_int N -> next_account_id d <= N ->
  init_line (v, d) ((printf_d N +:+ String TAB "%newid%") +:+ ⌜LF⌝) = (v, set_next d N).
Proof.
  intros HN Hle. unfold printf_d. rewrite int32_id by exact HN.
  set (X := "%newid%" +:+ ⌜LF⌝).
  assert (Hl : (fmt_Z N +:+ String TAB "%newid%") +:+ ⌜LF⌝ = fmt_Z N +:+ String TAB X)
    by (unfold X; str_norm; reflexivity).
  rewrite Hl. unfold init_line. rewrite fmt_Z_not_comment.
  unfold version_line. rewrite sscanf_d_n_fmt, char_at_after by (assumption || reflexivity).
  cbn [ascii_eqb Ascii.eqb Bool.eqb TAB LF andb].
  unfold newid_applies, newid_line. rewrite sscanf_d_n_fmt, str_drop_app by (assumption || reflexivity).
  replace (match_literal "%newid%" (skip_space (String TAB X))) with (Some ⌜LF⌝) by reflexivity.
  rewrite (char_at_suffix _ ⌜LF⌝) by (exists (fmt_Z N +:+ String TAB "%newid%"); unfold X; str_norm; reflexivity).
  cbn [char_at String.get ascii_eqb Ascii.eqb Bool.eqb LF andb].
  destruct (Z.ltb_spec (next_account_id d) N); [reflexivity|].
  assert (next_account_id d = N) as <- by lia.
  unfold load_record.
  replace (mmo_auth_fromstr (fmt_Z (next_account_id d) +:+ String TAB X) v) with (@None mmo_account).
  - by destruct d.
  - symmetry. apply mmo_auth_fromstr_select.
    rewrite split_on_app by (pose proof (fmt_Z_field_ok (next_account_id d)) as Hf;
                             unfold field_ok in Hf; ea_andb; assumption).
    replace (split_on TAB (String TAB X)) with [EmptyString; X] by reflexivity. cbn.
    unfold select_layout. destruct (v =? 20080409), (v =? 0); reflexivity.
Qed.

(** ** The round trip *)

Lemma map_fmap {A B} (f : A -> B) (l : list A) : map f l = f <$> l.
Proof. induction l as [|x l IH]; [reflexivity | cbn; by rewrite IH]. Qed.

(** The version line and the comment block leave the database as it was
    before the file and set the version of the records. *)
Lemma dump_header :
  fold_left init_line (map (fun l => l +:+ ⌜LF⌝) ([printf_d SAVEFILE_VERSION] ++ sync_comments))
    (0, db_initial) = (20080409, db_initial).
Proof. vm_compute. reflexivity. Qed.

Lemma dump_header_lines :
  Forall (fun l => str_excludes LF l = true /\ (String.length l < FGETS_SIZE - 1)%nat)
    ([printf_d SAVEFILE_VERSION] ++ sync_comments).
Proof.
  assert (H : forallb (fun l => str_excludes LF l && (String.length l <? FGETS_SIZE - 1)%nat)
                ([printf_d SAVEFILE_VERSION] ++ sync_comments) = true) by (vm_compute; reflexivity).
  rewrite forallb_forall in H. apply Forall_forall. intros x Hx.
  specialize (H x (proj1 (list_elem_of_In _ _) Hx)). ea_andb. split; [assumption | by apply Nat.ltb_lt].
Qed.

(** What a database must satisfy to be reloaded as it is: the counter at
    or above [START_ACCOUNT_NUM] and an [int]; each record keyed by its
    own id, below the counter, printable on one line that reads back and
    that [fgets] reads whole. *)
Definition reloadable (d : AccountDB_TXT) : Prop :=
  START_ACCOUNT_NUM <= next_account_id d <= INT_MAX /\
  map_Forall (fun k a => account_id a = k /\ account_line_ok a = true /\ k < next_account_id d /\
                         (String.length (mmo_auth_tostr a) < FGETS_SIZE - 1)%nat) (accounts d).

(** The file [mmo_auth_sync] writes loads back as the database it was
    written from: the same records (as they read back), the same counter,
    a clean dirty counter and no timer yet. *)
Lemma load_file_dump d :
  reloadable d ->
  load_file (mmo_auth_dump d) =
    mk_db (reread <$> accounts d) (next_account_id d) AUTHS_BEFORE_SAVE INVALID_TIMER.
Proof.
  intros [HN Hm]. set (l := (map_to_list (accounts d)).*2).
  assert (Hl : Forall (fun a => account_line_ok a = true /\ account_id a < next_account_id d /\
                         (String.length (mmo_auth_tostr a) < FGETS_SIZE - 1)%nat) l).
  { apply Forall_forall. intros a Ha. apply list_elem_of_fmap in Ha as [[k b] [-> Hkb]].
    apply elem_of_map_to_list in Hkb. destruct (Hm _ _ Hkb) as (Hid & ? & ? & ?). subst k. cbn. auto. }
  assert (Hc : map (fun x => x +:+ ⌜LF⌝) (map (fun a => c_str (mmo_auth_tostr a)) (map snd (map_to_list (accounts d))))
               = record_line <$> l).
  { rewrite !map_map, map_fmap. unfold l. rewrite <- list_fmap_compose. apply Forall_fmap_ext_1.
    apply Forall_forall. intros [k a] Hka. apply elem_of_map_to_list in Hka.
    destruct (Hm _ _ Hka) as (_ & Hok & _). cbn. unfold record_line.
    by rewrite c_str_id by exact (tostr_no_NUL a Hok). }
  unfold load_file, mmo_auth_dump. rewrite fgets_lines_text.
  - unfold dump_lines. rewrite app_assoc, map_app, fold_left_app, dump_header.
    rewrite map_app, fold_left_app, Hc.
    destruct (load_records l db_initial (next_account_id d)) as (n' & Hn' & E).
    + eapply Forall_impl; [exact Hl|]. intros a (? & ? & _). auto.
    + unfold l. replace (account_id <$> (map_to_list (accounts d)).*2) with (map_to_list (accounts d)).*1.
      * apply NoDup_fst_map_to_list.
      * rewrite <- !list_fmap_compose. symmetry. apply Forall_fmap_ext_1.
        apply Forall_forall. intros [k a] Hka. apply elem_of_map_to_list in Hka. apply (Hm _ _ Hka).
    + apply Forall_forall. intros a _. reflexivity.
    + cbn. lia.
    + lia.
    + rewrite E. cbn [map fold_left]. rewrite init_line_newid.
      * unfold set_next. cbn. f_equal. unfold l. apply reload_map. intros k a Hka. apply (Hm _ _ Hka).
      * unfold in_int, INT_MIN, INT_MAX, START_ACCOUNT_NUM in *. lia.
      * cbn. lia.
  - unfold dump_lines. rewrite app_assoc. apply Forall_app. split; [apply dump_header_lines|].
    apply Forall_app. split.
    + apply Forall_forall. intros x Hx. apply list_elem_of_In, in_map_iff in Hx as (a & <- & Ha).
      apply in_map_iff in Ha as ([k b] & <- & Hkb). apply list_elem_of_In, elem_of_map_to_list in Hkb.
      destruct (Hm _ _ Hkb) as (_ & Hok & _ & Hlen). cbn.
      rewrite c_str_id by exact (tostr_no_NUL b Hok). split; [exact (tostr_no_LF b Hok) | exact Hlen].
    + assert (Hi : in_int (next_account_id d)) by (unfold in_int, INT_MIN, INT_MAX, START_ACCOUNT_NUM in *; lia).
      constructor; [|constructor]. unfold printf_d. rewrite int32_id by exact Hi. split.
      * rewrite str_excludes_app. pose proof (fmt_Z_field_ok (next_account_id d)) as Hf.
        unfold field_ok in Hf. ea_andb. rewrite H0. reflexivity.
      * rewrite str_length_app. pose proof (fmt_Z_length _ Hi). cbn. unfold FGETS_SIZE. lia.
Qed.

(** C9. Restart of the login server: [account_db_txt_free] flushes the
    database (its [lock_fopen] succeeding) and [account_db_txt_init] on
    the file it leaves reloads the same records, each as it reads back,
    and the same auto-increment counter, with a clean dirty counter and
    the new timer, for a database whose records are keyed by their own
    ids, lie below the counter and print on lines [fgets] reads whole. *)
Theorem free_then_init s t :
  reloadable (st_db s) ->
  exists text, account_db_txt_free true s = (true, Some text) /\
    account_db_txt_init (Some text) t =
      (true, mk_state (mk_db (reread <$> accounts (st_db s)) (next_account_id (st_db s))
                             AUTHS_BEFORE_SAVE t) (Some text)).
Proof.
  intros Hr. exists (mmo_auth_dump (st_db s)). split; [reflexivity|].
  unfold account_db_txt_init. rewrite load_file_dump by exact Hr. reflexivity.
Qed.

(** ** Restart after [create] *)

(** Stop and start the server: flush at [free], reload at [init]. *)
Definition restart (s : txt_state) (t : Z) : txt_state :=
  snd (account_db_txt_init (snd (account_db_txt_free true s)) t).

(** A record as the login server passes it to [create], before any id is
    known. *)
Definition new_account (uid : string) : mmo_account :=
  mk_account (-1) uid "pw" "M" "a@a.com" 0 0 0 0 0 "0000-00-00 00:00:00" "" [].

Definition empty_state : txt_state :=
  mk_state (mk_db ∅ START_ACCOUNT_NUM AUTHS_BEFORE_SAVE 1) (Some "").

(** [create] stores the caller's record under [next_account_id] but
    does not write that id into it, and the flush prints the record's
    own [account_id]: two accounts created from records whose id is not
    set are found under [START_ACCOUNT_NUM] and [START_ACCOUNT_NUM + 1]
    until the server restarts; after the restart neither id finds an
    account: both lines of the file carry the id [-1], the loader keeps
    the first of them (the map's iteration order put [bob]'s first) and
    the other account is lost. *)
Example created_accounts_lost_on_restart :
  match account_db_txt_create true (new_account "alice") empty_state with
  | (true, s1) =>
      match account_db_txt_create true (new_account "bob") s1 with
      | (true, s2) =>
          account_db_txt_load_num (st_db s2) (START_ACCOUNT_NUM + 1) = (true, new_account "bob") /\
          let d3 := st_db (restart s2 2) in
          fst (account_db_txt_load_num d3 START_ACCOUNT_NUM) = false /\
          fst (account_db_txt_load_num d3 (START_ACCOUNT_NUM + 1)) = false /\
          accounts d3 = {[-1 := new_account "bob"]} /\
          fst (account_db_txt_load_str d3 "alice") = false
      | _ => False
      end
  | _ => False
  end.
Proof. vm_compute. repeat split; reflexivity. Qed.

(** ** Witnesses *)

Definition reloadable_b (d : AccountDB_TXT) : bool :=
  (START_ACCOUNT_NUM <=? next_account_id d) && (next_account_id d <=? INT_MAX) &&
  forallb (fun ka => (account_id ka.2 =? ka.1) && account_line_ok ka.2 && (ka.1 <? next_account_id d) &&
                     (String.length (mmo_auth_tostr ka.2) <? FGETS_SIZE - 1)%nat)
          (map_to_list (accounts d)).

Lemma reloadable_b_sound d : reloadable_b d = true -> reloadable d.
Proof.
  unfold reloadable_b. intros H. apply andb_prop in H as [H Hall]. ea_andb.
  rewrite Z.leb_le in *. split; [lia|].
  intros k a Hka. apply elem_of_map_to_list in Hka. rewrite forallb_forall in Hall.
  specialize (Hall (k, a) (proj1 (list_elem_of_In _ _) Hka)). cbn [fst snd] in Hall. ea_andb.
  repeat match goal with
  | H : (_ =? _)%Z = true |- _ => apply Z.eqb_eq in H
  | H : (_ <? _)%Z = true |- _ => apply Z.ltb_lt in H
  | H : (_ <? _)%nat = true |- _ => apply Nat.ltb_lt in H
  end.
  repeat split; assumption.
Qed.

Lemma free_then_init_witness :
  reloadable (st_db sample_state) /\
  exists text, account_db_txt_free true sample_state = (true, Some text) /\
    account_db_txt_init (Some text) 7 =
      (true, mk_state (mk_db (reread <$> accounts (st_db sample_state)) (next_account_id (st_db sample_state))
                             AUTHS_BEFORE_SAVE 7) (Some text)).
Proof.
  assert (Hr : reloadable (st_db sample_state)) by (apply reloadable_b_sound; vm_compute; reflexivity).
  split; [exact Hr|]. exact (free_then_init sample_state 7 Hr).
Defined.
