(* ===== verification/AccountIface.v ===== *)
(** * The account vtable [struct AccountDB], its contract, and its callers

    [struct AccountDB] (account.h, not under [src/]) is what the login
    service holds: seven function pointers that [account_db_txt] (lines
    43-57 of [account_txt.c]) fills with the text backend's functions.
    [AccountDBLaws] states, against an abstraction [view] of the object as
    a map from ids to records, what a caller may rely on: the in-memory
    operations of spec section 4.1.  The text backend satisfies it with
    [view] the [accounts] map ([account_db_txt_laws]), whatever its
    [lock_fopen] calls do.

    The callers are the two patterns of the spec (section 3, ownership):
    registration refuses a name in use and creates the record;
    an update loads a copy by name, changes it and saves it.  Lemmas proved
    against the contract (registration keeps names unique and makes the
    record findable by name; an update reaches the record when every
    record sits under its own id) give, through the instance, the
    theorems on the text backend's vtable.  Composed with it: [create]
    files the record under [next_account_id] without writing that id into
    it, so the update of a freshly registered account fails. *)

From S2P Require Import Prelude CLib Account AccountCodec AccountTxt.

Module AccountIface.

(** ** The vtable *)

(** [struct AccountDB]: each operation takes the object and returns the C
    result with the object after the call; [load_num] and [load_str] fill
    the caller's buffer and leave the object alone. *)
Record AccountDB (Obj : Type) := mk_accountdb {
  vt_init : Obj -> bool * Obj;
  vt_free : Obj -> bool * Obj;
  vt_save : Obj -> mmo_account -> bool * Obj;
  vt_create : Obj -> mmo_account -> bool * Obj;
  vt_remove : Obj -> Z -> bool * Obj;
  vt_load_num : Obj -> Z -> bool * mmo_account;
  vt_load_str : Obj -> string -> bool * mmo_account
}.
Arguments vt_init {Obj} _ _.
Arguments vt_free {Obj} _ _.
Arguments vt_save {Obj} _ _ _.
Arguments vt_create {Obj} _ _ _.
Arguments vt_remove {Obj} _ _ _.
Arguments vt_load_num {Obj} _ _ _.
Arguments vt_load_str {Obj} _ _ _.

(** The object [aCalloc] returns (line 46): every field zero, beside the
    accounts file. *)
Definition account_db_txt_calloc (file : option string) : txt_state :=
  mk_state (mk_db ∅ 0 0 0) file.

(** [account_db_txt]: the vtable of the text backend.  [lock_ok] is what
    [lock_fopen] answers and [timer_id] what [add_timer_interval] returns
    during the run.  [init] reads the file beside the object; [free]
    leaves the file and no database, which the model writes as a fresh
    object over that file. *)
Definition account_db_txt (lock_ok : bool) (timer_id : Z) : AccountDB txt_state := {|
  vt_init s := account_db_txt_init (st_file s) timer_id;
  vt_free s := let '(b, f) := account_db_txt_free lock_ok s in (b, account_db_txt_calloc f);
  vt_save s acc := account_db_txt_save lock_ok acc s;
  vt_create s acc := account_db_txt_create lock_ok acc s;
  vt_remove s id := account_db_txt_remove lock_ok id s;
  vt_load_num s id := account_db_txt_load_num (st_db s) id;
  vt_load_str s uid := account_db_txt_load_str (st_db s) uid
|}.

(** ** The contract *)

Class AccountDBLaws {Obj} (vt : AccountDB Obj) (view : Obj -> gmap Z mmo_account) : Prop := {
  law_load_num o id :
    vt_load_num vt o id = match view o !! id with
                          | Some a => (true, a) | None => (false, account_zero) end;
  law_load_str o uid :
    match vt_load_str vt o uid with
    | (true, a) => userid a = uid /\ exists k, view o !! k = Some a
    | (false, a) => a = account_zero /\ forall k a', view o !! k = Some a' -> userid a' <> uid
    end;
  law_save o acc :
    match view o !! account_id acc with
    | Some _ => exists o', vt_save vt o acc = (true, o') /\
                  view o' = <[account_id acc := acc]> (view o)
    | None => exists o', vt_save vt o acc = (false, o') /\ view o' = view o
    end;
  law_create o acc :
    match vt_create vt o acc with
    | (true, o') => exists id, view o !! id = None /\ view o' = <[id := acc]> (view o)
    | (false, o') => view o' = view o
    end;
  law_remove o id :
    exists o', vt_remove vt o id = (bool_decide (is_Some (view o !! id)), o') /\
      view o' = delete id (view o)
}.

(** ** The callers *)

(** No two records share a name. *)
Definition names_unique (m : gmap Z mmo_account) : Prop :=
  forall k1 k2 a1 a2, m !! k1 = Some a1 -> m !! k2 = Some a2 -> userid a1 = userid a2 -> k1 = k2.

(** Every record sits under its own [account_id]. *)
Definition keyed (m : gmap Z mmo_account) : Prop :=
  map_Forall (fun k a => account_id a = k) m.

(** The record with its password replaced. *)
Definition set_pass (a : mmo_account) (p : string) : mmo_account :=
  mk_account (account_id a) (userid a) p (sex a) (email a) (level a) (state a) (unban_time a)
    (expiration_time a) (logincount a) (lastlogin a) (last_ip a) (account_reg2 a).

Section Client.
Context {Obj : Type} (vt : AccountDB Obj).

(** Registration: a name in use is refused, else the record is created. *)
Definition register (o : Obj) (acc : mmo_account) : bool * Obj :=
  match vt_load_str vt o (userid acc) with
  | (true, _) => (false, o)
  | (false, _) => vt_create vt o acc
  end.

(** An update: load a copy by name, change its password, save it. *)
Definition change_pass (o : Obj) (uid p : string) : bool * Obj :=
  match vt_load_str vt o uid with
  | (true, a) => vt_save vt o (set_pass a p)
  | (false, _) => (false, o)
  end.

End Client.

(** ** The text backend satisfies the contract *)

#[export] Instance account_db_txt_laws b t :
  AccountDBLaws (account_db_txt b t) (fun s => accounts (st_db s)).
Proof.
  split; cbn.
  - reflexivity.
  - intros o uid. exact (load_str_cases (st_db o) uid).
  - intros o acc. destruct (accounts (st_db o) !! account_id acc) as [a|] eqn:E.
    + rewrite (save_known b acc o a E). eexists. split; [reflexivity|].
      destruct (_ =? 0); autorewrite with eathena_rw; reflexivity.
    + unfold account_db_txt_save. rewrite E. eauto.
  - intros o acc. unfold account_db_txt_create.
    destruct (accounts (st_db o) !! next_account_id (st_db o)) eqn:E; [reflexivity|].
    exists (next_account_id (st_db o)). split; [exact E|]. by autorewrite with eathena_rw.
  - intros o id. unfold account_db_txt_remove.
    destruct (accounts (st_db o) !! id) eqn:E; eexists; (split; [reflexivity|]).
    + by autorewrite with eathena_rw.
    + by rewrite delete_id.
Qed.

(** ** The callers against the contract *)

Section ClientLaws.
Context {Obj : Type} (vt : AccountDB Obj) (view : Obj -> gmap Z mmo_account).
Context `{!AccountDBLaws vt view}.

(** [load_str] returns the record when no other record has its name. *)
Lemma load_str_only o id acc :
  view o !! id = Some acc ->
  (forall k a, k <> id -> view o !! k = Some a -> userid a <> userid acc) ->
  vt_load_str vt o (userid acc) = (true, acc).
Proof.
  intros Hid Hother. pose proof (law_load_str o (userid acc)) as Hl.
  destruct (vt_load_str vt o (userid acc)) as [[|] a].
  - destruct Hl as [Hu [k Hk]]. destruct (decide (k = id)) as [->|Hne]; [congruence|].
    by destruct (Hother k a Hne Hk).
  - destruct Hl as [_ Hn]. by destruct (Hn id acc Hid).
Qed.

(** What [register] does to the view. *)
Lemma register_cases o acc :
  match register vt o acc with
  | (true, o') => (forall k a, view o !! k = Some a -> userid a <> userid acc) /\
                  exists id, view o !! id = None /\ view o' = <[id := acc]> (view o)
  | (false, o') => view o' = view o
  end.
Proof.
  unfold register. pose proof (law_load_str o (userid acc)) as Hl.
  destruct (vt_load_str vt o (userid acc)) as [[|] a]; [reflexivity|].
  pose proof (law_create o acc) as Hc. destruct (vt_create vt o acc) as [[|] o']; [|exact Hc].
  split; [exact (proj2 Hl) | exact Hc].
Qed.

Lemma names_unique_insert_fresh m id acc :
  names_unique m -> (forall k a, m !! k = Some a -> userid a <> userid acc) ->
  names_unique (<[id := acc]> m).
Proof.
  intros Hu Hf k1 k2 a1 a2. rewrite !lookup_insert_Some.
  intros [[<- <-]|[? H1]] [[<- <-]|[? H2]] Hn;
    [reflexivity | destruct (Hf _ _ H2) | destruct (Hf _ _ H1) | exact (Hu _ _ _ _ H1 H2 Hn)];
    congruence.
Qed.

Lemma names_unique_insert_same m k a b :
  names_unique m -> m !! k = Some a -> userid b = userid a -> names_unique (<[k := b]> m).
Proof.
  intros Hu Ha Hb k1 k2 a1 a2. rewrite !lookup_insert_Some.
  intros [[<- <-]|[? H1]] [[<- <-]|[? H2]] Hn;
    [reflexivity | apply (Hu _ _ _ _ Ha H2) | apply (Hu _ _ _ _ H1 Ha) | apply (Hu _ _ _ _ H1 H2)];
    congruence.
Qed.

(** A successful registration through any backend that keeps the
    contract files the record under an id that was free, and [load_str] of
    its name then returns exactly that record. *)
Lemma register_found o acc o' :
  register vt o acc = (true, o') ->
  (exists id, view o !! id = None /\ view o' = <[id := acc]> (view o)) /\
  vt_load_str vt o' (userid acc) = (true, acc).
Proof.
  intros Hr. pose proof (register_cases o acc) as Hc. rewrite Hr in Hc.
  destruct Hc as [Hfree (id & Hid & Ho')]. split; [eauto|].
  apply (load_str_only o' id); rewrite Ho'; [apply lookup_insert_eq|].
  intros k a Hk. rewrite lookup_insert_ne by congruence. apply Hfree.
Qed.

(** Registration keeps names unique: whether it succeeds or not, no
    two records of the view share a name afterwards if none did before. *)
Lemma register_keeps_unique o acc :
  names_unique (view o) -> names_unique (view (register vt o acc).2).
Proof.
  intros Hu. pose proof (register_cases o acc) as Hc.
  destruct (register vt o acc) as [[|] o']; cbn [snd].
  - destruct Hc as [Hfree (id & _ & ->)]. by apply names_unique_insert_fresh.
  - by rewrite Hc.
Qed.

(** The load-change-save update of spec section 3 through any backend
    that keeps the contract: when every record sits under its own id and
    names are unique, changing the password of a record succeeds, replaces
    that record only, keeps names unique, and [load_str] returns the
    changed copy. *)
Lemma change_pass_found o k a p :
  keyed (view o) -> names_unique (view o) -> view o !! k = Some a ->
  exists o', change_pass vt o (userid a) p = (true, o') /\
    view o' = <[k := set_pass a p]> (view o) /\ names_unique (view o') /\
    vt_load_str vt o' (userid a) = (true, set_pass a p).
Proof.
  intros Hk Hu Ha.
  assert (Hother : forall o k' b, names_unique (view o) -> view o !! k = Some (set_pass a p) ->
            k' <> k -> view o !! k' = Some b -> userid b <> userid (set_pass a p))
    by (intros ? k' b Hu' Hs Hne Hb Hn; exact (Hne (Hu' _ _ _ _ Hb Hs Hn))).
  unfold change_pass.
  assert (Hl : vt_load_str vt o (userid a) = (true, a)).
  { apply (load_str_only o k); [exact Ha|]. intros k' b Hne Hb Hn. exact (Hne (Hu _ _ _ _ Hb Ha Hn)). }
  rewrite Hl. pose proof (law_save o (set_pass a p)) as Hs. cbn [account_id set_pass] in Hs.
  rewrite (Hk k a Ha), Ha in Hs. destruct Hs as (o' & Hsave & Ho'). exists o'.
  assert (Hu' : names_unique (view o')) by (rewrite Ho'; by apply (names_unique_insert_same _ _ a)).
  split; [exact Hsave|]. split; [exact Ho'|]. split; [exact Hu'|].
  change (userid a) with (userid (set_pass a p)). apply (load_str_only o' k).
  - rewrite Ho'. apply lookup_insert_eq.
  - intros k' b. apply Hother; [exact Hu' | rewrite Ho'; apply lookup_insert_eq].
Qed.

End ClientLaws.

(** ** The callers on the text backend *)

(** C11. On the text backend, a successful registration stores the record
    under [next_account_id], which was free, and [load_str] of its name
    then returns exactly that record. *)
Theorem register_then_load_str b t s acc s' :
  register (account_db_txt b t) s acc = (true, s') ->
  accounts (st_db s) !! next_account_id (st_db s) = None /\
  accounts (st_db s') = <[next_account_id (st_db s) := acc]> (accounts (st_db s)) /\
  account_db_txt_load_str (st_db s') (userid acc) = (true, acc).
Proof.
  intros Hr. destruct (register_found (account_db_txt b t) (fun s => accounts (st_db s)) s acc s' Hr)
    as [_ Hl].
  unfold register in Hr. cbn in Hr. destruct (account_db_txt_load_str _ _) as [[|] a]; [discriminate|].
  unfold account_db_txt_create in Hr.
  destruct (accounts (st_db s) !! next_account_id (st_db s)) eqn:E; [discriminate|].
  injection Hr as <-. split; [reflexivity|]. split; [by autorewrite with eathena_rw | exact Hl].
Qed.

(** C14. On the text backend, registration keeps names unique: [load_str]
    finds a record of the name whenever one is stored, so [create] only
    runs for a new name. *)
Theorem register_names_unique b t s acc :
  names_unique (accounts (st_db s)) ->
  names_unique (accounts (st_db (register (account_db_txt b t) s acc).2)).
Proof. exact (register_keeps_unique (account_db_txt b t) (fun s => accounts (st_db s)) s acc). Qed.

(** C12. The load-change-save update of spec section 3 on the text backend:
    when every record sits under its own id and names are unique,
    changing the password of a record succeeds, replaces that record
    only, keeps names unique, and [load_str] returns the changed copy. *)
Theorem change_pass_then_load_str b t s k a p :
  keyed (accounts (st_db s)) -> names_unique (accounts (st_db s)) -> accounts (st_db s) !! k = Some a ->
  exists s', change_pass (account_db_txt b t) s (userid a) p = (true, s') /\
    accounts (st_db s') = <[k := set_pass a p]> (accounts (st_db s)) /\
    names_unique (accounts (st_db s')) /\
    account_db_txt_load_str (st_db s') (userid a) = (true, set_pass a p).
Proof. exact (change_pass_found (account_db_txt b t) (fun s => accounts (st_db s)) s k a p). Qed.

(** C13. Composed with the text backend, the update of a freshly registered
    account fails: [create] files the record under [next_account_id] but
    leaves its [account_id] field as the caller set it (here an id that
    names no record, such as -1), so the [save] of the copy [load_str]
    returns looks up that field and finds nothing. *)
Theorem txt_register_then_change_pass_fails b t s acc p :
  accounts (st_db s) !! next_account_id (st_db s) = None ->
  (forall k a, accounts (st_db s) !! k = Some a -> userid a <> userid acc) ->
  accounts (st_db s) !! account_id acc = None -> account_id acc <> next_account_id (st_db s) ->
  exists s', register (account_db_txt b t) s acc = (true, s') /\
    vt_load_str (account_db_txt b t) s' (userid acc) = (true, acc) /\
    change_pass (account_db_txt b t) s' (userid acc) p = (false, s').
Proof.
  intros Hnext Hfree Hid Hne.
  assert (Hr : register (account_db_txt b t) s acc =
                 account_db_txt_create b acc s).
  { unfold register. pose proof (load_str_cases (st_db s) (userid acc)) as Hl. cbn.
    destruct (account_db_txt_load_str _ _) as [[|] a]; [|reflexivity].
    destruct Hl as [Hu [k Hk]]. by destruct (Hfree k a Hk). }
  rewrite Hr, (create_free b acc s Hnext). eexists. split; [reflexivity|].
  assert (Hl : vt_load_str (account_db_txt b t)
                 (mmo_auth_sync b (mk_state (set_next (set_accounts (st_db s)
                    (<[next_account_id (st_db s) := acc]> (accounts (st_db s))))
                    (int32 (next_account_id (st_db s) + 1))) (st_file s))) (userid acc) = (true, acc)).
  { apply (load_str_only _ (fun s => accounts (st_db s)) _ (next_account_id (st_db s)));
      cbn; autorewrite with eathena_rw; cbn; [apply lookup_insert_eq|].
    intros k a Hk. rewrite lookup_insert_ne by congruence. apply Hfree. }
  split; [exact Hl|]. unfold change_pass. rewrite Hl. cbn.
  unfold account_db_txt_save. autorewrite with eathena_rw. cbn.
  by rewrite lookup_insert_ne, Hid by congruence.
Qed.

(** ** Witnesses *)

(** A new player's record, without an id as a caller fills it. *)
Definition sample_new : mmo_account :=
  mk_account (-1) "carol" "pw" "F" "c@x.com" 0 0 0 0 0 "" "" [].

Definition sample_vt : AccountDB txt_state := account_db_txt true 1.

Definition sample_registered : txt_state := snd (register sample_vt sample_state sample_new).

Lemma sample_state_unique : names_unique (accounts (st_db sample_state)).
Proof.
  intros k1 k2 a1 a2 H1 H2 _. cbn in H1, H2.
  apply lookup_singleton_Some in H1 as [<- _], H2 as [<- _]. reflexivity.
Qed.

Lemma sample_state_keyed : keyed (accounts (st_db sample_state)).
Proof. apply map_Forall_singleton. reflexivity. Qed.

Lemma sample_state_free k a :
  accounts (st_db sample_state) !! k = Some a -> userid a <> userid sample_new.
Proof. cbn. intros H. apply lookup_singleton_Some in H as [_ <-]. discriminate. Qed.

Lemma register_then_load_str_witness :
  register (account_db_txt true 1) sample_state sample_new = (true, sample_registered) /\
  accounts (st_db sample_state) !! next_account_id (st_db sample_state) = None /\
  accounts (st_db sample_registered) =
    <[next_account_id (st_db sample_state) := sample_new]> (accounts (st_db sample_state)) /\
  account_db_txt_load_str (st_db sample_registered) (userid sample_new) = (true, sample_new).
Proof.
  assert (H : register (account_db_txt true 1) sample_state sample_new = (true, sample_registered))
    by (vm_compute; reflexivity).
  split; [exact H|].
  exact (register_then_load_str true 1 sample_state sample_new sample_registered H).
Defined.

Lemma register_names_unique_witness :
  names_unique (accounts (st_db sample_state)) /\
  names_unique (accounts (st_db (register (account_db_txt true 1) sample_state sample_new).2)).
Proof.
  split; [exact sample_state_unique|].
  exact (register_names_unique true 1 sample_state sample_new sample_state_unique).
Defined.

Lemma change_pass_then_load_str_witness :
  keyed (accounts (st_db sample_state)) /\ names_unique (accounts (st_db sample_state)) /\
  accounts (st_db sample_state) !! 2000001 = Some sample_account /\
  exists s', change_pass (account_db_txt true 1) sample_state (userid sample_account) "secret" = (true, s') /\
    accounts (st_db s') = <[2000001 := set_pass sample_account "secret"]> (accounts (st_db sample_state)) /\
    names_unique (accounts (st_db s')) /\
    account_db_txt_load_str (st_db s') (userid sample_account) = (true, set_pass sample_account "secret").
Proof.
  split; [exact sample_state_keyed|]. split; [exact sample_state_unique|].
  split; [reflexivity|].
  exact (change_pass_then_load_str true 1 sample_state 2000001 sample_account "secret"
           sample_state_keyed sample_state_unique eq_refl).
Defined.

Lemma txt_register_then_change_pass_fails_witness :
  accounts (st_db sample_state) !! next_account_id (st_db sample_state) = None /\
  accounts (st_db sample_state) !! account_id sample_new = None /\
  account_id sample_new <> next_account_id (st_db sample_state) /\
  exists s', register sample_vt sample_state sample_new = (true, s') /\
    vt_load_str sample_vt s' (userid sample_new) = (true, sample_new) /\
    change_pass sample_vt s' (userid sample_new) "pw2" = (false, s').
Proof.
  assert (H1 : accounts (st_db sample_state) !! next_account_id (st_db sample_state) = None)
    by reflexivity.
  assert (H2 : accounts (st_db sample_state) !! account_id sample_new = None) by reflexivity.
  assert (H3 : account_id sample_new <> next_account_id (st_db sample_state)) by discriminate.
  split; [exact H1|]. split; [exact H2|]. split; [exact H3|].
  exact (txt_register_then_change_pass_fails true 1 sample_state sample_new "pw2"
           H1 sample_state_free H2 H3).
Defined.

End AccountIface.
