(* ===== verification/Runtime.v ===== *)
(** * The runtime of the account backend: lock files, the timer, the heap

    [account_txt.c] reaches three collaborators that are not under
    [src/]; this file models them from the specification (section 1: the
    scheduler is consumed as "register a callback to fire every N ms",
    the lock-file primitives as "open for exclusive write, then atomically
    publish on close") and runs the backend's code over them:
    - the file system [fs]: the live accounts file and the temporary file
      [lock_fopen] opens; [mmo_auth_sync_fs] is [mmo_auth_sync] (lines
      434-478) as the sequence of [fprintf] calls it makes on that handle,
      published by [lock_fclose];
    - the scheduler [sched]: [add_timer_interval], [delete_timer] and the
      firing of a timer, which calls [mmo_auth_sync_timer] with the [data]
      word the timer was registered with;
    - the heap [heap] of backend objects at their addresses: [aCalloc] in
      the constructor, [aFree] in [account_db_txt_free], and the casts
      [(int)db] (line 157) and the cast of [data] back to an
      [AccountDB_TXT] pointer (line 482) between an address and the
      timer's [int] data word.
    [rt_step] is the service's life cycle over these: construct, init,
    the state-changing calls, timer firings at any moment (the scheduler
    may delay or skip them), and free. *)

From S2P Require Import Prelude CLib Account AccountCodec AccountTxt AccountIface.
Import AccountIface.

Module Runtime.

(** ** Lock files *)

(** The live accounts file and the temporary file of an open lock handle. *)
Record fs := mk_fs { fs_live : option string; fs_tmp : option string }.

(** [lock_fopen]: a fresh temporary file beside the live one; [ok] is
    whether the open succeeds ([NULL] otherwise). *)
Definition lock_fopen (ok : bool) (f : fs) : option fs :=
  if ok then Some (mk_fs (fs_live f) (Some "")) else None.

(** One call on the open handle: [fprintf] appends to the temporary file,
    [lock_fclose] publishes it in one step. *)
Inductive io_call := Fprintf (t : string) | LockFclose.

Definition io_step (f : fs) (c : io_call) : fs :=
  match c with
  | Fprintf t => mk_fs (fs_live f) (Some (default "" (fs_tmp f) +:+ t))
  | LockFclose => mk_fs (fs_tmp f) None
  end.

Definition io_run (f : fs) (cs : list io_call) : fs := foldl io_step f cs.

(** The calls of lines 447-471 after [lock_fopen]: one [fprintf] per
    line of the dump, newline included, then [lock_fclose]. *)
Definition sync_calls (d : AccountDB_TXT) : list io_call :=
  ((fun l => Fprintf (l +:+ String LF "")) <$> dump_lines d) ++ [LockFclose].

(** [mmo_auth_sync] over the file system: nothing when [lock_fopen]
    fails, else the calls and the reset of the counter. *)
Definition mmo_auth_sync_fs (ok : bool) (d : AccountDB_TXT) (f : fs) : AccountDB_TXT * fs :=
  match lock_fopen ok f with
  | None => (d, f)
  | Some f1 => (set_counter d AUTHS_BEFORE_SAVE, io_run f1 (sync_calls d))
  end.

(** ** The scheduler *)

(** The callbacks [src/] registers. *)
Inductive timer_func := MmoAuthSyncTimer.

#[export] Instance timer_func_eq_dec : EqDecision timer_func.
Proof. solve_decision. Defined.

(** A registered timer: its callback, the [data] word passed to it, and
    its interval (the firing time is left to the scheduler). *)
Record timer := mk_timer { tm_func : timer_func; tm_data : Z; tm_interval : Z }.

Record sched := mk_sched { timers : gmap Z timer; next_tid : Z }.

(** [add_timer_interval(tick, func, id, data, interval)]: a fresh timer id. *)
Definition add_timer_interval (sc : sched) (func : timer_func) (data interval : Z) : Z * sched :=
  (next_tid sc, mk_sched (<[next_tid sc := mk_timer func data interval]> (timers sc)) (next_tid sc + 1)).

(** [delete_timer(tid, func)]: removes the timer when it runs [func];
    an unknown id or another callback is reported and left alone. *)
Definition delete_timer (sc : sched) (tid : Z) (func : timer_func) : sched :=
  match timers sc !! tid with
  | Some t => if decide (tm_func t = func) then mk_sched (delete tid (timers sc)) (next_tid sc) else sc
  | None => sc
  end.

(** ** Addresses and the casts of the timer's data word *)

(** [(int)db] (line 157): gcc keeps the low 32 bits of the address. *)
Definition ptr_to_int (a : Z) : Z := int32 a.

(** The cast of [data] back to a pointer (line 482): the [int] is
    sign-extended to a 64-bit address. *)
Definition int_to_ptr (v : Z) : Z := wrap_unsigned 64 v.

(** The address the timer's callback dereferences. *)
Definition target (t : timer) : Z := int_to_ptr (tm_data t).

(** ** The service's world *)

(** The backend objects by address, the scheduler, the file system, and
    (ghost) the objects whose [init] the service has called. *)
Record world := mk_world {
  heap : gmap Z AccountDB_TXT;
  w_sched : sched;
  disk : fs;
  w_inited : gset Z
}.

(** The constructor [account_db_txt] at a fresh address. *)
Definition rt_new (a : Z) (w : world) : world :=
  mk_world (<[a := st_db (account_db_txt_calloc None)]> (heap w)) (w_sched w) (disk w) (w_inited w).

(** [account_db_txt_init] on the object at [a]: the file is read; only a
    successful load reaches [add_timer_interval] with [(int)db]. *)
Definition rt_init (a : Z) (w : world) : world :=
  let '(tid, sc') := add_timer_interval (w_sched w) MmoAuthSyncTimer (ptr_to_int a) AUTH_SAVING_INTERVAL in
  match account_db_txt_init (fs_live (disk w)) tid with
  | (true, s') => mk_world (<[a := st_db s']> (heap w)) sc' (disk w) ({[a]} ∪ w_inited w)
  | (false, s') => mk_world (<[a := st_db s']> (heap w)) (w_sched w) (disk w) ({[a]} ∪ w_inited w)
  end.

(** The state-changing calls of the vtable after [init]. *)
Inductive txt_call := CallCreate (acc : mmo_account) | CallRemove (id : Z) | CallSave (acc : mmo_account).

Definition txt_op (ok : bool) (c : txt_call) (s : txt_state) : bool * txt_state :=
  match c with
  | CallCreate acc => account_db_txt_create ok acc s
  | CallRemove id => account_db_txt_remove ok id s
  | CallSave acc => account_db_txt_save ok acc s
  end.

(** A call on the object at [a], over the live file; [None] is undefined
    behaviour (no object there). *)
Definition rt_call (ok : bool) (c : txt_call) (a : Z) (w : world) : option world :=
  o ← heap w !! a;
  let s' := (txt_op ok c (mk_state o (fs_live (disk w)))).2 in
  Some (mk_world (<[a := st_db s']> (heap w)) (w_sched w)
          (mk_fs (st_file s') (fs_tmp (disk w))) (w_inited w)).

(** The scheduler fires timer [tid]: [mmo_auth_sync_timer] runs on the
    object its [data] word designates. *)
Definition rt_tick (ok : bool) (tid : Z) (w : world) : option world :=
  match timers (w_sched w) !! tid with
  | None => Some w
  | Some t =>
      o ← heap w !! target t;
      let s' := mmo_auth_sync_timer ok (mk_state o (fs_live (disk w))) in
      Some (mk_world (<[target t := st_db s']> (heap w)) (w_sched w)
              (mk_fs (st_file s') (fs_tmp (disk w))) (w_inited w))
  end.

(** [account_db_txt_free] (lines 163-182): [delete_timer], the flush,
    then [aFree]. *)
Definition rt_free (ok : bool) (a : Z) (w : world) : option world :=
  o ← heap w !! a;
  let sc' := delete_timer (w_sched w) (save_timer o) MmoAuthSyncTimer in
  let s' := mmo_auth_sync ok (mk_state o (fs_live (disk w))) in
  Some (mk_world (delete a (heap w)) sc' (mk_fs (st_file s') (fs_tmp (disk w)))
          (w_inited w ∖ {[a]})).

(** The service's life cycle: objects at addresses below [amax], each
    initialised once before its other calls and its [free]; the
    scheduler fires any timer at any moment. *)
Inductive rt_step (ok : bool) (amax : Z) : world -> world -> Prop :=
| rs_new a w : heap w !! a = None -> 0 < a < amax -> rt_step ok amax w (rt_new a w)
| rs_init a w : is_Some (heap w !! a) -> a ∉ w_inited w -> rt_step ok amax w (rt_init a w)
| rs_call c a w w' : a ∈ w_inited w -> rt_call ok c a w = Some w' -> rt_step ok amax w w'
| rs_tick tid w w' : rt_tick ok tid w = Some w' -> rt_step ok amax w w'
| rs_free a w w' : a ∈ w_inited w -> rt_free ok a w = Some w' -> rt_step ok amax w w'.

(** The world before the service starts: the accounts file on disk. *)
Definition rt_start (f : fs) : world := mk_world ∅ (mk_sched ∅ 0) f ∅.

(** *** Lemmas on the calls *)

Lemma line_app_lf l acc : (l +:+ String LF "") +:+ acc = l +:+ String LF acc.
Proof. by rewrite <- str_app_assoc. Qed.

Lemma io_run_app f cs1 cs2 : io_run f (cs1 ++ cs2) = io_run (io_run f cs1) cs2.
Proof. apply foldl_app. Qed.

Lemma io_run_lines live b ls :
  io_run (mk_fs live (Some b)) ((fun l => Fprintf (l +:+ String LF "")) <$> ls) =
    mk_fs live (Some (b +:+ lines_text ls)).
Proof.
  unfold io_run. revert b. induction ls as [|l ls IH]; intros b;
    cbn [fmap list_fmap foldl io_step fs_live fs_tmp default lines_text foldr].
  - by rewrite str_app_nil_r.
  - rewrite IH, <- str_app_assoc, line_app_lf. reflexivity.
Qed.

(** Writes never touch the live file. *)
Lemma io_run_writes_live f cs :
  Forall (fun c => exists t, c = Fprintf t) cs -> fs_live (io_run f cs) = fs_live f.
Proof.
  revert f. induction cs as [|c cs IH]; intros f Hcs; [reflexivity|].
  apply Forall_cons in Hcs as [[t ->] Hcs]. cbn. rewrite IH by exact Hcs. reflexivity.
Qed.

(** The whole sequence: the dump published, no temporary file left. *)
Lemma io_run_sync_calls live d :
  io_run (mk_fs live (Some "")) (sync_calls d) = mk_fs (Some (mmo_auth_dump d)) None.
Proof. unfold sync_calls. rewrite io_run_app, io_run_lines. reflexivity. Qed.

Lemma sync_calls_length d : length (sync_calls d) = S (length (dump_lines d)).
Proof. unfold sync_calls. rewrite length_app, length_fmap. cbn. lia. Qed.

(** ** [mmo_auth_sync] publishes atomically *)

(** [mmo_auth_sync] over the file system refines the one-step flush
    of [AccountTxt]: the database and the live file it leaves are those of
    [mmo_auth_sync]; a successful flush leaves no temporary file, a failed
    [lock_fopen] leaves the file system as it was. *)
Theorem mmo_auth_sync_fs_refines ok d f :
  mk_state (mmo_auth_sync_fs ok d f).1 (fs_live (mmo_auth_sync_fs ok d f).2) =
    mmo_auth_sync ok (mk_state d (fs_live f)) /\
  (mmo_auth_sync_fs ok d f).2 = if ok then mk_fs (Some (mmo_auth_dump d)) None else f.
Proof.
  destruct ok; unfold mmo_auth_sync_fs, lock_fopen; cbn [fst snd];
    [rewrite io_run_sync_calls|]; split; reflexivity.
Qed.

(** A crash at any point of the flush leaves a readable file: after
    the first [k] calls on the handle the live file is the previous one
    until [lock_fclose] runs, and the complete dump once it has. *)
Theorem mmo_auth_sync_crash_safe d f k :
  (k <= length (sync_calls d))%nat ->
  fs_live (io_run (mk_fs (fs_live f) (Some "")) (take k (sync_calls d))) =
    if (k <? length (sync_calls d))%nat then fs_live f else Some (mmo_auth_dump d).
Proof.
  intros Hk. destruct (Nat.ltb_spec k (length (sync_calls d))) as [Hlt|Hge].
  - rewrite sync_calls_length in Hlt. unfold sync_calls.
    rewrite take_app_le by (rewrite length_fmap; lia).
    rewrite io_run_writes_live; [reflexivity|].
    apply Forall_take, Forall_fmap, Forall_true. eauto.
  - replace k with (length (sync_calls d)) by lia.
    rewrite take_ge by lia. by rewrite io_run_sync_calls.
Qed.

(** ** The life cycle keeps every timer on a live object *)

(** Every registered timer designates (through its data word) a live,
    initialised object whose [save_timer] is that timer; every
    initialised object's [save_timer] is [INVALID_TIMER] or a timer
    designating it; initialised objects are live and live objects sit
    below [amax]. *)
Record rt_inv (amax : Z) (w : world) : Prop := {
  inv_timers tid t : timers (w_sched w) !! tid = Some t ->
    0 <= tid < next_tid (w_sched w) /\ target t ∈ w_inited w /\
    exists o, heap w !! target t = Some o /\ save_timer o = tid;
  inv_owner a o : heap w !! a = Some o -> a ∈ w_inited w ->
    save_timer o = INVALID_TIMER \/
    exists t, timers (w_sched w) !! save_timer o = Some t /\ target t = a;
  inv_inited : w_inited w ⊆ dom (heap w);
  inv_next : 0 <= next_tid (w_sched w);
  inv_addr a o : heap w !! a = Some o -> 0 < a < amax
}.

(** The casts give the address back when it fits in an [int]. *)
Lemma int_to_ptr_to_int a : 0 <= a < 2 ^ 31 -> int_to_ptr (ptr_to_int a) = a.
Proof.
  intros Ha. unfold ptr_to_int, int_to_ptr.
  rewrite int32_id by (unfold in_int, INT_MIN, INT_MAX; lia).
  apply wrap_unsigned_small; lia.
Qed.

Lemma sync_save_timer b s : save_timer (st_db (mmo_auth_sync b s)) = save_timer (st_db s).
Proof. by destruct b. Qed.

Lemma sync_timer_save_timer b s : save_timer (st_db (mmo_auth_sync_timer b s)) = save_timer (st_db s).
Proof. unfold mmo_auth_sync_timer. case_match; [apply sync_save_timer | reflexivity]. Qed.

Lemma txt_op_save_timer ok c s : save_timer (st_db (txt_op ok c s).2) = save_timer (st_db s).
Proof.
  destruct c; cbn; unfold account_db_txt_create, account_db_txt_remove, account_db_txt_save;
    repeat case_match; cbn; rewrite ?sync_save_timer; try reflexivity; by case_match.
Qed.

Lemma inited_live amax w a : rt_inv amax w -> a ∈ w_inited w -> is_Some (heap w !! a).
Proof. intros Hi Ha. apply elem_of_dom, (inv_inited _ _ Hi), Ha. Qed.

(** Replacing an object by one with the same [save_timer] keeps the
    invariant (the calls and the timer's callback). *)
Lemma rt_inv_update amax w a o o' f :
  rt_inv amax w -> heap w !! a = Some o -> save_timer o' = save_timer o ->
  rt_inv amax (mk_world (<[a := o']> (heap w)) (w_sched w) f (w_inited w)).
Proof.
  intros Hi Ha Ht. split; cbn.
  - intros tid t Htid. destruct (inv_timers _ _ Hi tid t Htid) as (Hr & Hin & o1 & Ho1 & Hs).
    split; [exact Hr|]. split; [exact Hin|].
    destruct (decide (target t = a)) as [Heq|Hne].
    + exists o'. rewrite Heq, lookup_insert_eq. rewrite Heq, Ha in Ho1. injection Ho1 as <-. by rewrite Ht.
    + exists o1. by rewrite lookup_insert_ne by congruence.
  - intros a' o2 Ho2 Hin. destruct (decide (a' = a)) as [->|Hne].
    + rewrite lookup_insert_eq in Ho2. injection Ho2 as <-. rewrite Ht. exact (inv_owner _ _ Hi a o Ha Hin).
    + rewrite lookup_insert_ne in Ho2 by congruence. exact (inv_owner _ _ Hi a' o2 Ho2 Hin).
  - rewrite dom_insert. pose proof (inv_inited _ _ Hi). set_solver.
  - exact (inv_next _ _ Hi).
  - intros a' o2 Ho2. destruct (decide (a' = a)) as [->|Hne]; [exact (inv_addr _ _ Hi a o Ha)|].
    rewrite lookup_insert_ne in Ho2 by congruence. exact (inv_addr _ _ Hi a' o2 Ho2).
Qed.

Lemma rt_inv_new amax w a :
  rt_inv amax w -> heap w !! a = None -> 0 < a < amax -> rt_inv amax (rt_new a w).
Proof.
  intros Hi Ha Hb. assert (Hn : a ∉ w_inited w).
  { intros Hin. destruct (inited_live _ _ _ Hi Hin) as [? H]. congruence. }
  split; cbn.
  - intros tid t Htid. destruct (inv_timers _ _ Hi tid t Htid) as (Hr & Hin & o1 & Ho1 & Hs).
    split; [exact Hr|]. split; [exact Hin|]. exists o1.
    by rewrite lookup_insert_ne by (intros ->; contradiction).
  - intros a' o2 Ho2 Hin. rewrite lookup_insert_ne in Ho2 by (intros ->; contradiction).
    exact (inv_owner _ _ Hi a' o2 Ho2 Hin).
  - rewrite dom_insert. pose proof (inv_inited _ _ Hi). set_solver.
  - exact (inv_next _ _ Hi).
  - intros a' o2 Ho2. destruct (decide (a' = a)) as [->|Hne]; [exact Hb|].
    rewrite lookup_insert_ne in Ho2 by congruence. exact (inv_addr _ _ Hi a' o2 Ho2).
Qed.

(** A timer that exists designates an initialised object, so not one
    that [init] is about to set up. *)
Lemma timer_target_ne amax w a tid t :
  rt_inv amax w -> a ∉ w_inited w -> timers (w_sched w) !! tid = Some t -> target t <> a.
Proof. intros Hi Hn Ht Heq. apply Hn. rewrite <- Heq. apply (inv_timers _ _ Hi tid t Ht). Qed.

Lemma rt_inv_init amax w a :
  amax <= 2 ^ 31 -> rt_inv amax w -> is_Some (heap w !! a) -> a ∉ w_inited w ->
  rt_inv amax (rt_init a w).
Proof.
  intros Hmax Hi [o Ha] Hn. pose proof (inv_addr _ _ Hi a o Ha) as Hb.
  assert (Htg : int_to_ptr (ptr_to_int a) = a) by (apply int_to_ptr_to_int; lia).
  unfold rt_init, add_timer_interval. cbn [fst snd].
  set (tid := next_tid (w_sched w)).
  destruct (fs_live (disk w)) as [text|] eqn:Ef; cbn [account_db_txt_init].
  - split; cbn.
    + intros tid' t Ht. destruct (decide (tid' = tid)) as [->|Hne].
      * rewrite lookup_insert_eq in Ht. injection Ht as <-. unfold target; cbn [tm_data].
        rewrite Htg. split; [pose proof (inv_next _ _ Hi); lia|]. split; [set_solver|].
        exists (set_timer (load_file text) tid). by rewrite lookup_insert_eq.
      * rewrite lookup_insert_ne in Ht by congruence.
        destruct (inv_timers _ _ Hi tid' t Ht) as (Hr & Hin & o1 & Ho1 & Hs).
        split; [lia|]. split; [set_solver|]. exists o1.
        by rewrite lookup_insert_ne by exact (not_eq_sym (timer_target_ne _ _ _ _ _ Hi Hn Ht)).
    + intros a' o2 Ho2 Hin. destruct (decide (a' = a)) as [->|Hne].
      * rewrite lookup_insert_eq in Ho2. injection Ho2 as <-. right. cbn.
        exists (mk_timer MmoAuthSyncTimer (ptr_to_int a) AUTH_SAVING_INTERVAL).
        rewrite lookup_insert_eq. unfold target. cbn. by rewrite Htg.
      * rewrite lookup_insert_ne in Ho2 by congruence.
        destruct (inv_owner _ _ Hi a' o2 Ho2 ltac:(set_solver)) as [Hv | (t & Ht & Hta)]; [by left|].
        right. exists t. split; [|exact Hta].
        rewrite lookup_insert_ne; [exact Ht|].
        pose proof (proj1 (inv_timers _ _ Hi _ _ Ht)). subst tid. lia.
    + rewrite dom_insert. pose proof (inv_inited _ _ Hi). set_solver.
    + pose proof (inv_next _ _ Hi). lia.
    + intros a' o2 Ho2. destruct (decide (a' = a)) as [->|Hne]; [exact Hb|].
      rewrite lookup_insert_ne in Ho2 by congruence. exact (inv_addr _ _ Hi a' o2 Ho2).
  - split; cbn.
    + intros tid' t Ht. destruct (inv_timers _ _ Hi tid' t Ht) as (Hr & Hin & o1 & Ho1 & Hs).
      split; [exact Hr|]. split; [set_solver|]. exists o1.
      by rewrite lookup_insert_ne by exact (not_eq_sym (timer_target_ne _ _ _ _ _ Hi Hn Ht)).
    + intros a' o2 Ho2 Hin. destruct (decide (a' = a)) as [->|Hne].
      * rewrite lookup_insert_eq in Ho2. injection Ho2 as <-. by left.
      * rewrite lookup_insert_ne in Ho2 by congruence.
        exact (inv_owner _ _ Hi a' o2 Ho2 ltac:(set_solver)).
    + rewrite dom_insert. pose proof (inv_inited _ _ Hi). set_solver.
    + exact (inv_next _ _ Hi).
    + intros a' o2 Ho2. destruct (decide (a' = a)) as [->|Hne]; [exact Hb|].
      rewrite lookup_insert_ne in Ho2 by congruence. exact (inv_addr _ _ Hi a' o2 Ho2).
Qed.

(** After [delete_timer(db->save_timer, ...)] no timer designates the
    object, and the other timers are untouched. *)
Lemma delete_timer_spec amax w a o tid t :
  rt_inv amax w -> heap w !! a = Some o -> a ∈ w_inited w ->
  timers (delete_timer (w_sched w) (save_timer o) MmoAuthSyncTimer) !! tid = Some t ->
  timers (w_sched w) !! tid = Some t /\ target t <> a.
Proof.
  intros Hi Ha Hin. unfold delete_timer.
  assert (Hown : forall tid t, timers (w_sched w) !! tid = Some t -> target t = a -> tid = save_timer o).
  { intros tid' t' Ht' Heq. destruct (inv_timers _ _ Hi tid' t' Ht') as (_ & _ & o1 & Ho1 & <-).
    rewrite Heq, Ha in Ho1. congruence. }
  destruct (timers (w_sched w) !! save_timer o) as [t0|] eqn:E0.
  - destruct (decide (tm_func t0 = MmoAuthSyncTimer)) as [_|Hf]; [|by destruct (tm_func t0)].
    cbn. rewrite lookup_delete_Some. intros [Hne Ht]. split; [exact Ht|].
    intros Heq. exact (Hne (eq_sym (Hown _ _ Ht Heq))).
  - intros Ht. split; [exact Ht|]. intros Heq. rewrite <- (Hown _ _ Ht Heq), Ht in E0. discriminate.
Qed.

Lemma rt_inv_free amax ok w a w' :
  rt_inv amax w -> a ∈ w_inited w -> rt_free ok a w = Some w' -> rt_inv amax w'.
Proof.
  intros Hi Hin. unfold rt_free. destruct (heap w !! a) as [o|] eqn:Ha; [|discriminate].
  cbn. intros [= <-]. split; cbn.
  - intros tid t Ht. destruct (delete_timer_spec _ _ _ _ _ _ Hi Ha Hin Ht) as [Ht0 Hne].
    destruct (inv_timers _ _ Hi tid t Ht0) as (Hr & Hin' & o1 & Ho1 & Hs).
    unfold delete_timer in *. split; [by repeat case_match|]. split; [set_solver|].
    exists o1. by rewrite lookup_delete_ne by congruence.
  - intros a' o2 Ho2 Hin'. apply lookup_delete_Some in Ho2 as [Hne Ho2].
    destruct (inv_owner _ _ Hi a' o2 Ho2 ltac:(set_solver)) as [Hv | (t & Ht & Hta)]; [by left|].
    right. exists t. split; [|exact Hta]. unfold delete_timer.
    destruct (timers (w_sched w) !! save_timer o) as [t0|] eqn:E0; [|exact Ht].
    case_match; [|exact Ht]. cbn. rewrite lookup_delete_ne; [exact Ht|].
    intros Heq. rewrite <- Heq in Ht. pose proof (proj1 (inv_timers _ _ Hi _ _ Ht)) as Hr.
    destruct (inv_owner _ _ Hi a o Ha Hin) as [Hv | (t1 & Ht1 & Hta1)].
    + unfold INVALID_TIMER in Hv. lia.
    + rewrite Ht in Ht1. injection Ht1 as <-. congruence.
  - rewrite dom_delete. pose proof (inv_inited _ _ Hi). set_solver.
  - unfold delete_timer. pose proof (inv_next _ _ Hi). by repeat case_match.
  - intros a' o2 Ho2. apply lookup_delete_Some in Ho2 as [_ Ho2]. exact (inv_addr _ _ Hi a' o2 Ho2).
Qed.

Lemma rt_inv_tick amax ok w tid w' :
  rt_inv amax w -> rt_tick ok tid w = Some w' -> rt_inv amax w'.
Proof.
  intros Hi. unfold rt_tick. destruct (timers (w_sched w) !! tid) as [t|] eqn:Ht; [|by intros [= <-]].
  destruct (heap w !! target t) as [o|] eqn:Ho; [|discriminate]. cbn. intros [= <-].
  apply (rt_inv_update _ _ _ o); [exact Hi | exact Ho | apply sync_timer_save_timer].
Qed.

Lemma rt_inv_call amax ok c w a w' :
  rt_inv amax w -> rt_call ok c a w = Some w' -> rt_inv amax w'.
Proof.
  intros Hi. unfold rt_call. destruct (heap w !! a) as [o|] eqn:Ho; [|discriminate]. cbn.
  intros [= <-]. apply (rt_inv_update _ _ _ o); [exact Hi | exact Ho | apply txt_op_save_timer].
Qed.

Lemma rt_inv_step ok amax w w' :
  amax <= 2 ^ 31 -> rt_inv amax w -> rt_step ok amax w w' -> rt_inv amax w'.
Proof.
  intros Hmax Hi Hs. destruct Hs.
  - by apply rt_inv_new.
  - by apply rt_inv_init.
  - by eapply rt_inv_call.
  - by eapply rt_inv_tick.
  - by eapply rt_inv_free.
Qed.

Lemma rt_inv_start amax f : rt_inv amax (rt_start f).
Proof. split; cbn; intros *; rewrite ?lookup_empty; try discriminate; set_solver || lia. Qed.

Lemma rt_inv_rtc ok amax f w :
  amax <= 2 ^ 31 -> rtc (rt_step ok amax) (rt_start f) w -> rt_inv amax w.
Proof.
  intros Hmax Hr. apply (rtc_ind_r (R := rt_step ok amax) (fun w => rt_inv amax w) (rt_start f)); [apply rt_inv_start| |exact Hr].
  intros x y _ Hxy Hx. exact (rt_inv_step _ _ _ _ Hmax Hx Hxy).
Qed.

(** C15. With every object at an address that fits in an [int] (as on the
    32-bit hosts the code was written for), every registered timer of
    every reachable world designates a live object whose [save_timer] is
    that timer, so no firing of the scheduler dereferences a freed or
    foreign object: [free]'s [delete_timer] always removes the object's
    own timer. *)
Theorem rt_timer_never_dangles ok amax f w :
  amax <= 2 ^ 31 -> rtc (rt_step ok amax) (rt_start f) w ->
  forall tid t, timers (w_sched w) !! tid = Some t ->
    (exists o, heap w !! target t = Some o /\ save_timer o = tid) /\ is_Some (rt_tick ok tid w).
Proof.
  intros Hmax Hr tid t Ht. pose proof (rt_inv_rtc _ _ _ _ Hmax Hr) as Hi.
  destruct (inv_timers _ _ Hi tid t Ht) as (_ & _ & o & Ho & Hs).
  split; [eauto|]. unfold rt_tick. rewrite Ht, Ho. eauto.
Qed.

(** C16. What a firing does in every reachable world (addresses that fit
    in an [int], [lock_fopen] working): the timer reaches its own object;
    when that object has unflushed saves the firing writes the dump of its
    database to the live file and resets its counter, and when it has none
    the world is left as it was. *)
Theorem rt_tick_flushes_dirty amax f w tid t :
  amax <= 2 ^ 31 -> rtc (rt_step true amax) (rt_start f) w ->
  timers (w_sched w) !! tid = Some t ->
  exists o, heap w !! target t = Some o /\ save_timer o = tid /\
    if auths_before_save o <? AUTHS_BEFORE_SAVE then
      exists w', rt_tick true tid w = Some w' /\ fs_live (disk w') = Some (mmo_auth_dump o) /\
        heap w' !! target t = Some (set_counter o AUTHS_BEFORE_SAVE)
    else rt_tick true tid w = Some w.
Proof.
  intros Hmax Hr Ht. pose proof (rt_inv_rtc _ _ _ _ Hmax Hr) as Hi.
  destruct (inv_timers _ _ Hi tid t Ht) as (_ & _ & o & Ho & Hs).
  exists o. split; [exact Ho|]. split; [exact Hs|]. unfold rt_tick. rewrite Ht, Ho. cbn.
  unfold mmo_auth_sync_timer. cbn [st_db].
  destruct (auths_before_save o <? AUTHS_BEFORE_SAVE).
  - eexists. split; [reflexivity|]. cbn. split; [reflexivity|]. by rewrite lookup_insert_eq.
  - f_equal. destruct w as [hp sc dk ini]. cbn in *. f_equal.
    + by rewrite insert_id.
    + by destruct dk.
Qed.

(** C17. On a 64-bit host the [(int)db] cast of line 157 loses the high
    bits of the address: once the allocator may return an address of
    [2^31] or more, a world is reachable (construct, [init] on a present
    file) in which the scheduler's first firing of the flush timer
    dereferences an address where no object lives. *)
Theorem rt_high_address_tick_undef ok amax f text :
  2 ^ 31 < amax -> fs_live f = Some text ->
  exists w tid, rtc (rt_step ok amax) (rt_start f) w /\ rt_tick ok tid w = None.
Proof.
  intros Hmax Hf. change (2 ^ 31) with 2147483648 in Hmax. set (a := 2147483648).
  exists (rt_init a (rt_new a (rt_start f))), 0. split.
  - eapply rtc_l; [apply (rs_new ok amax a); [reflexivity | unfold a in *; lia]|].
    eapply rtc_l; [apply (rs_init ok amax a); [cbn; rewrite lookup_insert_eq; eauto | cbn; set_solver]|].
    apply rtc_refl.
  - unfold rt_init, rt_new, rt_start, add_timer_interval. cbn [w_sched next_tid timers disk fst snd].
    rewrite Hf. cbn [account_db_txt_init]. unfold rt_tick. cbn [w_sched timers heap].
    rewrite lookup_insert_eq. unfold target. cbn [tm_data].
    replace (int_to_ptr (ptr_to_int a)) with 18446744071562067968 by reflexivity.
    rewrite lookup_insert_ne by (unfold a; lia). rewrite lookup_insert_ne by (unfold a; lia).
    reflexivity.
Qed.

(** ** Witnesses *)

(** An empty accounts file, no temporary file. *)
Definition sample_fs : fs := mk_fs (Some "") None.

(** One object at address 1, initialised on the empty file. *)
Definition sample_world : world := rt_init 1 (rt_new 1 (rt_start sample_fs)).

Lemma sample_world_reachable : rtc (rt_step true (2 ^ 31)) (rt_start sample_fs) sample_world.
Proof.
  eapply rtc_l; [apply (rs_new true (2 ^ 31) 1); [reflexivity | lia]|].
  eapply rtc_l; [apply (rs_init true (2 ^ 31) 1); [cbn; rewrite lookup_insert_eq; eauto | cbn; set_solver]|].
  apply rtc_refl.
Qed.

Lemma rt_timer_never_dangles_witness :
  2 ^ 31 <= 2 ^ 31 /\ rtc (rt_step true (2 ^ 31)) (rt_start sample_fs) sample_world /\
  forall tid t, timers (w_sched sample_world) !! tid = Some t ->
    (exists o, heap sample_world !! target t = Some o /\ save_timer o = tid) /\
    is_Some (rt_tick true tid sample_world).
Proof.
  split; [lia|]. split; [exact sample_world_reachable|].
  exact (rt_timer_never_dangles true (2 ^ 31) sample_fs sample_world (Z.le_refl _) sample_world_reachable).
Defined.

Lemma rt_tick_flushes_dirty_witness :
  2 ^ 31 <= 2 ^ 31 /\ rtc (rt_step true (2 ^ 31)) (rt_start sample_fs) sample_world /\
  timers (w_sched sample_world) !! 0 = Some (mk_timer MmoAuthSyncTimer 1 AUTH_SAVING_INTERVAL) /\
  exists o, heap sample_world !! target (mk_timer MmoAuthSyncTimer 1 AUTH_SAVING_INTERVAL) = Some o /\
    save_timer o = 0 /\
    if auths_before_save o <? AUTHS_BEFORE_SAVE then
      exists w', rt_tick true 0 sample_world = Some w' /\ fs_live (disk w') = Some (mmo_auth_dump o) /\
        heap w' !! target (mk_timer MmoAuthSyncTimer 1 AUTH_SAVING_INTERVAL) =
          Some (set_counter o AUTHS_BEFORE_SAVE)
    else rt_tick true 0 sample_world = Some sample_world.
Proof.
  assert (Ht : timers (w_sched sample_world) !! 0 = Some (mk_timer MmoAuthSyncTimer 1 AUTH_SAVING_INTERVAL))
    by (vm_compute; reflexivity).
  split; [lia|]. split; [exact sample_world_reachable|]. split; [exact Ht|].
  exact (rt_tick_flushes_dirty (2 ^ 31) sample_fs sample_world 0 _ (Z.le_refl _) sample_world_reachable Ht).
Defined.

Lemma rt_high_address_tick_undef_witness :
  2 ^ 31 < 2 ^ 64 /\ fs_live sample_fs = Some "" /\
  exists w tid, rtc (rt_step true (2 ^ 64)) (rt_start sample_fs) w /\ rt_tick true tid w = None.
Proof.
  split; [lia|]. split; [reflexivity|].
  exact (rt_high_address_tick_undef true (2 ^ 64) sample_fs "" ltac:(lia) eq_refl).
Defined.

Lemma mmo_auth_sync_crash_safe_witness :
  (3 <= length (sync_calls db_initial))%nat /\
  fs_live (io_run (mk_fs (fs_live sample_fs) (Some "")) (take 3 (sync_calls db_initial))) =
    if (3 <? length (sync_calls db_initial))%nat then fs_live sample_fs
    else Some (mmo_auth_dump db_initial).
Proof.
  assert (H : (3 <= length (sync_calls db_initial))%nat) by (apply Nat.leb_le; vm_compute; reflexivity).
  split; [exact H|]. exact (mmo_auth_sync_crash_safe db_initial sample_fs 3 H).
Defined.

End Runtime.
