(* ===== verification/SqlModel.v ===== *)
(** * The SQL connection of the party backend

    [partydb_sql.c] talks to a MySQL server through [common/sql.c]
    ([Sql_Query], [Sql_QueryStr], [Sql_NextRow], [Sql_GetData],
    [Sql_NumRows], [Sql_FreeResult], [Sql_EscapeString(Len)] and the
    prepared statements [SqlStmt_Prepare/BindParam/Execute/LastInsertId]).
    Neither file is under [src/]; this file models them, and the part of
    the server the code relies on, from their documented semantics:
    - the server holds the two tables the backend uses (the party table,
      keyed by [party_id], and the [party_id] column of the character
      table, keyed by [char_id]), the table's [AUTO_INCREMENT] counter and
      the snapshot of an open transaction.  [START TRANSACTION] commits an
      open transaction implicitly and opens a new one; [ROLLBACK] restores
      the snapshot; the counter is not transactional (InnoDB never hands
      an id out twice, even after a rollback);
    - each statement the code issues is a constructor of [stmt], named
      after the query string it stands for, with the values the code
      formats into it; string values that the code escapes and quotes are
      carried as the escaped literal and lexed by the server ([lex_literal]);
    - every round trip to the server ([Sql_Query], [SqlStmt_Prepare],
      [SqlStmt_Execute]) can fail: the connection carries a list of fault
      flags, one consumed per round trip ([true] = the call returns
      [SQL_ERROR] and the statement has no effect), so theorems quantify
      over every pattern of failures;
    - the code's [do { ... break; ... } while(0)] blocks and the undefined
      behaviour of an out-of-range array index are the [Brk] and [Undef]
      outcomes of a small state monad [M St]; [St] is any state that holds
      the connection ([SqlHandle]), so an operation can also thread the
      caller's struct. *)

From S2P Require Import Prelude CLib.

(** ** Rows and the server *)

(** A row of the party table, without its key [party_id]. *)
Record party_row := mk_party_row {
  pr_name : string; pr_exp : Z; pr_item : Z; pr_leader_id : Z; pr_leader_char : Z
}.

(** The columns of the character table the backend reads or writes,
    without its key [char_id]. *)
Record char_row := mk_char_row { cr_account_id : Z; cr_party_id : Z }.

Record tables := mk_tables { t_party : gmap Z party_row; t_char : gmap Z char_row }.

Record server := mk_server {
  sv_tables : tables;
  sv_auto_inc : Z;            (** the party table's [AUTO_INCREMENT] *)
  sv_tx : option tables       (** the snapshot of the open transaction *)
}.

(** The state other sessions see, and the one a crash keeps. *)
Definition committed (sv : server) : tables :=
  match sv_tx sv with Some t => t | None => sv_tables sv end.

(** ** String literals: [Sql_EscapeString] and the server's lexer *)

Definition BACKSLASH : ascii := "092"%char.
Definition QUOTE : ascii := "039"%char.
Definition DQUOTE : ascii := "034"%char.
Definition CTRLZ : ascii := "026"%char.

(** [mysql_real_escape_string] on a single-byte character set. *)
Definition escape_char (c : ascii) : string :=
  if ascii_eqb c NUL then String BACKSLASH "0"
  else if ascii_eqb c LF then String BACKSLASH "n"
  else if ascii_eqb c CR then String BACKSLASH "r"
  else if ascii_eqb c BACKSLASH then String BACKSLASH ⌜BACKSLASH⌝
  else if ascii_eqb c QUOTE then String BACKSLASH ⌜QUOTE⌝
  else if ascii_eqb c DQUOTE then String BACKSLASH ⌜DQUOTE⌝
  else if ascii_eqb c CTRLZ then String BACKSLASH "Z"
  else ⌜c⌝.

Fixpoint sql_escape (s : string) : string :=
  match s with
  | EmptyString => EmptyString
  | String c r => escape_char c +:+ sql_escape r
  end.

(** The escape sequences of the server's string-literal syntax. *)
Definition unescape_char (e : ascii) : string :=
  if ascii_eqb e "0" then ⌜NUL⌝
  else if ascii_eqb e "n" then ⌜LF⌝
  else if ascii_eqb e "r" then ⌜CR⌝
  else if ascii_eqb e "t" then ⌜TAB⌝
  else if ascii_eqb e "b" then ⌜"008"%char⌝
  else if ascii_eqb e "Z" then ⌜CTRLZ⌝
  else if ascii_eqb e "%" || ascii_eqb e "_" then String BACKSLASH ⌜e⌝
  else ⌜e⌝.

(** The body of a quoted literal, after its opening quote: the value and
    the text after the closing quote; [None] when the literal is not closed. *)
Fixpoint lex_literal (s : string) : option (string * string) :=
  match s with
  | EmptyString => None
  | String c r =>
      if ascii_eqb c QUOTE then
        match r with
        | String c2 r2 =>
            if ascii_eqb c2 QUOTE
            then '(v, rest) ← lex_literal r2; Some (String QUOTE v, rest)
            else Some (EmptyString, r)
        | EmptyString => Some (EmptyString, EmptyString)
        end
      else if ascii_eqb c BACKSLASH then
        match r with
        | EmptyString => None
        | String e r2 => '(v, rest) ← lex_literal r2; Some (unescape_char e +:+ v, rest)
        end
      else '(v, rest) ← lex_literal r; Some (String c v, rest)
  end.

(** The value of the literal ['lit'] as the server reads it. *)
Definition literal_value (lit : string) : string :=
  match lex_literal (lit +:+ ⌜QUOTE⌝) with Some (v, _) => v | None => lit end.

(** The comparison of [WHERE name = [BINARY] '...']: byte equality with
    [BINARY], else the column's case-insensitive collation (ASCII case
    folding). *)
Definition ascii_upper (c : ascii) : ascii :=
  let n := nat_of_ascii c in
  if (97 <=? n)%nat && (n <=? 122)%nat then ascii_of_nat (n - 32) else c.

Fixpoint str_upper (s : string) : string :=
  match s with
  | EmptyString => EmptyString
  | String c r => String (ascii_upper c) (str_upper r)
  end.

Definition name_match (case_sensitive : bool) (stored given : string) : bool :=
  if case_sensitive then String.eqb stored given
  else String.eqb (str_upper stored) (str_upper given).

(** ** The statements of [partydb_sql.c] *)

(** Each constructor is one query string of the code; [%d] arguments are
    carried as numbers (the server reads back the decimal text [%d]
    prints), ['%s'] arguments as the escaped literal the code formats. *)
Inductive stmt :=
  | StartTransaction | Commit | Rollback
  (** [SELECT party_id,name,exp,item,leader_id,leader_char FROM party WHERE party_id = %d] *)
  | SelectParty (party_id : Z)
  (** [SELECT account_id,char_id FROM char WHERE party_id='%d'] *)
  | SelectMembers (party_id : Z)
  (** [SELECT party_id FROM party WHERE name= [BINARY] '%s'] *)
  | SelectPartyByName (binary : bool) (lit : string)
  (** [SELECT party_id FROM party], the query of [csdb_sql_iterator] *)
  | SelectPartyIds
  (** the prepared [INSERT INTO party (party_id,name,exp,item,leader_id,leader_char)
      VALUES (?,?,?,?,?,?)]; [None] binds [NULL] *)
  | InsertParty (party_id : option Z) (name : string) (exp item leader_id leader_char : Z)
  (** [UPDATE party SET name='%s', exp='%d', item='%d' WHERE party_id='%d'] *)
  | UpdatePartyBasic (party_id : Z) (lit : string) (exp item : Z)
  (** [UPDATE party SET leader_id='%d', leader_char='%d' WHERE party_id='%d'] *)
  | UpdatePartyLeader (party_id : Z) (leader_id leader_char : Z)
  (** [UPDATE char SET party_id='%d' WHERE account_id='%d' AND char_id='%d'] *)
  | SetCharParty (party_id account_id char_id : Z)
  (** [UPDATE char SET party_id='0' WHERE party_id='%d' AND account_id='%d' AND char_id='%d'] *)
  | ClearCharParty (party_id account_id char_id : Z)
  (** [UPDATE char SET party_id='0' WHERE party_id='%d'] *)
  | ClearPartyMembers (party_id : Z)
  (** [DELETE FROM party WHERE party_id='%d'] *)
  | DeleteParty (party_id : Z).

(** The statements that do not control the transaction. *)
Definition is_data_stmt (st : stmt) : bool :=
  match st with StartTransaction | Commit | Rollback => false | _ => true end.

(** The rows of a [SELECT] as the client library returns them: text. *)
Definition party_row_text (id : Z) (r : party_row) : list string :=
  [fmt_Z id; pr_name r; fmt_Z (pr_exp r); fmt_Z (pr_item r);
   fmt_Z (pr_leader_id r); fmt_Z (pr_leader_char r)].

(** The members of a party in the table's order. *)
Definition party_members (t : tables) (pid : Z) : list (Z * char_row) :=
  filter (fun kv => cr_party_id kv.2 = pid) (map_to_list (t_char t)).

Definition member_text (kv : Z * char_row) : list string :=
  [fmt_Z (cr_account_id kv.2); fmt_Z kv.1].

(** The parties whose name matches. *)
Definition parties_named (t : tables) (binary : bool) (name : string) : list Z :=
  (filter (fun kv => name_match binary (pr_name kv.2) name = true)
     (map_to_list (t_party t))).*1.

Definition set_party_table (t : tables) (m : gmap Z party_row) := mk_tables m (t_char t).
Definition set_char_table (t : tables) (m : gmap Z char_row) := mk_tables (t_party t) m.

Definition row_basic (name : string) (exp item : Z) (r : party_row) : party_row :=
  mk_party_row name exp item (pr_leader_id r) (pr_leader_char r).
Definition row_leader (lid lch : Z) (r : party_row) : party_row :=
  mk_party_row (pr_name r) (pr_exp r) (pr_item r) lid lch.
Definition char_join (pid acc : Z) (r : char_row) : char_row :=
  if cr_account_id r =? acc then mk_char_row acc pid else r.
Definition char_leave (pid acc : Z) (r : char_row) : char_row :=
  if (cr_account_id r =? acc) && (cr_party_id r =? pid) then mk_char_row acc 0 else r.
Definition char_clear (pid : Z) (r : char_row) : char_row :=
  if cr_party_id r =? pid then mk_char_row (cr_account_id r) 0 else r.

(** The effect of a data statement: the new tables, the new counter, the
    result rows and the id of an insert; [None] is an error of the server
    (a duplicate key). *)
Definition exec_data (st : stmt) (t : tables) (ai : Z)
    : option (tables * Z * list (list string) * Z) :=
  match st with
  | SelectParty pid =>
      Some (t, ai, match t_party t !! pid with
                   | Some r => [party_row_text pid r] | None => [] end, 0)
  | SelectMembers pid => Some (t, ai, member_text <$> party_members t pid, 0)
  | SelectPartyByName b lit =>
      Some (t, ai, (fun id => [fmt_Z id]) <$> parties_named t b (literal_value lit), 0)
  | SelectPartyIds => Some (t, ai, (fun kv => [fmt_Z kv.1]) <$> map_to_list (t_party t), 0)
  | InsertParty oid name exp item lid lch =>
      let id := match oid with Some i => i | None => ai end in
      match t_party t !! id with
      | Some _ => None
      | None => Some (set_party_table t (<[id := mk_party_row name exp item lid lch]> (t_party t)),
                      Z.max ai (id + 1), [], id)
      end
  | UpdatePartyBasic pid lit exp item =>
      Some (set_party_table t (alter (row_basic (literal_value lit) exp item) pid (t_party t)), ai, [], 0)
  | UpdatePartyLeader pid lid lch =>
      Some (set_party_table t (alter (row_leader lid lch) pid (t_party t)), ai, [], 0)
  | SetCharParty pid acc cid =>
      Some (set_char_table t (alter (char_join pid acc) cid (t_char t)), ai, [], 0)
  | ClearCharParty pid acc cid =>
      Some (set_char_table t (alter (char_leave pid acc) cid (t_char t)), ai, [], 0)
  | ClearPartyMembers pid =>
      Some (set_char_table t (char_clear pid <$> t_char t), ai, [], 0)
  | DeleteParty pid => Some (set_party_table t (delete pid (t_party t)), ai, [], 0)
  | StartTransaction | Commit | Rollback => Some (t, ai, [], 0)
  end.

(** A statement on the server, transactions included. *)
Definition exec_stmt (st : stmt) (sv : server) : option (server * list (list string) * Z) :=
  match st with
  | StartTransaction => Some (mk_server (sv_tables sv) (sv_auto_inc sv) (Some (sv_tables sv)), [], 0)
  | Commit => Some (mk_server (sv_tables sv) (sv_auto_inc sv) None, [], 0)
  | Rollback => Some (mk_server (committed sv) (sv_auto_inc sv) None, [], 0)
  | _ =>
      '(t, ai, rows, iid) ← exec_data st (sv_tables sv) (sv_auto_inc sv);
      Some (mk_server t ai (sv_tx sv), rows, iid)
  end.

(** ** The connection and the client library *)

(** The result set of the last query: the rows not fetched yet, the row
    count [mysql_num_rows] reports and the current row. *)
Record result_set := mk_rs { rs_rows : list (list string); rs_num : nat; rs_row : list string }.

Definition rs_empty : result_set := mk_rs [] 0 [].

Record conn := mk_conn {
  c_server : server;
  c_rs : result_set;
  c_insert_id : Z;          (** [mysql_stmt_insert_id] of the prepared statement *)
  c_faults : list bool      (** the outcome of each coming round trip *)
}.

Definition set_server (c : conn) (sv : server) := mk_conn sv (c_rs c) (c_insert_id c) (c_faults c).
Definition set_rs (c : conn) (rs : result_set) := mk_conn (c_server c) rs (c_insert_id c) (c_faults c).
Definition set_insert_id (c : conn) (i : Z) := mk_conn (c_server c) (c_rs c) i (c_faults c).

(** One round trip: whether it fails, and the connection without its flag. *)
Definition next_fault (c : conn) : bool * conn :=
  match c_faults c with
  | [] => (false, c)
  | b :: bs => (b, mk_conn (c_server c) (c_rs c) (c_insert_id c) bs)
  end.

(** A state that holds the connection: the connection alone, or the
    connection with the caller's output. *)
Class SqlHandle (St : Type) := {
  handle : St -> conn;
  set_handle : conn -> St -> St;
  handle_set c s : handle (set_handle c s) = c
}.

#[export] Program Instance conn_handle : SqlHandle conn := {| handle c := c; set_handle c _ := c |}.
Next Obligation. done. Qed.

#[export] Program Instance pair_handle {X} : SqlHandle (conn * X) :=
  {| handle s := s.1; set_handle c s := (c, s.2) |}.
Next Obligation. done. Qed.

(** *** The monad *)

(** [Brk] is the [break] out of the code's [do { } while(0)] block;
    [Undef] is undefined behaviour of the C code. *)
Inductive res (St A : Type) := Ok (a : A) (s : St) | Brk (s : St) | Undef.
Arguments Ok {St A}. Arguments Brk {St A}. Arguments Undef {St A}.

Definition M (St A : Type) : Type := St -> res St A.

#[export] Instance M_ret {St} : MRet (M St) := fun A a s => Ok a s.
#[export] Instance M_bind {St} : MBind (M St) := fun A B k m s =>
  match m s with Ok a s' => k a s' | Brk s' => Brk s' | Undef => Undef end.

Definition brk {St A} : M St A := fun s => Brk s.
Definition undef {St A} : M St A := fun _ => Undef.
Definition gets {St A} (f : St -> A) : M St A := fun s => Ok (f s) s.
Definition modify {St} (f : St -> St) : M St unit := fun s => Ok () (f s).

(** [do { body; result = true; } while(0)]: whether the body ran to its end. *)
Definition catch_break {St} (m : M St unit) : M St bool := fun s =>
  match m s with Ok _ s' => Ok true s' | Brk s' => Ok false s' | Undef => Undef end.

Section Client.
Context {St : Type} `{SqlHandle St}.

Definition on_conn (f : conn -> conn) : M St unit := modify (fun s => set_handle (f (handle s)) s).

(** [Sql_Query]/[Sql_QueryStr]: frees the previous result, sends the
    statement and stores its result; [true] is [SQL_SUCCESS]. *)
Definition Sql_Query (st : stmt) : M St bool := fun s =>
  let '(fail, c) := next_fault (set_rs (handle s) rs_empty) in
  if fail then Ok false (set_handle c s) else
  match exec_stmt st (c_server c) with
  | None => Ok false (set_handle c s)
  | Some (sv, rows, _) => Ok true (set_handle (set_rs (set_server c sv) (mk_rs rows (length rows) [])) s)
  end.

(** [Sql_NextRow]: [true] is [SQL_SUCCESS], [false] is [SQL_NO_DATA]. *)
Definition Sql_NextRow : M St bool := fun s =>
  let c := handle s in
  match rs_rows (c_rs c) with
  | row :: rows => Ok true (set_handle (set_rs c (mk_rs rows (rs_num (c_rs c)) row)) s)
  | [] => Ok false s
  end.

Definition Sql_GetData (col : nat) : M St string :=
  gets (fun s => nth col (rs_row (c_rs (handle s))) EmptyString).

Definition Sql_NumRows : M St nat := gets (fun s => rs_num (c_rs (handle s))).

Definition Sql_FreeResult : M St unit := on_conn (fun c => set_rs c rs_empty).

(** [SqlStmt_Prepare]: a round trip that can fail. *)
Definition SqlStmt_Prepare : M St bool := fun s =>
  let '(fail, c) := next_fault (handle s) in Ok (negb fail) (set_handle c s).

(** [SqlStmt_Execute] of the prepared statement with its bound values. *)
Definition SqlStmt_Execute (st : stmt) : M St bool := fun s =>
  let '(fail, c) := next_fault (handle s) in
  if fail then Ok false (set_handle c s) else
  match exec_stmt st (c_server c) with
  | None => Ok false (set_handle c s)
  | Some (sv, _, iid) => Ok true (set_handle (set_insert_id (set_server c sv) iid) s)
  end.

(** [SqlStmt_LastInsertId]: the id the last insert stored (generated, or
    explicit, as [mysql_stmt_insert_id] reports both). *)
Definition SqlStmt_LastInsertId : M St Z := gets (fun s => c_insert_id (handle s)).

(** The transaction pattern of [mmo_party_tosql] and [party_db_sql_remove]:
    [START TRANSACTION], the [do { } while(0)] body, then [COMMIT] when the
    body ran to its end and [ROLLBACK] otherwise; a failed [COMMIT] or
    [ROLLBACK] makes the call fail. *)
Definition sql_transaction (body : M St unit) : M St bool :=
  ok ← Sql_Query StartTransaction;
  if negb ok then mret false else
  result ← catch_break body;
  ok ← Sql_Query (if result then Commit else Rollback);
  mret (result && ok).

End Client.

(** ** Lemmas *)

Create HintDb sqlm.
#[export] Hint Rewrite @handle_set : eathena_rw.

(** *** Escaping *)

Lemma lex_escape_char c x :
  lex_literal (escape_char c +:+ x) = '(v, rest) ← lex_literal x; Some (String c v, rest).
Proof. destruct c as [[] [] [] [] [] [] [] []]; reflexivity. Qed.

Lemma escape_char_length c : (String.length (escape_char c) <= 2)%nat.
Proof. destruct c as [[] [] [] [] [] [] [] []]; vm_compute; lia. Qed.

Lemma lex_literal_escape_app s x :
  lex_literal (sql_escape s +:+ x) = '(v, rest) ← lex_literal x; Some (s +:+ v, rest).
Proof.
  induction s as [|c s IH]; simpl.
  - rewrite str_app_nil_l. destruct (lex_literal x) as [[??]|]; reflexivity.
  - rewrite <- str_app_assoc, lex_escape_char, IH. destruct (lex_literal x) as [[??]|]; reflexivity.
Qed.

Lemma lex_literal_close rest :
  (forall r, rest <> String QUOTE r) -> lex_literal (String QUOTE rest) = Some (EmptyString, rest).
Proof.
  intros Hr. destruct rest as [|c r]; [reflexivity|]. simpl.
  destruct (ascii_eqb c QUOTE) eqn:E; [|reflexivity].
  apply Ascii.eqb_eq in E. subst. by destruct (Hr r).
Qed.

(** The escaped text of [s] followed by a closing quote is read back by the
    server as [s], and the statement resumes right after the quote: no
    value passed through [Sql_EscapeString] can end the literal early. *)
Lemma lex_literal_escape s rest :
  (forall r, rest <> String QUOTE r) ->
  lex_literal (sql_escape s +:+ String QUOTE rest) = Some (s, rest).
Proof.
  intros Hr. rewrite lex_literal_escape_app, lex_literal_close by exact Hr.
  simpl. by rewrite str_app_nil_r.
Qed.

Lemma literal_value_escape s : literal_value (sql_escape s) = s.
Proof.
  unfold literal_value. rewrite lex_literal_escape_app. simpl. by rewrite str_app_nil_r.
Qed.

Lemma sql_escape_length s : (String.length (sql_escape s) <= 2 * String.length s)%nat.
Proof.
  induction s as [|c s IH]; simpl; [lia|].
  rewrite str_length_app. pose proof (escape_char_length c). lia.
Qed.

(** *** Programs that respect a relation on the server *)

(** [stmt_respects R st]: every execution of [st] relates the server before
    to the server after. *)
Definition stmt_respects (R : relation server) (st : stmt) : Prop :=
  forall sv sv' rows iid, exec_stmt st sv = Some (sv', rows, iid) -> R sv sv'.

Section Respects.
Context {St : Type} `{SqlHandle St}.
Context (R : relation server) `{!PreOrder R}.

Definition server_of (s : St) : server := c_server (handle s).
Definition tx_of (s : St) : option tables := sv_tx (server_of s).
Definition tables_of (s : St) : tables := sv_tables (server_of s).

(** A program whose every run, broken off or not, relates the server
    before to the server after. *)
Definition respects {A} (m : M St A) : Prop :=
  forall s, match m s with
            | Ok _ s' | Brk s' => R (server_of s) (server_of s')
            | Undef => True
            end.

Lemma respects_ret {A} (a : A) : respects (mret a).
Proof. intros s. simpl. reflexivity. Qed.

Lemma respects_bind {A B} (m : M St A) (k : A -> M St B) :
  respects m -> (forall a, respects (k a)) -> respects (m ≫= k).
Proof.
  intros Hm Hk s. unfold mbind, M_bind. specialize (Hm s).
  destruct (m s) as [a s1|s1|]; [|done|done].
  specialize (Hk a s1). destruct (k a s1); [etrans; eauto..|done].
Qed.

Lemma respects_brk {A} : respects (@brk St A).
Proof. intros s. simpl. reflexivity. Qed.

Lemma respects_undef {A} : respects (@undef St A).
Proof. intros s. exact I. Qed.

Lemma respects_gets {A} (f : St -> A) : respects (gets f).
Proof. intros s. simpl. reflexivity. Qed.

Lemma respects_modify (f : St -> St) :
  (forall s, server_of (f s) = server_of s) -> respects (modify f).
Proof. intros Hf s. simpl. rewrite Hf. reflexivity. Qed.

Lemma next_fault_server c : c_server (next_fault c).2 = c_server c.
Proof. unfold next_fault. by destruct (c_faults c). Qed.

Lemma respects_Sql_Query st : stmt_respects R st -> respects (Sql_Query st).
Proof.
  intros Hst s. unfold Sql_Query, server_of.
  pose proof (next_fault_server (set_rs (handle s) rs_empty)) as Hs.
  destruct (next_fault _) as [[] c]; simpl in *; autorewrite with eathena_rw; [by rewrite Hs|].
  destruct (exec_stmt st (c_server c)) as [[[sv rows] iid]|] eqn:E; autorewrite with eathena_rw;
    [|by rewrite Hs].
  simpl. rewrite <- Hs. by eapply Hst.
Qed.

Lemma respects_SqlStmt_Execute st : stmt_respects R st -> respects (SqlStmt_Execute st).
Proof.
  intros Hst s. unfold SqlStmt_Execute, server_of.
  pose proof (next_fault_server (handle s)) as Hs.
  destruct (next_fault _) as [[] c]; simpl in *; autorewrite with eathena_rw; [by rewrite Hs|].
  destruct (exec_stmt st (c_server c)) as [[[sv rows] iid]|] eqn:E; autorewrite with eathena_rw;
    [|by rewrite Hs].
  simpl. rewrite <- Hs. by eapply Hst.
Qed.

Lemma respects_SqlStmt_Prepare : respects SqlStmt_Prepare.
Proof.
  intros s. unfold SqlStmt_Prepare, server_of. pose proof (next_fault_server (handle s)) as Hs.
  destruct (next_fault _) as [b c]. simpl in *. autorewrite with eathena_rw. by rewrite Hs.
Qed.

Lemma respects_Sql_NextRow : respects Sql_NextRow.
Proof.
  intros s. unfold Sql_NextRow, server_of.
  destruct (rs_rows _); [simpl; reflexivity|]. by autorewrite with eathena_rw.
Qed.

Lemma respects_on_conn f : (forall c, c_server (f c) = c_server c) -> respects (on_conn f).
Proof. intros Hf s. unfold server_of. simpl. autorewrite with eathena_rw. by rewrite Hf. Qed.

Lemma respects_Sql_FreeResult : respects Sql_FreeResult.
Proof. by apply respects_on_conn. Qed.

Lemma respects_catch_break (m : M St unit) : respects m -> respects (catch_break m).
Proof. intros Hm s. specialize (Hm s). unfold catch_break. by destruct (m s). Qed.

End Respects.

(** The relation of a program that leaves the transaction snapshot alone. *)
Definition same_tx : relation server := fun a b => sv_tx b = sv_tx a.

#[export] Instance same_tx_preorder : PreOrder same_tx.
Proof. split; unfold same_tx; [done | intros ???; congruence]. Qed.

(** A data statement changes the tables and the counter, nothing else. *)
Lemma exec_stmt_data st sv :
  is_data_stmt st = true ->
  exec_stmt st sv = '(t, ai, rows, iid) ← exec_data st (sv_tables sv) (sv_auto_inc sv);
                    Some (mk_server t ai (sv_tx sv), rows, iid).
Proof. by destruct st. Qed.

Lemma data_stmt_same_tx st : is_data_stmt st = true -> stmt_respects same_tx st.
Proof.
  intros Hd sv sv' rows iid. unfold same_tx. rewrite exec_stmt_data by done.
  destruct (exec_data _ _ _) as [[[[??]?]?]|]; [|discriminate]. by intros [= <- _ _].
Qed.

#[export] Hint Resolve respects_ret respects_brk respects_undef respects_gets
  respects_SqlStmt_Prepare respects_Sql_NextRow respects_Sql_FreeResult
  respects_catch_break : sqlm.
#[export] Hint Extern 1 (respects _ (Sql_Query _)) => apply respects_Sql_Query : sqlm.
#[export] Hint Extern 1 (respects _ (SqlStmt_Execute _)) => apply respects_SqlStmt_Execute : sqlm.
#[export] Hint Extern 1 (stmt_respects same_tx _) => apply data_stmt_same_tx; reflexivity : sqlm.

(** Proves [respects] of a program built from the client primitives. *)
Ltac respects_solve :=
  repeat first
    [ solve [eauto with sqlm typeclass_instances]
    | apply respects_bind; [..|intros ?];
        try match goal with |- PreOrder _ => typeclasses eauto end
    | match goal with |- respects _ (if ?b then _ else _) => destruct b end
    | match goal with |- respects _ (match ?x with _ => _ end) => destruct x end
    | progress cbv zeta
    | solve [eauto with sqlm typeclass_instances] ].

(** *** Atomicity of the transaction pattern *)

Section Atomic.
Context {St : Type} `{SqlHandle St}.

(** [Sql_Query] either fails with no effect on the server or performs the
    statement. *)
Lemma Sql_Query_spec st s :
  exists b s', Sql_Query st s = Ok b s' /\
    if b then exists rows iid, exec_stmt st (c_server (handle s)) = Some (c_server (handle s'), rows, iid)
    else c_server (handle s') = c_server (handle s).
Proof.
  unfold Sql_Query. pose proof (next_fault_server (set_rs (handle s) rs_empty)) as Hs.
  destruct (next_fault _) as [[] c]; simpl in *.
  - eexists _, _. split; [reflexivity|]. by autorewrite with eathena_rw.
  - destruct (exec_stmt st (c_server c)) as [[[sv rows] iid]|] eqn:E.
    + eexists _, _. split; [reflexivity|]. autorewrite with eathena_rw. simpl. rewrite <- Hs. eauto.
    + eexists _, _. split; [reflexivity|]. by autorewrite with eathena_rw.
Qed.

(** Whatever statements fail, a body that leaves the snapshot alone is
    committed entirely or not at all: when [sql_transaction] reports failure
    the committed tables are those before the call (a failed [COMMIT] or
    [ROLLBACK] leaves the transaction open, its snapshot still the committed
    state); when it reports success the transaction is closed and the
    tables are those the body produced. *)
Lemma sql_transaction_atomic (body : M St unit) s :
  respects same_tx body -> tx_of s = None ->
  match sql_transaction body s with
  | Ok false s' => committed (c_server (handle s')) = tables_of s
  | Ok true s' => tx_of s' = None /\
      exists s1 s2, Sql_Query StartTransaction s = Ok true s1 /\ body s1 = Ok () s2 /\
                    tables_of s' = tables_of s2
  | Brk _ => False
  | Undef => True
  end.
Proof.
  intros Hb Hn. unfold sql_transaction, mbind, M_bind.
  destruct (Sql_Query_spec StartTransaction s) as (b & s1 & E1 & H1). rewrite E1.
  destruct b; simpl.
  2: { unfold committed, tables_of, tx_of, server_of, same_tx in *. by rewrite H1, Hn. }
  destruct H1 as (rows & iid & H1). simpl in H1. injection H1 as H1 _ _.
  specialize (Hb s1). unfold catch_break. destruct (body s1) as [[] s2|s2|] eqn:Eb; simpl; [| |done].
  - destruct (Sql_Query_spec Commit s2) as (b & s3 & E3 & H3). rewrite E3. destruct b; simpl.
    + destruct H3 as (? & ? & H3). injection H3 as H3 _ _. unfold tx_of, tables_of, server_of.
      rewrite <- H3. simpl. split; [done|]. eauto 10.
    + unfold committed, tables_of, tx_of, server_of, same_tx in *. rewrite H3, Hb, <- H1. reflexivity.
  - destruct (Sql_Query_spec Rollback s2) as (b & s3 & E3 & H3). rewrite E3. destruct b; simpl.
    + destruct H3 as (? & ? & H3). injection H3 as H3 _ _. unfold committed, tables_of, tx_of, server_of, same_tx in *.
      rewrite <- H3. simpl. rewrite Hb, <- H1. reflexivity.
    + unfold committed, tables_of, tx_of, server_of, same_tx in *. rewrite H3, Hb, <- H1. reflexivity.
Qed.
End Atomic.

(** *** The [AUTO_INCREMENT] invariant *)

(** Every party id, in the tables and in the snapshot, is below the
    counter, and the counter is positive: the next generated id is free. *)
Definition ids_below (ai : Z) (t : tables) : Prop := forall id, id ∈ dom (t_party t) -> id < ai.

Definition sv_inv (sv : server) : Prop :=
  0 < sv_auto_inc sv /\ ids_below (sv_auto_inc sv) (sv_tables sv) /\
  match sv_tx sv with Some t => ids_below (sv_auto_inc sv) t | None => True end.

Definition inv_rel : relation server := fun a b => sv_inv a -> sv_inv b.

#[export] Instance inv_rel_preorder : PreOrder inv_rel.
Proof. split; unfold inv_rel; [by intros ?| intros ??? H1 H2 ?; auto]. Qed.

Lemma ids_below_mono ai ai' t : ai <= ai' -> ids_below ai t -> ids_below ai' t.
Proof. intros ? Hb id Hid. specialize (Hb id Hid). lia. Qed.

Lemma ids_below_alter ai t f id :
  ids_below ai t -> ids_below ai (set_party_table t (alter f id (t_party t))).
Proof. intros Hb i. simpl. rewrite dom_alter_L. apply Hb. Qed.

Lemma ids_below_delete ai t id :
  ids_below ai t -> ids_below ai (set_party_table t (delete id (t_party t))).
Proof. intros Hb i. simpl. rewrite dom_delete_L, elem_of_difference. intros [? _]. by apply Hb. Qed.

Lemma ids_below_insert ai t id r :
  ids_below ai t -> ids_below (Z.max ai (id + 1)) (set_party_table t (<[id := r]> (t_party t))).
Proof.
  intros Hb i. simpl. rewrite dom_insert_L, elem_of_union, elem_of_singleton.
  intros [->|Hi]; [lia|]. specialize (Hb i Hi). lia.
Qed.

Lemma exec_data_inv st t ai t' ai' rows iid :
  exec_data st t ai = Some (t', ai', rows, iid) ->
  ai <= ai' /\ (ids_below ai t -> ids_below ai' t').
Proof.
  destruct st; simpl; try (intros [= <- <- _ _]; split; [lia|]);
    eauto using ids_below_alter, ids_below_delete.
  destruct (t_party t !! _); [discriminate|]. intros [= <- <- _ _].
  split; [lia|]. apply ids_below_insert.
Qed.

Lemma stmt_respects_inv st : stmt_respects inv_rel st.
Proof.
  intros sv sv' rows iid. unfold inv_rel, sv_inv.
  destruct (is_data_stmt st) eqn:Hd.
  - rewrite exec_stmt_data by done.
    destruct (exec_data _ _ _) as [[[[t ai] r] i]|] eqn:E; [|discriminate]. intros [= <- _ _]. simpl.
    apply exec_data_inv in E as [Hle Hb]. intros (? & ? & Htx). split; [lia|]. split; [auto|].
    destruct (sv_tx sv); eauto using ids_below_mono.
  - destruct st; try discriminate; simpl; intros [= <- _ _]; simpl; unfold committed;
      destruct (sv_tx sv); intros (? & ? & ?); repeat split; auto.
Qed.

#[export] Hint Resolve stmt_respects_inv : sqlm.

(** A transaction respects a relation every statement respects. *)
Lemma sql_transaction_respects {St} `{SqlHandle St} (R : relation server) `{!PreOrder R}
    (body : M St unit) :
  (forall st, stmt_respects R st) -> respects R body -> respects R (sql_transaction body).
Proof. intros HR Hb. unfold sql_transaction. respects_solve. Qed.

(** *** Programs free of undefined behaviour *)

Section Defined.
Context {St : Type} `{SqlHandle St}.

Definition defined {A} (m : M St A) : Prop :=
  forall s, match m s with Undef => False | _ => True end.

Lemma defined_ret {A} (a : A) : defined (mret a).
Proof. intros s. exact I. Qed.

Lemma defined_bind {A B} (m : M St A) (k : A -> M St B) :
  defined m -> (forall a, defined (k a)) -> defined (m ≫= k).
Proof.
  intros Hm Hk s. unfold mbind, M_bind. specialize (Hm s).
  destruct (m s) as [a s1|s1|]; [apply Hk|exact I|done].
Qed.

Lemma defined_brk {A} : defined (@brk St A).
Proof. intros s. exact I. Qed.

Lemma defined_gets {A} (f : St -> A) : defined (gets f).
Proof. intros s. exact I. Qed.

Lemma defined_modify f : defined (modify f).
Proof. intros s. exact I. Qed.

Lemma defined_Sql_Query st : defined (Sql_Query st).
Proof.
  intros s. unfold Sql_Query. destruct (next_fault _) as [[] c]; [exact I|].
  by destruct (exec_stmt _ _) as [[[??]?]|].
Qed.

Lemma defined_SqlStmt_Execute st : defined (SqlStmt_Execute st).
Proof.
  intros s. unfold SqlStmt_Execute. destruct (next_fault _) as [[] c]; [exact I|].
  by destruct (exec_stmt _ _) as [[[??]?]|].
Qed.

Lemma defined_SqlStmt_Prepare : defined SqlStmt_Prepare.
Proof. intros s. unfold SqlStmt_Prepare. by destruct (next_fault _). Qed.

Lemma defined_Sql_NextRow : defined Sql_NextRow.
Proof. intros s. unfold Sql_NextRow. by destruct (rs_rows _). Qed.

Lemma defined_Sql_FreeResult : defined Sql_FreeResult.
Proof. intros s. exact I. Qed.

Lemma defined_catch_break (m : M St unit) : defined m -> defined (catch_break m).
Proof. intros Hm s. specialize (Hm s). unfold catch_break. by destruct (m s). Qed.

End Defined.

#[export] Hint Resolve defined_ret defined_brk defined_gets defined_modify defined_Sql_Query
  defined_SqlStmt_Execute defined_SqlStmt_Prepare defined_Sql_NextRow defined_Sql_FreeResult
  defined_catch_break : sqlm.

(** Proves [defined] of a program built from the client primitives. *)
Ltac defined_solve :=
  repeat first
    [ solve [eauto with sqlm]
    | apply defined_bind; [|intros ?]
    | match goal with |- defined (if ?b then _ else _) => destruct b end
    | match goal with |- defined (match ?x with _ => _ end) => destruct x end
    | progress cbv zeta ].

Lemma sql_transaction_defined {St} `{SqlHandle St} (body : M St unit) :
  defined body -> defined (sql_transaction body).
Proof. intros Hb. unfold sql_transaction. defined_solve. Qed.


(** *** Programs that run to their end and keep a predicate *)

(** The predicates of interest are about the caller's part of the state
    (the struct a function fills), which the client library never
    touches: [HP] says that replacing the connection keeps them. *)
Section Runs.
Context {St : Type} `{SqlHandle St} (P : St -> Prop).

(** From every state satisfying [P], [m] returns normally (no [break], no
    undefined behaviour) in a state satisfying [P]. *)
Definition runs {A} (m : M St A) : Prop :=
  forall s, P s -> exists a s', m s = Ok a s' /\ P s'.

Lemma runs_ret {A} (a : A) : runs (mret a).
Proof. intros s Hs. eauto. Qed.

Lemma runs_bind {A B} (m : M St A) (k : A -> M St B) :
  runs m -> (forall a, runs (k a)) -> runs (m ≫= k).
Proof.
  intros Hm Hk s Hs. unfold mbind, M_bind.
  destruct (Hm s Hs) as (a & s1 & -> & Hs1). by apply Hk.
Qed.

Lemma runs_gets {A} (f : St -> A) : runs (gets f).
Proof. intros s Hs. eauto. Qed.

Lemma runs_modify f : (forall s, P s -> P (f s)) -> runs (modify f).
Proof. intros Hf s Hs. eexists _, _. split; [reflexivity|]. by apply Hf. Qed.

Context (HP : forall c s, P s -> P (set_handle c s)).

Lemma runs_Sql_Query st : runs (Sql_Query st).
Proof.
  intros s Hs. unfold Sql_Query. destruct (next_fault _) as [[] c]; [eauto|].
  destruct (exec_stmt _ _) as [[[??]?]|]; eauto.
Qed.

Lemma runs_SqlStmt_Execute st : runs (SqlStmt_Execute st).
Proof.
  intros s Hs. unfold SqlStmt_Execute. destruct (next_fault _) as [[] c]; [eauto|].
  destruct (exec_stmt _ _) as [[[??]?]|]; eauto.
Qed.

Lemma runs_SqlStmt_Prepare : runs SqlStmt_Prepare.
Proof. intros s Hs. unfold SqlStmt_Prepare. destruct (next_fault _). eauto. Qed.

Lemma runs_Sql_NextRow : runs Sql_NextRow.
Proof. intros s Hs. unfold Sql_NextRow. destruct (rs_rows _); eauto. Qed.

Lemma runs_Sql_FreeResult : runs Sql_FreeResult.
Proof. intros s Hs. unfold Sql_FreeResult, on_conn, modify. eauto. Qed.

End Runs.

#[export] Hint Resolve runs_ret runs_gets runs_Sql_Query runs_SqlStmt_Execute
  runs_SqlStmt_Prepare runs_Sql_NextRow runs_Sql_FreeResult : sqlm.

(** Proves [runs P] of a program built from the client primitives, given
    [HP] in the context. *)
Ltac runs_solve :=
  repeat first
    [ solve [eauto with sqlm]
    | apply runs_bind; [|intros ?]
    | match goal with |- runs _ (if ?b then _ else _) => destruct b end
    | match goal with |- runs _ (match ?x with _ => _ end) => destruct x end
    | progress cbv zeta ].
