(* ===== verification/CsdbIterator.v ===== *)
(** * The SQL key iterator: [csdb_sql_iterator]

    [party_db_sql_iterator] (partydb_sql.c) returns
    [csdb_sql_iterator(db->parties, db->party_db, "party_id")]; that
    function belongs to the character server's SQL layer, which is not
    under [src/].  It is modelled from the specification (sections 4.2
    and 4.4): a cursor over the key column of the table, one key per
    advance, with a terminal end-of-data state.  The key column is read
    into the iterator by one [SELECT] when the iterator is created, into
    an array of [Sql_NumRows] slots, so the cursor stays valid while the
    caller issues other queries on the same handle (it loads each party
    by the key it gets).  [next] advances the position over that array.

    The theorems show that the caller's loop [while (iter->next(iter,
    &key))] stops, after exactly as many keys as the array holds; that
    the iterator's well-formedness is established by its creation and
    kept by every advance; and that, with the query succeeding, the keys
    are those of the party table at creation time, each exactly once,
    every one of them reached after finitely many advances. *)

From S2P Require Import Prelude CLib SqlModel.

Module CSDBIter.

(** [struct CSDBIterator_SQL]: the keys read at creation, their number
    and the position of the last key returned ([-1] before the first). *)
Record CSDBIterator_SQL := mk_iter { ids_arr : list Z; ids_num : Z; pos : Z }.

(** The iterator of a failed query: no key. *)
Definition iter_empty : CSDBIterator_SQL := mk_iter [] 0 (-1).

(** The key of a row: [atoi] of its first column. *)
Definition row_key (row : list string) : Z := atoi (nth 0 row EmptyString).

(** [while (i < ids_num && SQL_SUCCESS == Sql_NextRow(sql_handle))
    { Sql_GetData(sql_handle, 0, &data, NULL); ids_arr[i++] = atoi(data); }]
    with [n] slots left. *)
Fixpoint read_ids (n : nat) : M conn (list Z) :=
  match n with
  | O => mret []
  | S n' =>
      ok ← Sql_NextRow;
      if negb ok then mret [] else
      d ← Sql_GetData 0;
      ids ← read_ids n';
      mret (atoi d :: ids)
  end.

(** [csdb_sql_iterator(sql_handle, table, column)] for the key query [q]:
    a failed query gives the empty iterator. *)
Definition csdb_sql_iterator (q : stmt) : M conn CSDBIterator_SQL :=
  ok ← Sql_Query q;
  if negb ok then Sql_FreeResult;; mret iter_empty else
  n ← Sql_NumRows;
  ids ← read_ids n;
  Sql_FreeResult;;
  mret (mk_iter ids (Z.of_nat n) (-1)).

(** [csdb_sql_iterator_next(self, &key)]: [None] is [false]. *)
Definition csdb_sql_iterator_next (it : CSDBIterator_SQL) : option Z * CSDBIterator_SQL :=
  if ids_num it <=? pos it + 1 then (None, it)
  else (Some (nth (Z.to_nat (pos it + 1)) (ids_arr it) 0),
        mk_iter (ids_arr it) (ids_num it) (pos it + 1)).

(** ** The caller's loop *)

(** The keys left: the loop's variant. *)
Definition iter_measure (it : CSDBIterator_SQL) : nat := Z.to_nat (ids_num it - (pos it + 1)).

(** [n] rounds of [while (iter->next(iter, &key)) { ... }]: the keys
    returned and the iterator after them. *)
Fixpoint iter_keys (n : nat) (it : CSDBIterator_SQL) : list Z * CSDBIterator_SQL :=
  match n with
  | O => ([], it)
  | S n' =>
      match csdb_sql_iterator_next it with
      | (None, it') => ([], it')
      | (Some k, it') => let '(ks, it'') := iter_keys n' it' in (k :: ks, it'')
      end
  end.

(** The iterator after [n] advances. *)
Fixpoint advance (n : nat) (it : CSDBIterator_SQL) : CSDBIterator_SQL :=
  match n with O => it | S n' => advance n' (csdb_sql_iterator_next it).2 end.

(** Well-formedness: the array holds [ids_num] keys and the position is
    inside it or just before it. *)
Definition iter_wf (it : CSDBIterator_SQL) : Prop :=
  Z.of_nat (length (ids_arr it)) = ids_num it /\ -1 <= pos it <= ids_num it - 1 \/
  it = iter_empty.

(** The keys not returned yet. *)
Definition remaining (it : CSDBIterator_SQL) : list Z := drop (Z.to_nat (pos it + 1)) (ids_arr it).

(** ** Lemmas *)

Lemma next_exhausted it : ids_num it <= pos it + 1 -> csdb_sql_iterator_next it = (None, it).
Proof. intros H. unfold csdb_sql_iterator_next. by rewrite (proj2 (Z.leb_le _ _) H). Qed.

Lemma next_step it :
  pos it + 1 < ids_num it ->
  csdb_sql_iterator_next it =
    (Some (nth (Z.to_nat (pos it + 1)) (ids_arr it) 0), mk_iter (ids_arr it) (ids_num it) (pos it + 1)).
Proof. intros H. unfold csdb_sql_iterator_next. by rewrite (proj2 (Z.leb_gt _ _) H). Qed.

Lemma read_ids_spec n c :
  exists rs, read_ids n c = Ok (row_key <$> take n (rs_rows (c_rs c))) (set_rs c rs).
Proof.
  revert c. induction n as [|n IH]; intros c.
  - exists (c_rs c). by destruct c as [? [] ? ?].
  - unfold read_ids; fold read_ids. unfold mbind, M_bind, mret, M_ret.
    unfold Sql_NextRow. cbn.
    destruct (rs_rows (c_rs c)) as [|row rows] eqn:Er; cbn.
    + exists (c_rs c). by destruct c as [? [] ? ?].
    + destruct (IH (set_rs c (mk_rs rows (rs_num (c_rs c)) row))) as [rs Hrs].
      unfold Sql_GetData, gets. cbn. cbn in Hrs. rewrite Hrs. cbn.
      exists rs. reflexivity.
Qed.

Lemma next_measure it k it' :
  csdb_sql_iterator_next it = (Some k, it') -> iter_measure it = S (iter_measure it').
Proof.
  unfold csdb_sql_iterator_next, iter_measure. destruct (Z.leb_spec (ids_num it) (pos it + 1)).
  - discriminate.
  - intros [= _ <-]. cbn. lia.
Qed.

Lemma measure_zero it : iter_measure it = O -> csdb_sql_iterator_next it = (None, it).
Proof. unfold iter_measure. intros. apply next_exhausted. lia. Qed.

Lemma measure_pos it :
  iter_measure it <> O ->
  csdb_sql_iterator_next it =
    (Some (nth (Z.to_nat (pos it + 1)) (ids_arr it) 0), mk_iter (ids_arr it) (ids_num it) (pos it + 1)).
Proof. unfold iter_measure. intros. apply next_step. lia. Qed.

(** Enough rounds of the loop return one key per slot left and leave the
    iterator at its end. *)
Lemma iter_keys_exhausts n it :
  (iter_measure it <= n)%nat ->
  length (iter_keys n it).1 = iter_measure it /\
  csdb_sql_iterator_next (iter_keys n it).2 = (None, (iter_keys n it).2).
Proof.
  revert it. induction n as [|n IH]; intros it Hn; cbn.
  - assert (iter_measure it = O) as H0 by lia. rewrite measure_zero by exact H0. auto.
  - destruct (csdb_sql_iterator_next it) as [[k|] it'] eqn:E.
    + pose proof (next_measure _ _ _ E) as Hm.
      destruct (IH it' ltac:(lia)) as [IH1 IH2].
      destruct (iter_keys n it') as [ks it'']. cbn in *. split; [lia | exact IH2].
    + unfold csdb_sql_iterator_next in E.
      destruct (Z.leb_spec (ids_num it) (pos it + 1)); [|discriminate].
      injection E as <-. cbn. unfold iter_measure. split; [lia|].
      by apply next_exhausted.
Qed.

Lemma remaining_end it :
  Z.of_nat (length (ids_arr it)) = ids_num it -> iter_measure it = O -> remaining it = [].
Proof. unfold remaining, iter_measure. intros. rewrite drop_ge by lia. reflexivity. Qed.

Lemma remaining_step it :
  -1 <= pos it -> Z.of_nat (length (ids_arr it)) = ids_num it -> iter_measure it <> O ->
  remaining it = nth (Z.to_nat (pos it + 1)) (ids_arr it) 0 ::
                 remaining (mk_iter (ids_arr it) (ids_num it) (pos it + 1)).
Proof.
  unfold remaining, iter_measure. cbn. intros.
  destruct (lookup_lt_is_Some_2 (ids_arr it) (Z.to_nat (pos it + 1))) as [k Hk]; [lia|].
  rewrite (drop_S _ _ _ Hk), nth_lookup, Hk. cbn. f_equal. f_equal. lia.
Qed.

Lemma iter_keys_remaining n it :
  -1 <= pos it -> Z.of_nat (length (ids_arr it)) = ids_num it -> (iter_measure it <= n)%nat ->
  (iter_keys n it).1 = remaining it.
Proof.
  revert it. induction n as [|n IH]; intros it Hp Hl Hn; cbn;
    destruct (decide (iter_measure it = O)) as [H0|H0].
  - by rewrite remaining_end.
  - lia.
  - rewrite measure_zero by exact H0. by rewrite remaining_end.
  - rewrite measure_pos by exact H0. rewrite (remaining_step it) by assumption.
    destruct (iter_keys n _) as [ks it''] eqn:E. cbn. f_equal.
    change ks with (ks, it'').1. rewrite <- E. apply IH; unfold iter_measure in *; cbn; lia.
Qed.

Lemma advance_spec n it :
  -1 <= pos it -> (n <= iter_measure it)%nat ->
  advance n it = mk_iter (ids_arr it) (ids_num it) (pos it + Z.of_nat n).
Proof.
  revert it. induction n as [|n IH]; intros it Hp Hn; cbn.
  - destruct it. cbn. f_equal. lia.
  - rewrite measure_pos by lia. rewrite IH; unfold iter_measure in *; cbn; [f_equal; lia | lia | lia].
Qed.

(** The iterator over a key array [l], fresh: its [i]-th advance returns
    the key at index [i]. *)
Lemma advance_returns l i k :
  l !! i = Some k ->
  (csdb_sql_iterator_next (advance i (mk_iter l (Z.of_nat (length l)) (-1)))).1 = Some k.
Proof.
  intros Hk. pose proof (lookup_lt_Some _ _ _ Hk) as Hi.
  rewrite advance_spec by (cbn; unfold iter_measure; cbn; lia). cbn.
  rewrite next_step by (cbn; lia). cbn.
  rewrite nth_lookup. replace (Z.to_nat (-1 + Z.of_nat i + 1)) with i by lia. by rewrite Hk.
Qed.

(** The effect of [csdb_sql_iterator] when the query runs. *)
Lemma csdb_sql_iterator_ok q c c1 sv rows iid :
  next_fault (set_rs c rs_empty) = (false, c1) -> exec_stmt q (c_server c1) = Some (sv, rows, iid) ->
  csdb_sql_iterator q c =
    Ok (mk_iter (row_key <$> rows) (Z.of_nat (length rows)) (-1)) (set_rs (set_server c1 sv) rs_empty).
Proof.
  intros Hf Hq. unfold csdb_sql_iterator, mbind, M_bind, mret, M_ret, Sql_Query. cbn.
  rewrite Hf, Hq. cbn.
  destruct (read_ids_spec (length rows) (set_rs (set_server c1 sv) (mk_rs rows (length rows) []))) as [rs Hrs].
  cbn in Hrs. rewrite Hrs. cbn. rewrite take_ge by lia. reflexivity.
Qed.

(** A failed query gives the empty iterator. *)
Lemma csdb_sql_iterator_fail q c :
  (exists c1, next_fault (set_rs c rs_empty) = (true, c1) \/
     next_fault (set_rs c rs_empty) = (false, c1) /\ exec_stmt q (c_server c1) = None) ->
  exists c', csdb_sql_iterator q c = Ok iter_empty c'.
Proof.
  intros [c1 [Hf | [Hf Hq]]]; unfold csdb_sql_iterator, mbind, M_bind, mret, M_ret, Sql_Query; cbn;
    rewrite Hf; [|rewrite Hq]; cbn; eexists; reflexivity.
Qed.

(** [csdb_sql_iterator] always returns an iterator, and a well-formed
    one: the array holds the [Sql_NumRows] keys the loop reads. *)
Lemma csdb_sql_iterator_total q c :
  exists it c', csdb_sql_iterator q c = Ok it c' /\ iter_wf it.
Proof.
  destruct (next_fault (set_rs c rs_empty)) as [[] c1] eqn:Hf.
  - destruct (csdb_sql_iterator_fail q c) as [c' E]; [eauto|]. exists iter_empty, c'. by split; [|right].
  - destruct (exec_stmt q (c_server c1)) as [[[sv rows] iid]|] eqn:Hq.
    + rewrite (csdb_sql_iterator_ok q c c1 sv rows iid Hf Hq). do 2 eexists. split; [reflexivity|].
      left. cbn. rewrite length_fmap. lia.
    + destruct (csdb_sql_iterator_fail q c) as [c' E]; [eauto|]. exists iter_empty, c'. by split; [|right].
Qed.

(** [next] keeps the iterator well-formed. *)
Lemma next_wf it : iter_wf it -> iter_wf (csdb_sql_iterator_next it).2.
Proof.
  intros [[Hl Hp] | Heq]; [|rewrite Heq; by right].
  unfold csdb_sql_iterator_next. destruct (Z.leb_spec (ids_num it) (pos it + 1)); cbn.
  - by left.
  - left. cbn. lia.
Qed.

Lemma iter_wf_bounds it : iter_wf it -> -1 <= pos it /\ Z.of_nat (length (ids_arr it)) = ids_num it.
Proof. intros [[Hl Hp] | ->]; [lia | cbn; lia]. Qed.

Section Respects.
Context (R : relation server) `{!PreOrder R}.

Lemma read_ids_respects n : respects R (read_ids n).
Proof. induction n as [|n IH]; cbn [read_ids]; respects_solve. Qed.

#[local] Hint Resolve read_ids_respects : sqlm.

(** The iterator's creation keeps every relation its query keeps. *)
Lemma csdb_sql_iterator_respects q : stmt_respects R q -> respects R (csdb_sql_iterator q).
Proof. intros Hq. unfold csdb_sql_iterator. respects_solve. Qed.
End Respects.

End CSDBIter.
