(* ===== verification/PartySql.v ===== *)
(** * The party SQL backend: [src/src/char/partydb_sql.c]

    Each function of the file is a program of the monad [M] of [SqlModel]
    over a state that holds the connection and, for the functions that
    fill or update a caller's [struct party], that struct: [PS] is
    [conn * party].  The object [struct PartyDB_SQL] is a record, its
    vtable [struct PartyDB] a record of operations; [init], [destroy] and
    the constructor are functions on the object.  The theorems show the
    transactional behaviour of [mmo_party_tosql] and [party_db_sql_remove]
    under every pattern of statement failures; the functional behaviour
    of each operation when no statement fails ([mmo_party_fromsql]
    against the abstract view [party_view] of the tables, the id [create]
    assigns, the effect [save_effect] of the update kinds, and the
    equivalence of a combined save with single-kind saves); the C type of
    the struct [mmo_party_fromsql] fills, under every failure; the
    iterator's termination, exactness and liveness; and the
    [AUTO_INCREMENT] invariant on every state the backend can reach
    ([party_step]). *)

From S2P Require Import Prelude CLib Account SqlModel CsdbIterator.
Import CSDBIter.

Module PartySQL.

(** ** Data: [struct party] and [enum party_save_flags]

    [mmo.h] and the header of the flags are not under [src/].  The fields
    are those this file reads or writes: [exp] and [item] are the
    bit-fields [unsigned exp : 1, item : 2] (which is why the code copies
    them to [unsigned char] locals before binding their address), and a
    member's [leader] is the bit-field [unsigned leader : 1].  The other
    fields ([count], a member's [name], [class_], [map], [lv], [online])
    are only zeroed by the [memset] of [mmo_party_fromsql] and are left
    out. *)
Definition MAX_PARTY : nat := 12.

Definition PS_CREATE : Z := 1.
Definition PS_BASIC : Z := 2.
Definition PS_LEADER : Z := 4.
Definition PS_ADDMEMBER : Z := 8.
Definition PS_DELMEMBER : Z := 16.

Record party_member := mk_member { account_id : Z; char_id : Z; leader : Z }.

Record party := mk_party {
  party_id : Z; name : string; exp : Z; item : Z; member : list party_member
}.

Definition member_zero : party_member := mk_member 0 0 0.

(** The struct after [memset(p, 0, sizeof *p)]. *)
Definition party_zero : party := mk_party 0 "" 0 0 (repeat member_zero MAX_PARTY).

Definition set_party_id (p : party) (id : Z) : party :=
  mk_party id (name p) (exp p) (item p) (member p).

Definition set_member (p : party) (i : nat) (m : party_member) : party :=
  mk_party (party_id p) (name p) (exp p) (item p) (<[i := m]> (member p)).

(** [struct CharServerDB_SQL] (charserverdb_sql.h, not under [src/]):
    the fields this file reads, the connection handle and the names of
    the two tables. *)
Record CharServerDB_SQL := mk_owner { sql_handle : Z; table_chars : string; table_parties : string }.

(** A pointer's [NULL]. *)
Definition NULL : Z := 0.

(** [struct PartyDB_SQL].  [parties] is the [Sql*] handle, an address;
    the operations run on the connection of their state, the one this
    handle designates once [init] has set it.  [char_db] and [party_db]
    name the two tables of the server model. *)
Record PartyDB_SQL := mk_partydb {
  owner : CharServerDB_SQL; parties : Z; case_sensitive : bool; char_db : string; party_db : string
}.

Definition set_parties (db : PartyDB_SQL) (h : Z) : PartyDB_SQL :=
  mk_partydb (owner db) h (case_sensitive db) (char_db db) (party_db db).

(** The state of the functions that fill or update the caller's struct. *)
Abbreviation PS := (conn * party)%type.

Definition get_party : M PS party := gets snd.
Definition put_party (p : party) : M PS unit := modify (fun s => (s.1, p)).

(** [p->member[index]]: outside the array it is undefined. *)
Definition member_ref (index : Z) : M PS party_member :=
  p ← get_party;
  if (0 <=? index) && (index <? Z.of_nat MAX_PARTY)
  then mret (nth (Z.to_nat index) (member p) member_zero) else undef.

(** [strnlen(p->name, sizeof(p->name))] and [safestrnlen(p->name,
    NAME_LENGTH)]: the characters of the array before its first NUL. *)
Definition bound_name (n : string) : string := String.substring 0 NAME_LENGTH (c_str n).

Definition has_flag (flag f : Z) : bool := negb (Z.land flag f =? 0).

Definition when (b : bool) (m : M PS unit) : M PS unit := if b then m else mret ().

(** ** [mmo_party_tosql] *)

(** The [PS_CREATE] block: the prepared [INSERT], binding [NULL] for the id
    [-1]; the generated id is written back, an explicit id must come back
    unchanged. *)
Definition tosql_create (index : Z) : M PS unit :=
  p ← get_party;
  let exp_u8 := wrap_unsigned 8 (exp p) in
  let item_u8 := wrap_unsigned 8 (item p) in
  ok ← SqlStmt_Prepare;
  if negb ok then brk else
  m ← member_ref index;
  ok ← SqlStmt_Execute (InsertParty (if party_id p =? -1 then None else Some (party_id p))
                          (bound_name (name p)) exp_u8 item_u8 (account_id m) (char_id m));
  if negb ok then brk else
  iid ← SqlStmt_LastInsertId;
  let insert_id := int32 iid in
  if party_id p =? -1 then put_party (set_party_id p insert_id)
  else if negb (party_id p =? insert_id) then brk else mret ().

(** The [PS_BASIC] block. *)
Definition tosql_basic : M PS unit :=
  p ← get_party;
  let esc_name := sql_escape (bound_name (name p)) in
  ok ← Sql_Query (UpdatePartyBasic (party_id p) esc_name (exp p) (item p));
  if negb ok then brk else mret ().

(** The [PS_LEADER] block. *)
Definition tosql_leader (index : Z) : M PS unit :=
  p ← get_party; m ← member_ref index;
  ok ← Sql_Query (UpdatePartyLeader (party_id p) (account_id m) (char_id m));
  if negb ok then brk else mret ().

(** The [PS_ADDMEMBER] block. *)
Definition tosql_addmember (index : Z) : M PS unit :=
  p ← get_party; m ← member_ref index;
  ok ← Sql_Query (SetCharParty (party_id p) (account_id m) (char_id m));
  if negb ok then brk else mret ().

(** The [PS_DELMEMBER] block. *)
Definition tosql_delmember (index : Z) : M PS unit :=
  p ← get_party; m ← member_ref index;
  ok ← Sql_Query (ClearCharParty (party_id p) (account_id m) (char_id m));
  if negb ok then brk else mret ().

(** The body of the [do { } while(0)] block, the update kinds in the
    code's order. *)
Definition tosql_body (flag index : Z) : M PS unit :=
  when (has_flag flag PS_CREATE) (tosql_create index);;
  when (has_flag flag PS_BASIC) tosql_basic;;
  when (has_flag flag PS_LEADER) (tosql_leader index);;
  when (has_flag flag PS_ADDMEMBER) (tosql_addmember index);;
  when (has_flag flag PS_DELMEMBER) (tosql_delmember index).

(** [mmo_party_tosql(db, p, flag, index)] (the [p == NULL] test has no
    counterpart: the struct is always there). *)
Definition mmo_party_tosql (db : PartyDB_SQL) (flag index : Z) : M PS bool :=
  p ← get_party;
  if party_id p =? 0 then mret false else
  sql_transaction (tosql_body flag index).

(** ** [mmo_party_fromsql] *)

(** [struct party_member* m = &p->member[i]] and its three stores: a
    slot past [member[MAX_PARTY - 1]] is outside the array, undefined
    behaviour. *)
Definition put_member (i : nat) (m : party_member) : M PS unit :=
  p ← get_party;
  if (i <? MAX_PARTY)%nat then put_party (set_member p i m) else undef.

(** The member loop [for (i = 0; i < MAX_PARTY && SQL_SUCCESS ==
    Sql_NextRow(sql_handle); ++i)], with [n = MAX_PARTY - i] slots left. *)
Fixpoint load_members (n i : nat) (leader_id leader_char : Z) : M PS unit :=
  match n with
  | O => mret ()
  | S n' =>
      ok ← Sql_NextRow;
      if negb ok then mret () else
      d0 ← Sql_GetData 0; d1 ← Sql_GetData 1;
      let a := atoi d0 in let c := atoi d1 in
      put_member i (mk_member a c (if (a =? leader_id) && (c =? leader_char) then 1 else 0));;
      load_members n' (S i) leader_id leader_char
  end.

Definition mmo_party_fromsql (db : PartyDB_SQL) (pid : Z) : M PS bool :=
  put_party party_zero;;
  ok ← Sql_Query (SelectParty pid);
  if negb ok then mret false else
  r ← Sql_NextRow;
  if negb r then Sql_FreeResult;; mret false else
  d0 ← Sql_GetData 0; d1 ← Sql_GetData 1; d2 ← Sql_GetData 2;
  d3 ← Sql_GetData 3; d4 ← Sql_GetData 4; d5 ← Sql_GetData 5;
  put_party (mk_party (atoi d0) (safestrncpy d1 NAME_LENGTH) (wrap_unsigned 1 (atoi d2))
               (wrap_unsigned 2 (atoi d3)) (member party_zero));;
  Sql_FreeResult;;
  ok ← Sql_Query (SelectMembers pid);
  if negb ok then mret false else
  load_members MAX_PARTY 0 (atoi d4) (atoi d5);;
  Sql_FreeResult;;
  mret true.

(** ** The vtable *)

(** [party_db_sql_init]: takes the owner's connection. *)
Definition party_db_sql_init (db : PartyDB_SQL) : bool * PartyDB_SQL :=
  (true, set_parties db (sql_handle (owner db))).

(** [party_db_sql_destroy]: clears the handle and frees the object, of
    which nothing is left. *)
Definition party_db_sql_destroy (db : PartyDB_SQL) : option PartyDB_SQL :=
  let db := set_parties db NULL in None.

Definition party_db_sql_sync (db : PartyDB_SQL) : M conn bool := mret true.

Definition party_db_sql_create (db : PartyDB_SQL) : M PS bool :=
  mmo_party_tosql db (Z.lor PS_CREATE PS_ADDMEMBER) 0.

Definition party_db_sql_save (db : PartyDB_SQL) (flag index : Z) : M PS bool :=
  mmo_party_tosql db flag index.

Definition party_db_sql_load (db : PartyDB_SQL) (pid : Z) : M PS bool :=
  ok ← mmo_party_fromsql db pid;
  if negb ok then mret false else mret true.

(** The body of [party_db_sql_remove]'s [do { } while(0)] block. *)
Definition remove_body (pid : Z) : M conn unit :=
  ok ← Sql_Query (ClearPartyMembers pid);
  if negb ok then brk else
  ok ← Sql_Query (DeleteParty pid);
  if negb ok then brk else mret ().

(** [party_db_sql_remove]: both statements in one transaction. *)
Definition party_db_sql_remove (db : PartyDB_SQL) (pid : Z) : M conn bool :=
  sql_transaction (remove_body pid).

(** [party_db_sql_name2id(self, &party_id, name)]: the state holds the
    output [party_id].  [Sql_EscapeString] writes into [esc_name[2 *
    NAME_LENGTH + 1]]: an escaped name longer than [2 * NAME_LENGTH]
    overflows it. *)
Definition party_db_sql_name2id (db : PartyDB_SQL) (name : string) : M (conn * Z) bool :=
  let esc_name := sql_escape name in
  if (2 * NAME_LENGTH <? String.length esc_name)%nat then undef else
  ok ← Sql_Query (SelectPartyByName (case_sensitive db) esc_name);
  if negb ok then mret false else
  n ← Sql_NumRows;
  if (1 <? n)%nat then Sql_FreeResult;; mret false else
  r ← Sql_NextRow;
  if negb r then Sql_FreeResult;; mret false else
  d ← Sql_GetData 0;
  modify (fun s => (s.1, atoi d));;
  Sql_FreeResult;;
  mret true.

(** [party_db_sql_iterator]: the key iterator over [db->party_db] and its
    column [party_id]. *)
Definition party_db_sql_iterator (db : PartyDB_SQL) : M conn CSDBIterator_SQL :=
  csdb_sql_iterator SelectPartyIds.

(** ** The constructor *)

(** [struct PartyDB] (partydb.h, not under [src/]): the vtable, each
    operation taking the object [self]. *)
Record PartyDB (Obj : Type) := mk_vtable {
  vt_init : Obj -> bool * Obj;
  vt_destroy : Obj -> option Obj;
  vt_sync : Obj -> M conn bool;
  vt_create : Obj -> M PS bool;
  vt_remove : Obj -> Z -> M conn bool;
  vt_save : Obj -> Z -> Z -> M PS bool;
  vt_load : Obj -> Z -> M PS bool;
  vt_name2id : Obj -> string -> M (conn * Z) bool;
  vt_iterator : Obj -> M conn CSDBIterator_SQL
}.
Arguments vt_init {Obj}. Arguments vt_destroy {Obj}. Arguments vt_sync {Obj}.
Arguments vt_create {Obj}. Arguments vt_remove {Obj}. Arguments vt_save {Obj}.
Arguments vt_load {Obj}. Arguments vt_name2id {Obj}. Arguments vt_iterator {Obj}.

(** [party_db_sql(owner)]: the vtable it sets up. *)
Definition party_db_sql_vtable : PartyDB PartyDB_SQL :=
  mk_vtable _ party_db_sql_init party_db_sql_destroy party_db_sql_sync party_db_sql_create
    party_db_sql_remove party_db_sql_save party_db_sql_load party_db_sql_name2id
    party_db_sql_iterator.

(** [party_db_sql(owner)]: the object's fields, after [aCalloc]. *)
Definition party_db_sql (owner : CharServerDB_SQL) : PartyDB_SQL :=
  mk_partydb owner NULL false (table_chars owner) (table_parties owner).

(** ** The operations respect the server's relations *)

#[export] Hint Extern 1 (respects _ (modify _)) =>
  apply respects_modify; first [typeclasses eauto | intros; reflexivity] : sqlm.
#[export] Hint Extern 1 (respects _ (put_party _)) => unfold put_party : sqlm.
#[export] Hint Extern 1 (respects _ get_party) => apply respects_gets : sqlm.
#[export] Hint Extern 1 (respects _ SqlStmt_LastInsertId) => apply respects_gets : sqlm.
#[export] Hint Extern 1 (respects _ (Sql_GetData _)) => apply respects_gets : sqlm.
#[export] Hint Extern 1 (respects _ Sql_NumRows) => apply respects_gets : sqlm.

Section Respects.
Context (R : relation server) `{!PreOrder R}.
Context (HR : forall st, is_data_stmt st = true -> stmt_respects R st).

Lemma tosql_body_respects flag index : respects R (tosql_body flag index).
Proof.
  unfold tosql_body, when, tosql_create, tosql_basic, tosql_leader, tosql_addmember,
    tosql_delmember, member_ref, get_party, put_party.
  respects_solve.
Qed.

Lemma load_members_respects n i lid lch : respects R (load_members n i lid lch).
Proof.
  revert i. induction n as [|n IH]; intros i; simpl; unfold get_party, put_party; respects_solve.
Qed.

Lemma fromsql_respects db pid : respects R (mmo_party_fromsql db pid).
Proof.
  pose proof load_members_respects. unfold mmo_party_fromsql, put_party. respects_solve.
Qed.

Lemma name2id_respects db nm : respects R (party_db_sql_name2id db nm).
Proof. unfold party_db_sql_name2id. respects_solve. Qed.

Lemma remove_body_respects pid : respects R (remove_body pid).
Proof. unfold remove_body. respects_solve. Qed.

End Respects.

(** ** Atomicity under statement failures *)

Lemma mmo_party_tosql_unfold db flag index s :
  mmo_party_tosql db flag index s =
    (if party_id s.2 =? 0 then mret false else sql_transaction (tosql_body flag index)) s.
Proof. reflexivity. Qed.

(** C5. [mmo_party_tosql] is all-or-nothing, whatever statements fail: when it
    reports failure the committed tables are those before the call; when
    it reports success the transaction is closed. *)
Theorem mmo_party_tosql_atomic db flag index s :
  tx_of s = None ->
  match mmo_party_tosql db flag index s with
  | Ok false s' => committed (server_of s') = tables_of s
  | Ok true s' => tx_of s' = None
  | Brk _ => False
  | Undef => True
  end.
Proof.
  intros Hn. rewrite mmo_party_tosql_unfold. destruct (party_id s.2 =? 0).
  - simpl. unfold committed, tables_of, tx_of in *. by rewrite Hn.
  - pose proof (sql_transaction_atomic (tosql_body flag index) s
      (tosql_body_respects same_tx data_stmt_same_tx flag index) Hn) as Ha.
    destruct (sql_transaction _ s) as [[]| |]; tauto.
Qed.

(** The tables [remove] leaves: no character refers to [pid] any more
    and the party row is gone. *)
Definition remove_effect (pid : Z) (T : tables) : tables :=
  mk_tables (delete pid (t_party T)) (char_clear pid <$> t_char T).

(** When its two statements succeed, the body of [remove] leaves
    [remove_effect] of the tables it started from. *)
Lemma remove_body_ok pid c c' :
  remove_body pid c = Ok () c' ->
  sv_tables (c_server c') = remove_effect pid (sv_tables (c_server c)).
Proof.
  unfold remove_body, mbind, M_bind.
  destruct (Sql_Query_spec (ClearPartyMembers pid) c) as ([] & c1 & E1 & H1); rewrite E1;
    cbn -[Sql_Query]; [|discriminate].
  destruct (Sql_Query_spec (DeleteParty pid) c1) as ([] & c2 & E2 & H2); rewrite E2;
    cbn -[Sql_Query]; [|discriminate].
  intros [= <-]. destruct H1 as (? & ? & H1), H2 as (? & ? & H2). cbn in H1, H2.
  injection H2 as H2 _ _. rewrite <- H2. injection H1 as H1 _ _. rewrite <- H1. reflexivity.
Qed.

(** C7. [party_db_sql_remove] is all-or-nothing, whatever statements fail:
    when it reports failure the committed tables are those before the
    call; when it reports success the transaction is closed and the
    members are detached and the row deleted together. *)
Theorem party_db_sql_remove_atomic db pid c :
  sv_tx (c_server c) = None ->
  match party_db_sql_remove db pid c with
  | Ok false c' => committed (c_server c') = sv_tables (c_server c)
  | Ok true c' => sv_tx (c_server c') = None /\
                  sv_tables (c_server c') = remove_effect pid (sv_tables (c_server c))
  | Brk _ | Undef => False
  end.
Proof.
  intros Hn. unfold party_db_sql_remove.
  pose proof (sql_transaction_atomic (remove_body pid) c
    (remove_body_respects same_tx data_stmt_same_tx pid) Hn) as Ha.
  assert (Hd : defined (sql_transaction (remove_body pid))).
  { apply sql_transaction_defined. unfold remove_body. defined_solve. }
  specialize (Hd c). destruct (sql_transaction _ c) as [[]| |]; [|tauto|tauto|tauto].
  destruct Ha as [Htx (c1 & c2 & E1 & E2 & Ht)]. split; [exact Htx|].
  unfold tables_of, server_of in Ht. cbn in Ht. rewrite Ht, (remove_body_ok _ _ _ E2).
  destruct (Sql_Query_spec StartTransaction c) as (b & c0 & E0 & H0). rewrite E0 in E1.
  injection E1 as -> ->. destruct H0 as (? & ? & H0). cbn in H0.
  injection H0 as H0 _ _. rewrite <- H0. reflexivity.
Qed.

(** ** No undefined behaviour *)

Lemma member_ref_defined index : (0 <= index < Z.of_nat MAX_PARTY) -> defined (member_ref index).
Proof.
  intros Hi s. unfold member_ref. simpl.
  by rewrite (proj2 (Z.leb_le 0 index)), (proj2 (Z.ltb_lt index _)) by lia.
Qed.

(** With [index] inside [p->member], [mmo_party_tosql] never indexes
    outside the array. *)
Theorem mmo_party_tosql_defined db flag index :
  (0 <= index < Z.of_nat MAX_PARTY) -> defined (mmo_party_tosql db flag index).
Proof.
  intros Hi. pose proof (member_ref_defined index Hi).
  assert (Hb : defined (tosql_body flag index)).
  { unfold tosql_body, when, tosql_create, tosql_basic, tosql_leader, tosql_addmember,
      tosql_delmember, get_party, put_party. defined_solve. }
  pose proof (sql_transaction_defined _ Hb). unfold mmo_party_tosql, get_party. defined_solve.
Qed.

(** ** The reachable states *)

(** ** The struct [mmo_party_fromsql] fills has the C type *)

(** The values [struct party] can hold: [int] ids, a NUL-terminated
    [name[NAME_LENGTH]], the bit-fields [exp : 1], [item : 2] and a
    member's [leader : 1], and [MAX_PARTY] members. *)
Definition member_wf (m : party_member) : Prop :=
  in_int (account_id m) /\ in_int (char_id m) /\ 0 <= leader m < 2.

Definition party_wf (p : party) : Prop :=
  in_int (party_id p) /\ (String.length (name p) < NAME_LENGTH)%nat /\ 0 <= exp p < 2 /\
  0 <= item p < 4 /\ length (member p) = MAX_PARTY /\ Forall member_wf (member p).

Definition Pwf (s : PS) : Prop := party_wf s.2.

Lemma Pwf_set_handle c s : Pwf s -> Pwf (set_handle c s).
Proof. done. Qed.

#[local] Hint Resolve Pwf_set_handle : sqlm.

Lemma party_zero_wf : party_wf party_zero.
Proof.
  split; [unfold in_int, INT_MIN, INT_MAX; cbn; lia|].
  split; [unfold NAME_LENGTH; cbn; lia|].
  split; [cbn; lia|]. split; [cbn; lia|]. split; [reflexivity|].
  apply Forall_forall. intros m Hm. apply list_elem_of_In, repeat_spec in Hm as ->.
  unfold member_wf, in_int, INT_MIN, INT_MAX. cbn. lia.
Qed.

Lemma set_member_wf p i m : party_wf p -> member_wf m -> party_wf (set_member p i m).
Proof.
  intros (H1 & H2 & H3 & H4 & H5 & H6) Hm.
  refine (conj H1 (conj H2 (conj H3 (conj H4 (conj _ _))))); cbn.
  - by rewrite length_insert.
  - by apply Forall_insert.
Qed.

(** Reading the struct, changing it and going on. *)
Lemma runs_update {A} (f : party -> party) (k : M PS A) :
  (forall p, party_wf p -> party_wf (f p)) -> runs Pwf k ->
  runs Pwf (p ← get_party; put_party (f p);; k).
Proof. intros Hf Hk [c p] Hs. apply Hk, Hf, Hs. Qed.

Lemma runs_put_party q : party_wf q -> runs Pwf (put_party q).
Proof. intros Hq s _. eexists _, _. split; [reflexivity | exact Hq]. Qed.

Lemma load_members_runs n i lid lch :
  (i + n <= MAX_PARTY)%nat -> runs Pwf (load_members n i lid lch).
Proof.
  revert i. induction n as [|n IH]; intros i Hi; cbn [load_members]; [apply runs_ret|].
  apply runs_bind; [eauto with sqlm | intros []]; cbn [negb]; [|apply runs_ret].
  apply runs_bind; [eauto with sqlm | intros d0]. apply runs_bind; [eauto with sqlm | intros d1].
  unfold put_member. rewrite (proj2 (Nat.ltb_lt i MAX_PARTY)) by lia.
  apply (runs_update (fun p => set_member p i _)); [|apply IH; lia].
  intros p Hp. apply set_member_wf; [exact Hp|].
  repeat split; try apply int32_in_int; destruct (_ && _); cbn; lia.
Qed.

(** The scalar fields [mmo_party_fromsql] reads from the party row. *)
Lemma fromsql_row_wf d0 d1 d2 d3 :
  party_wf (mk_party (atoi d0) (safestrncpy d1 NAME_LENGTH) (wrap_unsigned 1 (atoi d2))
              (wrap_unsigned 2 (atoi d3)) (member party_zero)).
Proof.
  pose proof party_zero_wf as (_ & _ & _ & _ & Hl & Hm).
  pose proof (safestrncpy_length d1 NAME_LENGTH).
  pose proof (wrap_unsigned_range 1 ltac:(lia) (atoi d2)).
  pose proof (wrap_unsigned_range 2 ltac:(lia) (atoi d3)).
  refine (conj (int32_in_int _) (conj _ (conj _ (conj _ (conj Hl Hm))))); cbn in *; unfold NAME_LENGTH in *; lia.
Qed.

#[local] Hint Extern 1 (runs Pwf (load_members _ 0 _ _)) => apply load_members_runs; reflexivity : sqlm.
#[local] Hint Extern 1 (runs Pwf (put_party _)) => apply runs_put_party, fromsql_row_wf : sqlm.

(** C18. Whatever the tables hold and whatever statements fail, and
    whatever the caller's struct held, [mmo_party_fromsql] returns
    normally and leaves a struct of its C type: [int] ids (read through
    [atoi]), a name that fits [name[NAME_LENGTH]], [exp] and [item] cut to
    their bit-field widths, [MAX_PARTY] members each with a 0/1 leader
    bit. *)
Theorem mmo_party_fromsql_typed db pid s :
  exists b s', mmo_party_fromsql db pid s = Ok b s' /\ party_wf s'.2.
Proof.
  unfold mmo_party_fromsql.
  match goal with |- context [(put_party party_zero ≫= ?k) s] =>
    assert (Hk : runs Pwf (k ())) by (cbn beta; runs_solve);
    change ((put_party party_zero ≫= k) s) with (k () (s.1, party_zero))
  end.
  exact (Hk (s.1, party_zero) party_zero_wf).
Qed.

(** A step of the backend: one call of an operation of the vtable, or the
    environment choosing which of the coming round trips fail. *)
Inductive party_step : relation conn :=
  | ps_create db p p' b c c' :
      party_db_sql_create db (c, p) = Ok b (c', p') -> party_step c c'
  | ps_save db flag index p p' b c c' :
      party_db_sql_save db flag index (c, p) = Ok b (c', p') -> party_step c c'
  | ps_load db pid p p' b c c' :
      party_db_sql_load db pid (c, p) = Ok b (c', p') -> party_step c c'
  | ps_remove db pid b c c' :
      party_db_sql_remove db pid c = Ok b c' -> party_step c c'
  | ps_name2id db nm o o' b c c' :
      party_db_sql_name2id db nm (c, o) = Ok b (c', o') -> party_step c c'
  | ps_iterator db it c c' :
      party_db_sql_iterator db c = Ok it c' -> party_step c c'
  | ps_env c fs :
      party_step c (mk_conn (c_server c) (c_rs c) (c_insert_id c) fs).

Lemma all_stmts_inv st : is_data_stmt st = true -> stmt_respects inv_rel st.
Proof. intros _. apply stmt_respects_inv. Qed.

Lemma tosql_respects_inv db flag index : respects inv_rel (mmo_party_tosql db flag index).
Proof.
  pose proof (sql_transaction_respects inv_rel _ stmt_respects_inv
    (tosql_body_respects inv_rel all_stmts_inv flag index)).
  unfold mmo_party_tosql, get_party. respects_solve.
Qed.

Lemma party_step_inv c c' : party_step c c' -> sv_inv (c_server c) -> sv_inv (c_server c').
Proof.
  destruct 1 as [db p p' b c c' E|db flag index p p' b c c' E|db pid p p' b c c' E
                |db pid b c c' E|db nm o o' b c c' E|db it c c' E|c fs]; [..|done]; intros Hi.
  - pose proof (tosql_respects_inv db (Z.lor PS_CREATE PS_ADDMEMBER) 0 (c, p)) as Hr.
    unfold party_db_sql_create in E. rewrite E in Hr. by apply Hr.
  - pose proof (tosql_respects_inv db flag index (c, p)) as Hr.
    unfold party_db_sql_save in E. rewrite E in Hr. by apply Hr.
  - assert (Hr : respects inv_rel (party_db_sql_load db pid)).
    { unfold party_db_sql_load. pose proof (fromsql_respects inv_rel all_stmts_inv db pid).
      respects_solve. }
    specialize (Hr (c, p)). rewrite E in Hr. by apply Hr.
  - pose proof (sql_transaction_respects inv_rel (remove_body pid) stmt_respects_inv
      (remove_body_respects inv_rel all_stmts_inv pid) c) as Hr.
    unfold party_db_sql_remove in E. rewrite E in Hr. by apply Hr.
  - pose proof (name2id_respects inv_rel all_stmts_inv db nm (c, o)) as Hr.
    rewrite E in Hr. by apply Hr.
  - pose proof (csdb_sql_iterator_respects inv_rel SelectPartyIds (stmt_respects_inv _) c) as Hr.
    unfold party_db_sql_iterator in E. rewrite E in Hr. by apply Hr.
Qed.

(** Every state the backend reaches from one where the [AUTO_INCREMENT]
    counter is positive and above every party id keeps that property, in
    the tables and in an open transaction's snapshot, whatever statements
    fail and whatever the callers pass. *)
Theorem party_reachable_inv c c' :
  sv_inv (c_server c) -> rtc party_step c c' -> sv_inv (c_server c').
Proof. intros Hi Hr. induction Hr; eauto using party_step_inv. Qed.

(** ** The abstract view of a party

    What [mmo_party_fromsql] should return: the party row, and the first
    [MAX_PARTY] character rows that refer to the party, each member's
    leader flag derived from the leader stored on the party row. *)

Definition member_of (lid lch : Z) (kv : Z * char_row) : party_member :=
  mk_member (cr_account_id kv.2) kv.1 (if (cr_account_id kv.2 =? lid) && (kv.1 =? lch) then 1 else 0).

Definition fill_members (ms : list party_member) : list party_member :=
  ms ++ repeat member_zero (MAX_PARTY - length ms).

Definition party_view (t : tables) (pid : Z) : option party :=
  r ← t_party t !! pid;
  Some (mk_party pid (safestrncpy (pr_name r) NAME_LENGTH) (wrap_unsigned 1 (pr_exp r))
          (wrap_unsigned 2 (pr_item r))
          (fill_members (member_of (pr_leader_id r) (pr_leader_char r) <$>
                           take MAX_PARTY (party_members t pid)))).

(** The columns are [int]s: the values the view reads are in range. *)
Definition member_ints (kv : Z * char_row) : Prop := in_int kv.1 /\ in_int (cr_account_id kv.2).

Definition row_ints (pid : Z) (r : party_row) : Prop :=
  in_int pid /\ in_int (pr_exp r) /\ in_int (pr_item r) /\ in_int (pr_leader_id r) /\
  in_int (pr_leader_char r).

Definition view_wf (t : tables) (pid : Z) : Prop :=
  (forall r, t_party t !! pid = Some r -> row_ints pid r) /\ Forall member_ints (party_members t pid).

(** ** Running the operations when no statement fails *)

Lemma insert_repeat {A} (ms : list A) (x z : A) n :
  <[length ms := x]> (ms ++ repeat z (S n)) = (ms ++ [x]) ++ repeat z n.
Proof. induction ms as [|y ms IH]; simpl; [done | f_equal; exact IH]. Qed.

Lemma exec_SelectParty pid T ai :
  exec_data (SelectParty pid) T ai =
    Some (T, ai, match t_party T !! pid with Some r => [party_row_text pid r] | None => [] end, 0).
Proof. reflexivity. Qed.

Lemma exec_SelectMembers pid T ai :
  exec_data (SelectMembers pid) T ai = Some (T, ai, member_text <$> party_members T pid, 0).
Proof. reflexivity. Qed.

Ltac closed_pos p :=
  lazymatch p with xH => idtac | xO ?q => closed_pos q | xI ?q => closed_pos q end.

Ltac closed_Z z :=
  lazymatch z with
  | Z0 => idtac | Zpos ?p => closed_pos p | Zneg ?p => closed_pos p
  | PS_CREATE => idtac | PS_BASIC => idtac | PS_LEADER => idtac
  | PS_ADDMEMBER => idtac | PS_DELMEMBER => idtac
  | Z.lor ?a ?b => closed_Z a; closed_Z b
  end.

(** Evaluates the update-kind tests of a given flag and the range test of
    a given index ([Z.land] and [Z.of_nat] do not reduce by [cbn]). *)
Ltac eval_conds :=
  repeat match goal with
  | |- context [has_flag ?f ?g] =>
      closed_Z f; closed_Z g;
      let b := eval vm_compute in (has_flag f g) in change (has_flag f g) with b
  | |- context [(0 <=? ?i) && (?i <? Z.of_nat MAX_PARTY)] =>
      closed_Z i;
      let b := eval vm_compute in ((0 <=? i) && (i <? Z.of_nat MAX_PARTY)) in
      change ((0 <=? i) && (i <? Z.of_nat MAX_PARTY)) with b
  end.

(** Runs a program of the monad on a concrete connection. *)
Ltac run_sql :=
  eval_conds;
  unfold mbind, M_bind, mret, M_ret; cbn -[exec_data load_members party_members lookup insert alter delete literal_value sql_escape bound_name];
  unfold set_rs, set_server, set_insert_id; cbn -[exec_data load_members party_members lookup insert alter delete literal_value sql_escape bound_name];
  eval_conds; cbn -[exec_data load_members party_members lookup insert alter delete literal_value sql_escape bound_name].

(** The member loop reads [n] rows at most, filling the slots after the
    [ms] already read. *)
Lemma load_members_spec n lid lch l sv k row iid fs ms p :
  (length ms + n <= MAX_PARTY)%nat ->
  Forall member_ints l -> member p = ms ++ repeat member_zero n ->
  exists rs', load_members n (length ms) lid lch
                (mk_conn sv (mk_rs (member_text <$> l) k row) iid fs, p) =
    Ok () (mk_conn sv rs' iid fs,
           mk_party (party_id p) (name p) (exp p) (item p)
             (ms ++ (member_of lid lch <$> take n l) ++ repeat member_zero (n - length (take n l)))).
Proof.
  revert ms p l k row. induction n as [|n IH]; intros ms p l k row Hn Hl Hm.
  - destruct p; simpl in *. rewrite Hm, !app_nil_r. eauto.
  - destruct l as [|[cid cr] l].
    + destruct p; simpl in *. subst. eexists. reflexivity.
    + apply Forall_cons in Hl as [[Hc Ha] Hl]. simpl in Hc, Ha.
      simpl. unfold put_member, get_party, put_party, Sql_NextRow, Sql_GetData, gets, modify. run_sql.
      rewrite (proj2 (Nat.leb_le (length ms) 11)) by (unfold MAX_PARTY in *; lia). run_sql.
      rewrite !atoi_fmt_Z by done.
      set (m := mk_member _ _ _).
      destruct (IH (ms ++ [m]) (set_member p (length ms) m) l k (member_text (cid, cr))
                  ltac:(rewrite length_app; cbn; lia) Hl) as [rs' E].
      { simpl. by rewrite Hm, insert_repeat. }
      rewrite length_app in E. simpl in E. rewrite Nat.add_1_r in E. eexists. etrans; [exact E|]. simpl. rewrite <- app_assoc. reflexivity.
Qed.

(** [load] of an id with no party row, when no statement fails. *)
Lemma fromsql_absent db pid c p :
  c_faults c = [] -> t_party (sv_tables (c_server c)) !! pid = None ->
  mmo_party_fromsql db pid (c, p) = Ok false (set_rs c rs_empty, party_zero).
Proof.
  destruct c as [[T ai tx] rs iid fs]. simpl. intros -> E.
  unfold mmo_party_fromsql, put_party, Sql_Query, Sql_NextRow, Sql_FreeResult, on_conn, modify.
  run_sql. rewrite exec_SelectParty, E. reflexivity.
Qed.

(** When no statement fails, [mmo_party_fromsql] returns the abstract view
    of the party, or reports not-found and leaves the struct zeroed. *)
Lemma fromsql_nofault db pid c p :
  c_faults c = [] -> view_wf (sv_tables (c_server c)) pid ->
  mmo_party_fromsql db pid (c, p) =
    match party_view (sv_tables (c_server c)) pid with
    | Some v => Ok true (set_rs c rs_empty, v)
    | None => Ok false (set_rs c rs_empty, party_zero)
    end.
Proof.
  destruct c as [[T ai tx] rs iid fs]. simpl. intros -> [Hr Hm].
  unfold party_view. destruct (t_party T !! pid) as [r|] eqn:E; simpl.
  - destruct (Hr r eq_refl) as (H0 & H2 & H3 & H4 & H5).
    unfold mmo_party_fromsql, put_party, Sql_Query, Sql_NextRow, Sql_GetData, Sql_FreeResult,
      on_conn, gets, modify.
    run_sql. rewrite exec_SelectParty, E. run_sql. rewrite !atoi_fmt_Z by done.
    rewrite exec_SelectMembers. run_sql.
    match goal with |- context [load_members ?n 0 ?a ?b (mk_conn ?sv (mk_rs ?rows ?k ?row) ?i ?f, ?q)] =>
      destruct (load_members_spec n a b (party_members T pid) sv k row i f [] q ltac:(reflexivity) Hm eq_refl)
        as [rs' E2]
    end.
    rewrite (E2 : load_members MAX_PARTY 0 _ _ _ = _).
    run_sql. unfold fill_members. rewrite length_fmap. reflexivity.
  - unfold mmo_party_fromsql, put_party, Sql_Query, Sql_NextRow, Sql_FreeResult, on_conn, modify.
    run_sql. rewrite exec_SelectParty, E. reflexivity.
Qed.

Lemma exec_InsertParty oid nm e i lid lch T ai :
  let id := match oid with Some x => x | None => ai end in
  t_party T !! id = None ->
  exec_data (InsertParty oid nm e i lid lch) T ai =
    Some (set_party_table T (<[id := mk_party_row nm e i lid lch]> (t_party T)), Z.max ai (id + 1), [], id).
Proof. simpl. intros ->. reflexivity. Qed.

(** Under the invariant, the counter is not a party id. *)
Lemma fresh_auto_inc sv : sv_inv sv -> t_party (sv_tables sv) !! sv_auto_inc sv = None.
Proof.
  intros (_ & Hb & _). destruct (t_party _ !! _) eqn:E; [|done].
  assert (sv_auto_inc sv ∈ dom (t_party (sv_tables sv))) as Hd by (apply elem_of_dom; eauto).
  specialize (Hb _ Hd). lia.
Qed.

(** The transaction of [create] when no statement fails. *)
(** [create] when no statement fails, whatever the [AUTO_INCREMENT]
    value: the row goes under that value [ai], the caller's struct and the
    member row get [(int)ai]. *)
Lemma tosql_create_nofault_any db c p :
  c_faults c = [] -> sv_inv (c_server c) -> party_id p = -1 ->
  let T := sv_tables (c_server c) in
  let ai := sv_auto_inc (c_server c) in
  let m0 := nth 0 (member p) member_zero in
  mmo_party_tosql db (Z.lor PS_CREATE PS_ADDMEMBER) 0 (c, p) =
    Ok true (mk_conn (mk_server
                        (mk_tables (<[ai := mk_party_row (bound_name (name p)) (wrap_unsigned 8 (exp p))
                                              (wrap_unsigned 8 (item p)) (account_id m0) (char_id m0)]>
                                      (t_party T))
                                   (alter (char_join (int32 ai) (account_id m0)) (char_id m0) (t_char T)))
                        (ai + 1) None) rs_empty ai [],
             set_party_id p (int32 ai)).
Proof.
  intros Hf Hi Hp. pose proof (fresh_auto_inc _ Hi) as Hfresh.
  destruct c as [[T ai tx] rs iid fs]. simpl in *. subst fs.
  unfold mmo_party_tosql, sql_transaction, tosql_body, when, tosql_create,
    tosql_addmember, member_ref, get_party, put_party, catch_break, Sql_Query, SqlStmt_Prepare,
    SqlStmt_Execute, SqlStmt_LastInsertId, gets, modify.
  run_sql. rewrite Hp. run_sql.
  rewrite Hp. simpl (-1 =? -1). rewrite exec_InsertParty by exact Hfresh. run_sql.
  rewrite Z.max_r by lia. run_sql. reflexivity.
Qed.

Lemma tosql_create_nofault db c p :
  c_faults c = [] -> sv_inv (c_server c) -> party_id p = -1 ->
  sv_auto_inc (c_server c) <= INT_MAX ->
  let T := sv_tables (c_server c) in
  let ai := sv_auto_inc (c_server c) in
  let m0 := nth 0 (member p) member_zero in
  mmo_party_tosql db (Z.lor PS_CREATE PS_ADDMEMBER) 0 (c, p) =
    Ok true (mk_conn (mk_server
                        (mk_tables (<[ai := mk_party_row (bound_name (name p)) (wrap_unsigned 8 (exp p))
                                              (wrap_unsigned 8 (item p)) (account_id m0) (char_id m0)]>
                                      (t_party T))
                                   (alter (char_join ai (account_id m0)) (char_id m0) (t_char T)))
                        (ai + 1) None) rs_empty ai [],
             set_party_id p ai).
Proof.
  intros Hf Hi Hp Hmax. pose proof (proj1 Hi) as Hpos. rewrite (tosql_create_nofault_any db c p Hf Hi Hp).
  rewrite int32_id by (unfold in_int, INT_MIN in *; lia). reflexivity.
Qed.

(** When no statement fails, [create] of a party with the id [-1] stores
    its row under the [AUTO_INCREMENT] value, with the first member as
    leader, moves that member's character into it, advances the counter
    and writes the id back into the struct. *)
Theorem party_db_sql_create_spec db c p :
  c_faults c = [] -> sv_inv (c_server c) -> party_id p = -1 ->
  sv_auto_inc (c_server c) <= INT_MAX ->
  let T := sv_tables (c_server c) in
  let ai := sv_auto_inc (c_server c) in
  let m0 := nth 0 (member p) member_zero in
  party_db_sql_create db (c, p) =
    Ok true (mk_conn (mk_server
                        (mk_tables (<[ai := mk_party_row (bound_name (name p)) (wrap_unsigned 8 (exp p))
                                              (wrap_unsigned 8 (item p)) (account_id m0) (char_id m0)]>
                                      (t_party T))
                                   (alter (char_join ai (account_id m0)) (char_id m0) (t_char T)))
                        (ai + 1) None) rs_empty ai [],
             set_party_id p ai).
Proof. exact (tosql_create_nofault db c p). Qed.

(** An [INSERT] under an id in use is the server's duplicate-key error. *)
Lemma exec_InsertParty_dup id nm e i lid lch T ai r :
  t_party T !! id = Some r -> exec_data (InsertParty (Some id) nm e i lid lch) T ai = None.
Proof. simpl. intros ->. reflexivity. Qed.

(** C24. [create] of a party with an explicit id that a party already has,
    when no statement fails: the [INSERT] hits the duplicate key, the
    transaction is rolled back and [create] reports failure, leaving the
    server (the existing party, the members, the counter) as it was and the
    caller's struct untouched. *)
Theorem create_explicit_id_collides db c p r :
  c_faults c = [] -> sv_tx (c_server c) = None -> party_id p <> -1 -> party_id p <> 0 ->
  t_party (sv_tables (c_server c)) !! party_id p = Some r ->
  exists c', party_db_sql_create db (c, p) = Ok false (c', p) /\ c_server c' = c_server c.
Proof.
  intros Hf Htx Hm Hz Hr. destruct c as [[T ai tx] rs iid fs]. simpl in *. subst fs tx.
  unfold party_db_sql_create, mmo_party_tosql, sql_transaction, tosql_body, when, tosql_create,
    tosql_addmember, member_ref, get_party, put_party, catch_break, Sql_Query, SqlStmt_Prepare,
    SqlStmt_Execute, SqlStmt_LastInsertId, gets, modify.
  run_sql. rewrite (proj2 (Z.eqb_neq _ _) Hz). run_sql.
  rewrite (proj2 (Z.eqb_neq _ _) Hm). run_sql. rewrite (exec_InsertParty_dup _ _ _ _ _ _ _ _ r Hr). run_sql.
  eexists. split; reflexivity.
Qed.

Lemma NoDup_singleton_elems {A} (l : list A) a :
  NoDup l -> (forall x, x ∈ l <-> x = a) -> l = [a].
Proof.
  intros Hn Hl. destruct l as [|b l].
  - pose proof (proj2 (Hl a) eq_refl) as Ha. by apply elem_of_nil in Ha.
  - assert (b = a) as -> by (apply Hl; left).
    destruct l as [|c l]; [done|]. apply NoDup_cons in Hn as [Hn _].
    assert (c = a) as -> by (apply Hl; right; left). destruct Hn. left.
Qed.

(** The only character of party [pid] after [c] joined it, when no
    character referred to [pid] before. *)
(** The characters of party [pid] after one joined it, when no character
    referred to [pid] before. *)
Lemma party_members_join t m pid acc cid x :
  t_char t = alter (char_join pid acc) cid m ->
  m !! cid = Some (mk_char_row acc x) ->
  (forall k r, m !! k = Some r -> cr_party_id r <> pid) ->
  party_members t pid = [(cid, mk_char_row acc pid)].
Proof.
  intros Ht Hc Hnone. apply NoDup_singleton_elems.
  - apply NoDup_filter, NoDup_map_to_list.
  - intros [k r]. unfold party_members. rewrite Ht.
    rewrite (list_elem_of_filter (fun kv : Z * char_row => cr_party_id kv.2 = pid)), elem_of_map_to_list, lookup_alter_Some. split.
    + intros [Hp [[<- (r0 & Hk & ->)] | [_ Hk]]].
      * rewrite Hc in Hk. injection Hk as <-. unfold char_join in *. simpl in *.
        by rewrite Z.eqb_refl.
      * exfalso. by apply (Hnone k r).
    + intros [= -> ->]. split; [done|]. left. split; [done|]. exists (mk_char_row acc x).
      unfold char_join. simpl. by rewrite Z.eqb_refl.
Qed.

Lemma bound_name_fits n : fits NAME_LENGTH n = true -> bound_name n = n.
Proof.
  unfold fits, bound_name. intros H. ea_andb. apply Nat.ltb_lt in H.
  rewrite c_str_id by assumption. apply substring_all. lia.
Qed.

Lemma wrap_small_bits w v : 0 <= v < 2 ^ w -> wrap_unsigned w v = v.
Proof. apply wrap_unsigned_small. Qed.

(** C6. A party created with the id [-1] when no statement fails is loaded
    back as the struct the caller passed, with the id [create] assigned:
    its name (a C string that fits [name]), its two flags (in the range of
    their bit-fields) and its only member, the leader whose character row
    exists, provided no character refers to an id the counter has not
    handed out yet. *)
Theorem create_then_load db c p q m0 x :
  c_faults c = [] -> sv_inv (c_server c) -> sv_auto_inc (c_server c) <= INT_MAX ->
  party_id p = -1 -> fits NAME_LENGTH (name p) = true -> 0 <= exp p <= 1 -> 0 <= item p <= 3 ->
  member p = m0 :: repeat member_zero (MAX_PARTY - 1) -> leader m0 = 1 ->
  in_int (account_id m0) -> in_int (char_id m0) ->
  t_char (sv_tables (c_server c)) !! char_id m0 = Some (mk_char_row (account_id m0) x) ->
  (forall k r, t_char (sv_tables (c_server c)) !! k = Some r ->
               cr_party_id r < sv_auto_inc (c_server c)) ->
  let ai := sv_auto_inc (c_server c) in
  exists c', party_db_sql_create db (c, p) = Ok true (c', set_party_id p ai) /\
             mmo_party_fromsql db ai (c', q) = Ok true (set_rs c' rs_empty, set_party_id p ai).
Proof.
  intros Hf Hi Hmax Hp Hn He Hit Hm Hl Ha Hc Hch Hrefs ai.
  pose proof Hi as (Hpos & _).
  assert (Hm0 : nth 0 (member p) member_zero = m0) by (rewrite Hm; reflexivity).
  assert (He8 : wrap_unsigned 8 (exp p) = exp p) by (apply wrap_unsigned_small; change (2 ^ 8) with 256; lia).
  assert (Hi8 : wrap_unsigned 8 (item p) = item p) by (apply wrap_unsigned_small; change (2 ^ 8) with 256; lia).
  eexists. split; [by apply tosql_create_nofault|].
  rewrite Hm0, He8, Hi8, bound_name_fits by exact Hn.
  set (T' := mk_tables _ _).
  assert (Hmem : party_members T' ai = [(char_id m0, mk_char_row (account_id m0) ai)]).
  { eapply party_members_join; [reflexivity|exact Hch|].
    intros k r Hk. specialize (Hrefs k r Hk). unfold ai. lia. }
  assert (Hrow : t_party T' !! ai =
            Some (mk_party_row (name p) (exp p) (item p) (account_id m0) (char_id m0)))
    by apply lookup_insert_eq.
  rewrite fromsql_nofault; [|reflexivity|].
  2: { split.
       - intros r Hr. cbn [sv_tables c_server] in Hr. rewrite Hrow in Hr. injection Hr as <-.
         unfold row_ints, in_int, INT_MIN, INT_MAX in *; simpl; lia.
       - cbn [sv_tables c_server]. rewrite Hmem. constructor; [split; assumption | constructor]. }
  cbn [sv_tables c_server]. unfold party_view. rewrite Hrow, Hmem. simpl.
  unfold fits in Hn. apply andb_prop in Hn as [Hn _]. apply Nat.ltb_lt in Hn.
  rewrite safestrncpy_id by exact Hn.
  rewrite (wrap_small_bits 1 (exp p)), (wrap_small_bits 2 (item p)) by (change (2 ^ 1) with 2; change (2 ^ 2) with 4; lia).
  destruct p as [pid nm e it ms], m0 as [a ch l]. simpl in *. subst. unfold member_of. simpl. rewrite !Z.eqb_refl. reflexivity.
Qed.


(** C8. [load] (the vtable's [party_db_sql_load]) when no statement fails:
    the abstract view of the party, or not-found with the struct zeroed. *)
Theorem party_db_sql_load_spec db pid c p :
  c_faults c = [] -> view_wf (sv_tables (c_server c)) pid ->
  party_db_sql_load db pid (c, p) =
    match party_view (sv_tables (c_server c)) pid with
    | Some v => Ok true (set_rs c rs_empty, v)
    | None => Ok false (set_rs c rs_empty, party_zero)
    end.
Proof.
  intros Hf Hw. unfold party_db_sql_load, mbind, M_bind.
  rewrite fromsql_nofault by assumption. by destruct (party_view _ _).
Qed.

(** [save] with [PS_BASIC] when no statement fails: the escaped name,
    read back by the server, and the flags are written to the row. *)
Lemma party_db_sql_save_basic db c p index :
  c_faults c = [] -> party_id p <> 0 ->
  let T := sv_tables (c_server c) in
  party_db_sql_save db PS_BASIC index (c, p) =
    Ok true (mk_conn (mk_server (set_party_table T (alter (row_basic (bound_name (name p)) (exp p) (item p))
                                                       (party_id p) (t_party T)))
                                (sv_auto_inc (c_server c)) None) rs_empty (c_insert_id c) [], p).
Proof.
  intros Hf Hp. destruct c as [[T ai tx] rs iid fs]. simpl in *. subst fs.
  unfold party_db_sql_save, mmo_party_tosql, sql_transaction, tosql_body, when, tosql_basic,
    get_party, catch_break, Sql_Query, gets.
  run_sql. rewrite (proj2 (Z.eqb_neq _ _) Hp). run_sql. cbn [exec_data]. run_sql.
  rewrite literal_value_escape. reflexivity.
Qed.

(** The effect on the tables of a [save] whose update kinds are those of
    [flag] (without [PS_CREATE]), one after the other in the code's order:
    the abstract specification of [mmo_party_tosql]'s update blocks. *)
Definition eff_basic (p : party) (T : tables) : tables :=
  set_party_table T (alter (row_basic (bound_name (name p)) (exp p) (item p)) (party_id p) (t_party T)).
Definition eff_leader (p : party) (m : party_member) (T : tables) : tables :=
  set_party_table T (alter (row_leader (account_id m) (char_id m)) (party_id p) (t_party T)).
Definition eff_addmember (p : party) (m : party_member) (T : tables) : tables :=
  set_char_table T (alter (char_join (party_id p) (account_id m)) (char_id m) (t_char T)).
Definition eff_delmember (p : party) (m : party_member) (T : tables) : tables :=
  set_char_table T (alter (char_leave (party_id p) (account_id m)) (char_id m) (t_char T)).

Definition eff_when (b : bool) (f : tables -> tables) (T : tables) : tables := if b then f T else T.

Definition save_effect (flag index : Z) (p : party) (T : tables) : tables :=
  let m := nth (Z.to_nat index) (member p) member_zero in
  eff_when (has_flag flag PS_DELMEMBER) (eff_delmember p m)
    (eff_when (has_flag flag PS_ADDMEMBER) (eff_addmember p m)
      (eff_when (has_flag flag PS_LEADER) (eff_leader p m)
        (eff_when (has_flag flag PS_BASIC) (eff_basic p) T))).

Lemma index_in_range index : 0 <= index < Z.of_nat MAX_PARTY -> (0 <=? index) && (index <? Z.of_nat MAX_PARTY) = true.
Proof. intros. apply andb_true_intro. split; [apply Z.leb_le | apply Z.ltb_lt]; lia. Qed.

(** [save] without [PS_CREATE] when no statement fails: one transaction
    with the effect [save_effect], committed. *)
Lemma party_db_sql_save_nofault db flag index c p :
  c_faults c = [] -> party_id p <> 0 -> has_flag flag PS_CREATE = false ->
  0 <= index < Z.of_nat MAX_PARTY ->
  party_db_sql_save db flag index (c, p) =
    Ok true (mk_conn (mk_server (save_effect flag index p (sv_tables (c_server c))) (sv_auto_inc (c_server c)) None)
                     rs_empty (c_insert_id c) [], p).
Proof.
  intros Hf Hp Hc Hi. destruct c as [[T ai tx] rs iid fs]. simpl in *. subst fs.
  unfold party_db_sql_save, mmo_party_tosql, sql_transaction, tosql_body, when, save_effect, eff_when.
  rewrite Hc. pose proof (index_in_range index Hi) as Hr.
  destruct (has_flag flag PS_BASIC), (has_flag flag PS_LEADER), (has_flag flag PS_ADDMEMBER),
    (has_flag flag PS_DELMEMBER);
  unfold tosql_basic, tosql_leader, tosql_addmember, tosql_delmember, member_ref, get_party,
    catch_break, Sql_Query, gets;
  run_sql; rewrite (proj2 (Z.eqb_neq _ _) Hp); run_sql; rewrite ?Hr; run_sql; cbn [exec_data]; run_sql;
  rewrite ?literal_value_escape; reflexivity.
Qed.

Lemma has_flag_land flag k k' : has_flag (Z.land flag k) k' = has_flag flag (Z.land k k').
Proof. unfold has_flag. by rewrite Z.land_assoc. Qed.

Lemma has_flag_0 flag : has_flag flag 0 = false.
Proof. unfold has_flag. by rewrite Z.land_0_r. Qed.

(** Rewrites the tests of a single update kind [Z.land flag K]: the kind
    itself, or none of the others. *)
Ltac flag_bits :=
  rewrite ?has_flag_land, ?Z.land_diag;
  repeat match goal with
  | |- context [Z.land ?a ?b] =>
      closed_Z a; closed_Z b; let v := eval vm_compute in (Z.land a b) in change (Z.land a b) with v
  end;
  rewrite ?has_flag_0.

Lemma save_effect_split flag index p T :
  save_effect flag index p T =
    save_effect (Z.land flag PS_DELMEMBER) index p
      (save_effect (Z.land flag PS_ADDMEMBER) index p
        (save_effect (Z.land flag PS_LEADER) index p
          (save_effect (Z.land flag PS_BASIC) index p T))).
Proof.
  unfold save_effect. flag_bits.
  destruct (has_flag flag PS_BASIC), (has_flag flag PS_LEADER), (has_flag flag PS_ADDMEMBER),
    (has_flag flag PS_DELMEMBER); reflexivity.
Qed.

Lemma kind_no_create flag k : Z.land k PS_CREATE = 0 -> has_flag (Z.land flag k) PS_CREATE = false.
Proof. intros H. by rewrite has_flag_land, H, has_flag_0. Qed.

(** C10. When no statement fails, a [save] that combines update kinds is
    equivalent to the sequence of single-kind [save]s in the code's order
    (basic, leader, add-member, remove-member), each in a transaction of
    its own: the same result, the same connection, the same tables, the
    same struct. *)
Theorem save_kinds_sequential db flag index c p :
  c_faults c = [] -> party_id p <> 0 -> has_flag flag PS_CREATE = false ->
  0 <= index < Z.of_nat MAX_PARTY ->
  party_db_sql_save db flag index (c, p) =
    (party_db_sql_save db (Z.land flag PS_BASIC) index;;
     party_db_sql_save db (Z.land flag PS_LEADER) index;;
     party_db_sql_save db (Z.land flag PS_ADDMEMBER) index;;
     party_db_sql_save db (Z.land flag PS_DELMEMBER) index) (c, p).
Proof.
  intros Hf Hp Hc Hi. rewrite party_db_sql_save_nofault by assumption.
  unfold mbind, M_bind.
  do 4 (rewrite party_db_sql_save_nofault by (first [assumption | reflexivity | by apply kind_no_create]);
        cbn -[party_db_sql_save save_effect]).
  by rewrite save_effect_split.
Qed.

(** The members of party [pid] after the [DELMEMBER] update of [cid]
    (whose row holds the account [acc]): members before, and not [cid]. *)
Lemma party_members_leave t pid acc cid kv :
  pid <> 0 -> (forall r, t_char t !! cid = Some r -> cr_account_id r = acc) ->
  kv ∈ party_members (set_char_table t (alter (char_leave pid acc) cid (t_char t))) pid ->
  kv.1 <> cid /\ kv ∈ party_members t pid.
Proof.
  intros Hp Hacc. destruct kv as [k r]. unfold party_members. cbn [t_char set_char_table].
  rewrite !(list_elem_of_filter (fun kv : Z * char_row => cr_party_id kv.2 = pid)),
    !elem_of_map_to_list, lookup_alter_Some.
  intros [Hr [[<- (r0 & Hk & ->)] | [Hne Hk]]].
  - exfalso. specialize (Hacc r0 Hk). unfold char_leave in Hr. cbn [snd] in Hr.
    rewrite Hacc, Z.eqb_refl in Hr. destruct (Z.eqb_spec (cr_party_id r0) pid); cbn in Hr; lia.
  - cbn. split; [exact (not_eq_sym Hne) | split; assumption].
Qed.

Lemma view_wf_leave T pid acc cid :
  pid <> 0 -> (forall r, t_char T !! cid = Some r -> cr_account_id r = acc) ->
  view_wf T pid -> view_wf (set_char_table T (alter (char_leave pid acc) cid (t_char T))) pid.
Proof.
  intros Hp Hacc [Hr Hm]. split; [exact Hr|]. apply Forall_forall. intros kv Hkv.
  apply (party_members_leave _ _ _ _ _ Hp Hacc) in Hkv as [_ Hkv].
  exact (proj1 (Forall_forall _ _) Hm kv Hkv).
Qed.

(** A member of a loaded party is one of the table's members or a zero
    slot. *)
Lemma fill_members_elem lid lch l x :
  x ∈ fill_members (member_of lid lch <$> take MAX_PARTY l) ->
  x = member_zero \/ exists kv, kv ∈ l /\ x = member_of lid lch kv.
Proof.
  unfold fill_members. rewrite elem_of_app. intros [Hx | Hx].
  - right. apply list_elem_of_fmap in Hx as [kv [-> Hkv]]. exists kv. split; [|reflexivity].
    apply elem_of_take in Hkv as (i & Hl & _). by eapply list_elem_of_lookup_2.
  - left. apply list_elem_of_In, repeat_spec in Hx. exact Hx.
Qed.

(** C22. [save] with [PS_DELMEMBER] then [load], when no statement fails:
    the character [member[index]] names is no longer among the members
    [load] returns (whether the party is still found or not), when its row
    holds the account [member[index]] names, as the [UPDATE]'s
    [WHERE party_id AND account_id AND char_id] requires. *)
Theorem save_delmember_then_load db c p q index :
  let T := sv_tables (c_server c) in
  let m := nth (Z.to_nat index) (member p) member_zero in
  c_faults c = [] -> party_id p <> 0 -> 0 <= index < Z.of_nat MAX_PARTY ->
  (forall r, t_char T !! char_id m = Some r -> cr_account_id r = account_id m) ->
  view_wf T (party_id p) ->
  exists c', party_db_sql_save db PS_DELMEMBER index (c, p) = Ok true (c', p) /\
    exists b v, mmo_party_fromsql db (party_id p) (c', q) = Ok b (set_rs c' rs_empty, v) /\
      forall x, x ∈ member v -> char_id x = char_id m -> x = member_zero.
Proof.
  cbv zeta. intros Hf Hp Hi Hacc Hw.
  eexists. split; [apply party_db_sql_save_nofault; (assumption || reflexivity)|].
  unfold save_effect. eval_conds. cbn [eff_when]. unfold eff_delmember.
  set (cid := char_id (nth (Z.to_nat index) (member p) member_zero)) in *.
  set (T' := set_char_table _ _).
  assert (Hw' : view_wf T' (party_id p)) by (apply view_wf_leave; assumption).
  rewrite fromsql_nofault by (reflexivity || exact Hw').
  cbn [c_server sv_tables].
  destruct (party_view T' (party_id p)) as [v|] eqn:Ev.
  - eexists _, _. split; [reflexivity|].
    unfold party_view in Ev. apply bind_Some in Ev as (r & _ & Ev). injection Ev as <-.
    cbn [member]. intros x Hx Hc.
    apply fill_members_elem in Hx as [-> | (kv & Hkv & ->)]; [reflexivity|].
    apply (party_members_leave _ _ _ _ _ Hp Hacc) in Hkv as [Hne _].
    unfold member_of in Hc. cbn in Hc. congruence.
  - eexists _, _. split; [reflexivity|]. intros x Hx _. cbn in Hx.
    apply list_elem_of_In in Hx. repeat destruct Hx as [<- | Hx]; try reflexivity.
    destruct Hx.
Qed.

(** [member_of] flags exactly the member whose account and character are
    the row's leader columns. *)
Lemma member_of_leader lid lch kv :
  leader (member_of lid lch kv) = 1 <->
  member_of lid lch kv <> member_zero /\ account_id (member_of lid lch kv) = lid /\
  char_id (member_of lid lch kv) = lch.
Proof.
  unfold member_of; cbn [leader account_id char_id].
  destruct (cr_account_id kv.2 =? lid) eqn:E1, (kv.1 =? lch) eqn:E2; cbn;
    rewrite ?Z.eqb_eq, ?Z.eqb_neq in *; split; try (intros; lia);
    try (intros _; split; [intros H; injection H; lia | lia]);
    intros (_ & ? & ?); lia.
Qed.

(** C23. [save] with [PS_LEADER] then [load], when no statement fails: the
    party is found, and a loaded member carries the leader flag exactly when
    it is a real member whose account and character are those of
    [member[index]]; at most that member is the leader. *)
Theorem save_leader_then_load db c p q index r :
  let T := sv_tables (c_server c) in
  let m := nth (Z.to_nat index) (member p) member_zero in
  c_faults c = [] -> party_id p <> 0 -> 0 <= index < Z.of_nat MAX_PARTY ->
  t_party T !! party_id p = Some r -> in_int (account_id m) -> in_int (char_id m) ->
  view_wf T (party_id p) ->
  exists c', party_db_sql_save db PS_LEADER index (c, p) = Ok true (c', p) /\
    exists v, mmo_party_fromsql db (party_id p) (c', q) = Ok true (set_rs c' rs_empty, v) /\
      forall x, x ∈ member v ->
        (leader x = 1 <-> x <> member_zero /\ account_id x = account_id m /\ char_id x = char_id m).
Proof.
  cbv zeta. intros Hf Hp Hi Hr Ha Hc [Hrow Hms].
  eexists. split; [apply party_db_sql_save_nofault; (assumption || reflexivity)|].
  unfold save_effect. eval_conds. cbn [eff_when]. unfold eff_leader.
  set (m := nth (Z.to_nat index) (member p) member_zero) in *.
  destruct (Hrow r Hr) as (Hid & He & Hit & _).
  rewrite fromsql_nofault; [|reflexivity|].
  2: { split; [|exact Hms]. intros r' Hr'. cbn [sv_tables c_server t_party set_party_table] in Hr'.
       rewrite lookup_alter_eq, Hr in Hr'. injection Hr' as <-.
       unfold row_ints, row_leader; cbn [pr_exp pr_item pr_leader_id pr_leader_char]; tauto. }
  cbn [sv_tables c_server]. unfold party_view. cbn [t_party set_party_table].
  rewrite lookup_alter_eq, Hr. cbn [mbind option_bind fmap option_fmap option_map].
  eexists. split; [reflexivity|]. cbn [member row_leader pr_leader_id pr_leader_char].
  intros x Hx. apply fill_members_elem in Hx as [-> | (kv & _ & ->)]; [|apply member_of_leader].
  cbn. split; [discriminate | intros ([] & _); reflexivity].
Qed.

(** C21. [save] with [PS_BASIC] then [load] when no statement fails: the name
    and the two flags are those saved, every other field (the members and
    their leader flags) those loaded before. *)
Theorem save_basic_then_load db c p q index r :
  c_faults c = [] -> party_id p <> 0 ->
  t_party (sv_tables (c_server c)) !! party_id p = Some r ->
  view_wf (sv_tables (c_server c)) (party_id p) ->
  fits NAME_LENGTH (name p) = true -> 0 <= exp p <= 1 -> 0 <= item p <= 3 ->
  exists c' v, party_view (sv_tables (c_server c)) (party_id p) = Some v /\
    party_db_sql_save db PS_BASIC index (c, p) = Ok true (c', p) /\
    mmo_party_fromsql db (party_id p) (c', q) =
      Ok true (set_rs c' rs_empty, mk_party (party_id p) (name p) (exp p) (item p) (member v)).
Proof.
  intros Hf Hp Hr [Hrow Hms] Hn He Hi.
  eexists _, _. split; [unfold party_view; rewrite Hr; reflexivity|].
  split; [by apply party_db_sql_save_basic|].
  rewrite bound_name_fits by exact Hn.
  destruct (Hrow r Hr) as (Hid & _ & _ & Hl1 & Hl2).
  rewrite fromsql_nofault; [|reflexivity|].
  2: { split; [|exact Hms]. intros r' Hr'. cbn [sv_tables c_server t_party set_party_table] in Hr'.
       rewrite lookup_alter_eq, Hr in Hr'. simpl in Hr'. injection Hr' as <-.
       unfold row_ints, row_basic, in_int, INT_MIN, INT_MAX in *; simpl; lia. }
  cbn [sv_tables c_server]. unfold party_view. cbn [t_party set_party_table].
  rewrite lookup_alter_eq, Hr. simpl.
  unfold fits in Hn. apply andb_prop in Hn as [Hn _]. apply Nat.ltb_lt in Hn.
  rewrite safestrncpy_id by exact Hn.
  rewrite (wrap_small_bits 1 (exp p)), (wrap_small_bits 2 (item p))
    by (change (2 ^ 1) with 2; change (2 ^ 2) with 4; lia).
  reflexivity.
Qed.

Lemma parties_named_dom T b nm id :
  id ∈ parties_named T b nm -> id ∈ dom (t_party T).
Proof.
  unfold parties_named. rewrite list_elem_of_fmap.
  intros ([k r] & -> & Hin). apply list_elem_of_filter in Hin as [_ Hin].
  apply elem_of_map_to_list in Hin. apply elem_of_dom. eauto.
Qed.

(** C26. [name2id] when no statement fails, for a name short enough for the
    escape buffer: the id when exactly one party has the name (case
    folded, as [case_sensitive] is [false]); failure, with the output
    untouched, both when none and when several have it: the caller cannot
    tell an ambiguous name from an unknown one. *)
Theorem party_db_sql_name2id_spec db nm c out :
  c_faults c = [] -> (String.length nm <= NAME_LENGTH)%nat ->
  (forall id, id ∈ dom (t_party (sv_tables (c_server c))) -> in_int id) ->
  party_db_sql_name2id db nm (c, out) =
    match parties_named (sv_tables (c_server c)) (case_sensitive db) nm with
    | [id] => Ok true (set_rs c rs_empty, id)
    | _ => Ok false (set_rs c rs_empty, out)
    end.
Proof.
  intros Hf Hlen Hints. destruct c as [[T ai tx] rs iid fs]. simpl in *. subst fs.
  pose proof (sql_escape_length nm) as He.
  unfold party_db_sql_name2id.
  rewrite (proj2 (Nat.ltb_ge _ _)) by (unfold NAME_LENGTH in *; lia).
  unfold Sql_Query, Sql_NumRows, Sql_NextRow, Sql_GetData, Sql_FreeResult, on_conn, gets, modify.
  run_sql. cbn [exec_data]. rewrite literal_value_escape.
  destruct (parties_named T (case_sensitive db) nm) as [|id [|id2 l]] eqn:E; run_sql; try reflexivity.
  rewrite atoi_fmt_Z; [reflexivity|]. apply Hints, (parties_named_dom T (case_sensitive db) nm).
  rewrite E. left.
Qed.

(** [remove] when no statement fails: the characters of the party are
    detached and its row deleted, whether or not the party existed. *)
Lemma party_db_sql_remove_nofault db pid c :
  c_faults c = [] ->
  let T := sv_tables (c_server c) in
  party_db_sql_remove db pid c =
    Ok true (mk_conn (mk_server (mk_tables (delete pid (t_party T)) (char_clear pid <$> t_char T))
                                (sv_auto_inc (c_server c)) None) rs_empty (c_insert_id c) []).
Proof. destruct c as [[T ai tx] rs iid fs]. simpl. intros ->. reflexivity. Qed.

(** No character refers to [pid] once [char_clear pid] has run on every
    row ([pid <> 0]: [0] is the "no party" value). *)
Lemma party_members_cleared t m pid :
  pid <> 0 -> t_char t = char_clear pid <$> m -> party_members t pid = [].
Proof.
  intros Hp Ht. apply elem_of_nil_inv. intros [k r]. unfold party_members. rewrite Ht.
  rewrite (list_elem_of_filter (fun kv : Z * char_row => cr_party_id kv.2 = pid)),
    elem_of_map_to_list, lookup_fmap.
  intros [Hr Hk]. simpl in Hr. destruct (m !! k) as [r0|]; [|discriminate].
  injection Hk as <-. unfold char_clear in Hr.
  destruct (cr_party_id r0 =? pid) eqn:E; simpl in Hr; [lia|]. apply Z.eqb_neq in E. lia.
Qed.

(** C25. [remove] then [load] when no statement fails: [remove] succeeds, no
    character refers to the party any more, and [load] reports not-found. *)
Theorem remove_then_load db pid c q :
  c_faults c = [] -> pid <> 0 ->
  exists c', party_db_sql_remove db pid c = Ok true c' /\
    sv_tx (c_server c') = None /\
    party_members (sv_tables (c_server c')) pid = [] /\
    mmo_party_fromsql db pid (c', q) = Ok false (set_rs c' rs_empty, party_zero).
Proof.
  intros Hf Hp. eexists. split; [by apply party_db_sql_remove_nofault|].
  split; [done|]. split; [by eapply party_members_cleared|].
  rewrite fromsql_nofault; [|reflexivity|].
  - unfold party_view. simpl. by rewrite lookup_delete_eq.
  - split; [intros r; simpl; by rewrite lookup_delete_eq|].
    simpl. erewrite party_members_cleared by done. constructor.
Qed.

(** C33. A name of at most [NAME_LENGTH] characters escapes into
    [esc_name[2*NAME_LENGTH+1]]: [name2id] has no undefined behaviour. *)
Theorem party_db_sql_name2id_defined db nm :
  (String.length nm <= NAME_LENGTH)%nat -> defined (party_db_sql_name2id db nm).
Proof.
  intros Hlen. pose proof (sql_escape_length nm) as He.
  unfold party_db_sql_name2id.
  rewrite (proj2 (Nat.ltb_ge _ _)) by (unfold NAME_LENGTH in *; lia).
  defined_solve.
Qed.

(** ** The iterator *)

(** The keys of the party table, in the table's order. *)
Definition party_keys (t : tables) : list Z := (map_to_list (t_party t)).*1.

(** The key column is an [int]. *)
Definition keys_int (t : tables) : Prop := map_Forall (fun k _ => in_int k) (t_party t).

Lemma row_keys_party_keys t :
  keys_int t -> row_key <$> ((fun kv => [fmt_Z kv.1]) <$> map_to_list (t_party t)) = party_keys t.
Proof.
  intros H. apply map_Forall_to_list in H. unfold party_keys. rewrite <- list_fmap_compose.
  apply Forall_fmap_ext_1. eapply Forall_impl; [exact H|]. intros [k r] Hk. by apply atoi_fmt_Z.
Qed.

(** When the query's round trip succeeds, the iterator holds the keys of
    the table and the server is left as it was. *)
Lemma party_db_sql_iterator_nofault db c :
  hd false (c_faults c) = false -> keys_int (sv_tables (c_server c)) ->
  party_db_sql_iterator db c =
    Ok (mk_iter (party_keys (sv_tables (c_server c)))
                (Z.of_nat (length (party_keys (sv_tables (c_server c))))) (-1))
       (mk_conn (c_server c) rs_empty (c_insert_id c) (tail (c_faults c))).
Proof.
  destruct c as [[T ai tx] rs iid fs]. cbn. intros Hf Hk. unfold party_db_sql_iterator.
  rewrite (csdb_sql_iterator_ok _ _ (mk_conn (mk_server T ai tx) rs_empty iid (tail fs))
             (mk_server T ai tx) ((fun kv => [fmt_Z kv.1]) <$> map_to_list (t_party T)) 0).
  - rewrite row_keys_party_keys by exact Hk. unfold party_keys. by rewrite !length_fmap.
  - destruct fs as [|[] fs]; cbn in *; [reflexivity | discriminate | reflexivity].
  - reflexivity.
Qed.

Lemma party_keys_lookup t k : k ∈ party_keys t <-> is_Some (t_party t !! k).
Proof.
  unfold party_keys. rewrite list_elem_of_fmap. split.
  - intros [[k' r] [-> Hin]]. apply elem_of_map_to_list in Hin. by exists r.
  - intros [r Hr]. exists (k, r). split; [done|]. by apply elem_of_map_to_list.
Qed.

(** The iterator [party_db_sql_iterator] returns, under every
    pattern of failures, a well-formed iterator, and the caller's loop
    [while (iter->next(iter, &key))] over it stops: after as many keys as
    the iterator holds, [next] reports the end. *)
Theorem party_iterator_terminates db c :
  exists it c', party_db_sql_iterator db c = Ok it c' /\ iter_wf it /\
    length (iter_keys (iter_measure it) it).1 = iter_measure it /\
    csdb_sql_iterator_next (iter_keys (iter_measure it) it).2 = (None, (iter_keys (iter_measure it) it).2).
Proof.
  destruct (csdb_sql_iterator_total SelectPartyIds c) as (it & c' & E & Hw).
  exists it, c'. split; [exact E|]. split; [exact Hw|]. by apply iter_keys_exhausts.
Qed.

(** Every party in the table when the iterator is created is returned
    by it after finitely many advances, when the query's round trip
    succeeds. *)
Theorem party_iterator_reaches_every_party db c it c' k r :
  hd false (c_faults c) = false -> keys_int (sv_tables (c_server c)) ->
  t_party (sv_tables (c_server c)) !! k = Some r ->
  party_db_sql_iterator db c = Ok it c' ->
  exists n, (csdb_sql_iterator_next (advance n it)).1 = Some k.
Proof.
  intros Hf Hk Hr E. rewrite party_db_sql_iterator_nofault in E by assumption. injection E as <- _.
  assert (k ∈ party_keys (sv_tables (c_server c))) as Hin by (apply party_keys_lookup; eauto).
  apply list_elem_of_lookup in Hin as [i Hi]. exists i. by apply advance_returns.
Qed.

(** When the query's round trip succeeds, the loop over the iterator
    returns each party id of the table exactly once and nothing else, and
    creating the iterator changes nothing on the server. *)
Theorem party_iterator_keys db c it c' :
  hd false (c_faults c) = false -> keys_int (sv_tables (c_server c)) ->
  party_db_sql_iterator db c = Ok it c' ->
  let ks := (iter_keys (iter_measure it) it).1 in
  NoDup ks /\ (forall k, k ∈ ks <-> is_Some (t_party (sv_tables (c_server c)) !! k)) /\
  c_server c' = c_server c.
Proof.
  intros Hf Hk E. rewrite party_db_sql_iterator_nofault in E by assumption. injection E as <- <-.
  cbn zeta. rewrite iter_keys_remaining; cbn; [|lia | lia | unfold iter_measure; cbn; lia].
  unfold remaining. cbn. rewrite drop_0. split; [apply NoDup_fst_map_to_list|].
  split; [apply party_keys_lookup | reflexivity].
Qed.

(** ** Decision procedures for the hypotheses of the theorems *)

Definition member_ints_b (kv : Z * char_row) : bool := int_b kv.1 && int_b (cr_account_id kv.2).
Definition row_ints_b (pid : Z) (r : party_row) : bool :=
  int_b pid && int_b (pr_exp r) && int_b (pr_item r) && int_b (pr_leader_id r) && int_b (pr_leader_char r).
Definition view_wf_b (t : tables) (pid : Z) : bool :=
  match t_party t !! pid with Some r => row_ints_b pid r | None => true end &&
  forallb member_ints_b (party_members t pid).

Lemma view_wf_b_sound t pid : view_wf_b t pid = true -> view_wf t pid.
Proof.
  unfold view_wf_b. intros H. apply andb_prop in H as [Hr Hm]. split.
  - intros r E. rewrite E in Hr. unfold row_ints_b in Hr. ea_andb.
    repeat split; by apply int_b_spec.
  - apply Forall_forall. intros kv Hkv. apply forallb_forall with (x := kv) in Hm;
      [|by apply list_elem_of_In].
    apply andb_prop in Hm as [H1 H2]. split; by apply int_b_spec.
Qed.

Definition keys_int_b (t : tables) : bool := forallb int_b (party_keys t).

Lemma keys_int_b_sound t : keys_int_b t = true -> keys_int t.
Proof.
  unfold keys_int_b, keys_int. intros H k r Hr. apply int_b_spec.
  rewrite forallb_forall in H. apply H, list_elem_of_In, party_keys_lookup. eauto.
Qed.

Definition sv_inv_b (sv : server) : bool :=
  (0 <? sv_auto_inc sv) &&
  bool_decide (set_Forall (fun id => id < sv_auto_inc sv) (dom (t_party (sv_tables sv)))) &&
  match sv_tx sv with
  | Some t => bool_decide (set_Forall (fun id => id < sv_auto_inc sv) (dom (t_party t)))
  | None => true
  end.

Lemma sv_inv_b_sound sv : sv_inv_b sv = true -> sv_inv sv.
Proof.
  unfold sv_inv_b, sv_inv. intros H.
  apply andb_prop in H as [H Htx]. apply andb_prop in H as [Hpos Hb].
  split; [lia|]. split.
  - by apply bool_decide_eq_true in Hb.
  - destruct (sv_tx sv); [|done]. by apply bool_decide_eq_true in Htx.
Qed.

(** ** Concrete runs *)

Definition sample_owner : CharServerDB_SQL := mk_owner 1 "char" "party".
Definition sample_db : PartyDB_SQL := (party_db_sql_init (party_db_sql sample_owner)).2.
Definition sample_chars : gmap Z char_row := <[7 := mk_char_row 100 0]> (<[8 := mk_char_row 101 0]> ∅).
Definition sample_conn : conn := mk_conn (mk_server (mk_tables ∅ sample_chars) 1 None) rs_empty 0 [].
Definition sample_party : party := mk_party (-1) "Heroes" 1 2 (mk_member 100 7 1 :: repeat member_zero 11).
Definition sample_row : party_row := mk_party_row "Heroes" 1 2 100 7.
Definition sample_conn_1 : conn :=
  mk_conn (mk_server (mk_tables {[1 := sample_row]} (<[7 := mk_char_row 100 1]> (<[8 := mk_char_row 101 0]> ∅)))
                     2 None) rs_empty 1 [].
(** Two parties, 1 and 2. *)
Definition sample_conn_2 : conn :=
  mk_conn (mk_server (mk_tables (<[2 := mk_party_row "Villains" 0 0 101 8]> {[1 := sample_row]})
                                (<[7 := mk_char_row 100 1]> (<[8 := mk_char_row 101 2]> ∅)))
                     3 None) rs_empty 2 [].
Definition sample_saved : party := mk_party 1 "Villains" 0 0 (mk_member 101 8 0 :: repeat member_zero 11).

(** C29. A [save] of [PS_BASIC|PS_LEADER] whose leader update fails and whose
    [ROLLBACK] fails too reports failure with nothing committed yet, but
    leaves the transaction open with the name already rewritten: the
    [START TRANSACTION] of whatever operation comes next commits the new
    name without the new leader, a partial update the caller was told did
    not happen. *)
Theorem failed_rollback_commits_partial_update db c p index fs :
  let T := sv_tables (c_server c) in
  c_faults c = [false; false; true; true] ++ fs -> sv_tx (c_server c) = None ->
  party_id p <> 0 -> 0 <= index < Z.of_nat MAX_PARTY ->
  exists c1, party_db_sql_save db (Z.lor PS_BASIC PS_LEADER) index (c, p) = Ok false (c1, p) /\
    committed (c_server c1) = T /\ sv_tx (c_server c1) = Some T /\
    forall c2, Sql_Query StartTransaction c1 = Ok true c2 -> committed (c_server c2) = eff_basic p T.
Proof.
  cbv zeta. intros Hf Htx Hp Hi. destruct c as [[T ai tx] rs iid fs0]. simpl in *. subst fs0 tx.
  pose proof (index_in_range index Hi) as Hr.
  unfold party_db_sql_save, mmo_party_tosql, sql_transaction, tosql_body, when,
    tosql_basic, tosql_leader, member_ref, get_party, catch_break, Sql_Query, gets.
  run_sql. rewrite (proj2 (Z.eqb_neq _ _) Hp). run_sql. rewrite ?Hr. run_sql.
  eexists. split; [reflexivity|]. cbn. split; [reflexivity|]. split; [reflexivity|].
  intros c2. destruct fs as [|[] fs]; cbn; intros [= <-]; cbn; unfold eff_basic;
    by rewrite literal_value_escape.
Qed.

(** C30. When the [AUTO_INCREMENT] value [ai] exceeds [INT_MAX] (the column
    is [int unsigned]) and no statement fails, [(int)SqlStmt_LastInsertId]
    wraps: [create] stores the row under [ai] and reports success, but
    hands back the negative id [(int)ai], under which [load] finds
    nothing. *)
Theorem create_id_wraps db c p q :
  let ai := sv_auto_inc (c_server c) in
  c_faults c = [] -> sv_inv (c_server c) -> party_id p = -1 -> INT_MAX < ai < 2 ^ 32 ->
  t_party (sv_tables (c_server c)) !! int32 ai = None ->
  exists c', party_db_sql_create db (c, p) = Ok true (c', set_party_id p (int32 ai)) /\
    int32 ai = ai - 2 ^ 32 /\ is_Some (t_party (sv_tables (c_server c')) !! ai) /\
    mmo_party_fromsql db (int32 ai) (c', q) = Ok false (set_rs c' rs_empty, party_zero).
Proof.
  cbv zeta. intros Hf Hi Hp Hai Hnone.
  assert (Hw : int32 (sv_auto_inc (c_server c)) = sv_auto_inc (c_server c) - 2 ^ 32).
  { unfold int32, wrap_signed, INT_MAX in *. change (2 ^ (32 - 1)) with (2 ^ 31).
    rewrite Z.mod_small by lia. destruct (Z.leb_spec (2 ^ 31) (sv_auto_inc (c_server c))); lia. }
  eexists. split; [unfold party_db_sql_create; apply (tosql_create_nofault_any db c p Hf Hi Hp)|].
  split; [exact Hw|]. cbn [c_server sv_tables t_party]. split; [rewrite lookup_insert_eq; eauto|].
  apply fromsql_absent; [reflexivity|]. cbn [c_server sv_tables t_party].
  rewrite lookup_insert_ne by (rewrite Hw; lia). exact Hnone.
Qed.

Lemma sample_create : party_db_sql_create sample_db (sample_conn, sample_party) =
  Ok true (sample_conn_1, set_party_id sample_party 1).
Proof. vm_compute. reflexivity. Qed.


(** ** Witnesses *)

(** [sample_conn_1] with a given pattern of failures. *)
Definition sample_faults (fs : list bool) : conn := mk_conn (c_server sample_conn_1) rs_empty 1 fs.

Lemma mmo_party_tosql_atomic_witness :
  tx_of ((sample_faults [false; false; true; false], sample_saved) : PS) = None /\
  match mmo_party_tosql sample_db (Z.lor PS_BASIC PS_LEADER) 0
          (sample_faults [false; false; true; false], sample_saved) with
  | Ok false s' => committed (server_of s') =
                   tables_of ((sample_faults [false; false; true; false], sample_saved) : PS)
  | Ok true s' => tx_of s' = None
  | Brk _ => False
  | Undef => True
  end.
Proof. split; [reflexivity|]. apply mmo_party_tosql_atomic. reflexivity. Defined.

Lemma party_db_sql_remove_atomic_witness :
  sv_tx (c_server (sample_faults [false; true; false])) = None /\
  match party_db_sql_remove sample_db 1 (sample_faults [false; true; false]) with
  | Ok false c' => committed (c_server c') = sv_tables (c_server (sample_faults [false; true; false]))
  | Ok true c' => sv_tx (c_server c') = None /\
                  sv_tables (c_server c') = remove_effect 1 (sv_tables (c_server (sample_faults [false; true; false])))
  | Brk _ | Undef => False
  end.
Proof. split; [reflexivity|]. apply party_db_sql_remove_atomic. reflexivity. Defined.

Lemma mmo_party_tosql_defined_witness :
  (0 <= 0 < Z.of_nat MAX_PARTY) /\ defined (mmo_party_tosql sample_db PS_LEADER 0).
Proof.
  assert (H : 0 <= 0 < Z.of_nat MAX_PARTY) by (split; [lia|reflexivity]).
  split; [exact H|]. exact (mmo_party_tosql_defined sample_db PS_LEADER 0 H).
Defined.

Lemma party_reachable_inv_witness :
  sv_inv (c_server sample_conn) /\ rtc party_step sample_conn sample_conn_1 /\
  sv_inv (c_server sample_conn_1).
Proof.
  assert (H1 : sv_inv (c_server sample_conn)) by (apply sv_inv_b_sound; vm_compute; reflexivity).
  assert (H2 : rtc party_step sample_conn sample_conn_1)
    by (apply rtc_once; exact (ps_create _ _ _ _ _ _ sample_create)).
  split; [exact H1|]. split; [exact H2|]. exact (party_reachable_inv _ _ H1 H2).
Defined.

Lemma party_db_sql_load_spec_witness :
  c_faults sample_conn_1 = [] /\ view_wf (sv_tables (c_server sample_conn_1)) 1 /\
  party_db_sql_load sample_db 1 (sample_conn_1, party_zero) =
    match party_view (sv_tables (c_server sample_conn_1)) 1 with
    | Some v => Ok true (set_rs sample_conn_1 rs_empty, v)
    | None => Ok false (set_rs sample_conn_1 rs_empty, party_zero)
    end.
Proof.
  assert (Hw : view_wf (sv_tables (c_server sample_conn_1)) 1)
    by (apply view_wf_b_sound; vm_compute; reflexivity).
  split; [reflexivity|]. split; [exact Hw|]. by apply party_db_sql_load_spec.
Defined.

(** The invariant holds on [sample_conn]. *)
Lemma sample_conn_inv : sv_inv (c_server sample_conn).
Proof. apply sv_inv_b_sound. vm_compute. reflexivity. Qed.

Lemma party_db_sql_create_spec_witness :
  c_faults sample_conn = [] /\ sv_inv (c_server sample_conn) /\ party_id sample_party = -1 /\
  sv_auto_inc (c_server sample_conn) <= INT_MAX /\
  party_db_sql_create sample_db (sample_conn, sample_party) =
    Ok true (mk_conn (mk_server
      (mk_tables (<[1 := mk_party_row (bound_name "Heroes") (wrap_unsigned 8 1) (wrap_unsigned 8 2) 100 7]> ∅)
                 (alter (char_join 1 100) 7 sample_chars)) 2 None) rs_empty 1 [],
             set_party_id sample_party 1).
Proof.
  assert (Hmax : sv_auto_inc (c_server sample_conn) <= INT_MAX) by (vm_compute; discriminate).
  split; [reflexivity|]. split; [exact sample_conn_inv|]. split; [reflexivity|]. split; [exact Hmax|].
  exact (party_db_sql_create_spec sample_db sample_conn sample_party eq_refl sample_conn_inv eq_refl Hmax).
Defined.

Lemma create_then_load_witness :
  c_faults sample_conn = [] /\ sv_inv (c_server sample_conn) /\
  sv_auto_inc (c_server sample_conn) <= INT_MAX /\ party_id sample_party = -1 /\
  fits NAME_LENGTH (name sample_party) = true /\ 0 <= exp sample_party <= 1 /\
  0 <= item sample_party <= 3 /\
  member sample_party = mk_member 100 7 1 :: repeat member_zero (MAX_PARTY - 1) /\
  leader (mk_member 100 7 1) = 1 /\ in_int 100 /\ in_int 7 /\
  t_char (sv_tables (c_server sample_conn)) !! 7 = Some (mk_char_row 100 0) /\
  (forall k r, t_char (sv_tables (c_server sample_conn)) !! k = Some r ->
               cr_party_id r < sv_auto_inc (c_server sample_conn)) /\
  exists c', party_db_sql_create sample_db (sample_conn, sample_party) =
               Ok true (c', set_party_id sample_party 1) /\
             mmo_party_fromsql sample_db 1 (c', party_zero) =
               Ok true (set_rs c' rs_empty, set_party_id sample_party 1).
Proof.
  assert (Hmax : sv_auto_inc (c_server sample_conn) <= INT_MAX) by (vm_compute; discriminate).
  assert (Hn : fits NAME_LENGTH (name sample_party) = true) by reflexivity.
  assert (Hi : in_int 100 /\ in_int 7) by (unfold in_int, INT_MIN, INT_MAX; lia).
  assert (Hrefs : map_Forall (fun _ r => cr_party_id r < 1) sample_chars)
    by (apply (bool_decide_unpack _); vm_compute; exact I).
  do 13 (split; [first [reflexivity | exact sample_conn_inv | exact Hmax | exact Hn | (simpl; lia) | exact (proj1 Hi) | exact (proj2 Hi) | exact Hrefs]|]).
  exact (create_then_load sample_db sample_conn sample_party party_zero (mk_member 100 7 1) 0
           eq_refl sample_conn_inv Hmax eq_refl Hn ltac:(simpl; lia) ltac:(simpl; lia) eq_refl eq_refl
           (proj1 Hi) (proj2 Hi) eq_refl Hrefs).
Defined.

Lemma save_basic_then_load_witness :
  c_faults sample_conn_1 = [] /\ party_id sample_saved <> 0 /\
  t_party (sv_tables (c_server sample_conn_1)) !! party_id sample_saved = Some sample_row /\
  view_wf (sv_tables (c_server sample_conn_1)) (party_id sample_saved) /\
  fits NAME_LENGTH (name sample_saved) = true /\ 0 <= exp sample_saved <= 1 /\
  0 <= item sample_saved <= 3 /\
  exists c' v, party_view (sv_tables (c_server sample_conn_1)) (party_id sample_saved) = Some v /\
    party_db_sql_save sample_db PS_BASIC 0 (sample_conn_1, sample_saved) = Ok true (c', sample_saved) /\
    mmo_party_fromsql sample_db (party_id sample_saved) (c', party_zero) =
      Ok true (set_rs c' rs_empty, mk_party (party_id sample_saved) (name sample_saved)
                                     (exp sample_saved) (item sample_saved) (member v)).
Proof.
  assert (Hw : view_wf (sv_tables (c_server sample_conn_1)) (party_id sample_saved))
    by (apply view_wf_b_sound; vm_compute; reflexivity).
  assert (Hp : party_id sample_saved <> 0) by discriminate.
  do 7 (split; [first [reflexivity | exact Hp | exact Hw | simpl; lia]|]).
  exact (save_basic_then_load sample_db sample_conn_1 sample_saved party_zero 0 sample_row
           eq_refl Hp eq_refl Hw eq_refl ltac:(simpl; lia) ltac:(simpl; lia)).
Defined.

Lemma save_delmember_then_load_witness :
  let m := nth 0 (member sample_saved) member_zero in
  c_faults sample_conn_1 = [] /\ party_id sample_saved <> 0 /\ 0 <= 0 < Z.of_nat MAX_PARTY /\
  (forall r, t_char (sv_tables (c_server sample_conn_1)) !! char_id m = Some r ->
             cr_account_id r = account_id m) /\
  view_wf (sv_tables (c_server sample_conn_1)) (party_id sample_saved) /\
  exists c', party_db_sql_save sample_db PS_DELMEMBER 0 (sample_conn_1, sample_saved) = Ok true (c', sample_saved) /\
    exists b v, mmo_party_fromsql sample_db (party_id sample_saved) (c', party_zero) = Ok b (set_rs c' rs_empty, v) /\
      forall x, x ∈ member v -> char_id x = char_id m -> x = member_zero.
Proof.
  cbv zeta.
  assert (Hw : view_wf (sv_tables (c_server sample_conn_1)) (party_id sample_saved))
    by (apply view_wf_b_sound; vm_compute; reflexivity).
  assert (Hp : party_id sample_saved <> 0) by discriminate.
  assert (Hacc : forall r, t_char (sv_tables (c_server sample_conn_1)) !!
                   char_id (nth 0 (member sample_saved) member_zero) = Some r ->
                 cr_account_id r = account_id (nth 0 (member sample_saved) member_zero))
    by (intros r Hr; vm_compute in Hr; injection Hr as <-; reflexivity).
  split; [reflexivity|]. split; [exact Hp|]. split; [unfold MAX_PARTY; simpl; lia|]. split; [exact Hacc|].
  split; [exact Hw|].
  exact (save_delmember_then_load sample_db sample_conn_1 sample_saved party_zero 0
           eq_refl Hp ltac:(unfold MAX_PARTY; simpl; lia) Hacc Hw).
Defined.

Lemma save_leader_then_load_witness :
  let m := nth 0 (member sample_saved) member_zero in
  c_faults sample_conn_1 = [] /\ party_id sample_saved <> 0 /\ 0 <= 0 < Z.of_nat MAX_PARTY /\
  t_party (sv_tables (c_server sample_conn_1)) !! party_id sample_saved = Some sample_row /\
  in_int (account_id m) /\ in_int (char_id m) /\
  view_wf (sv_tables (c_server sample_conn_1)) (party_id sample_saved) /\
  exists c', party_db_sql_save sample_db PS_LEADER 0 (sample_conn_1, sample_saved) = Ok true (c', sample_saved) /\
    exists v, mmo_party_fromsql sample_db (party_id sample_saved) (c', party_zero) = Ok true (set_rs c' rs_empty, v) /\
      forall x, x ∈ member v ->
        (leader x = 1 <-> x <> member_zero /\ account_id x = account_id m /\ char_id x = char_id m).
Proof.
  cbv zeta.
  assert (Hw : view_wf (sv_tables (c_server sample_conn_1)) (party_id sample_saved))
    by (apply view_wf_b_sound; vm_compute; reflexivity).
  assert (Hp : party_id sample_saved <> 0) by discriminate.
  assert (Hi : 0 <= 0 < Z.of_nat MAX_PARTY) by (unfold MAX_PARTY; simpl; lia).
  assert (Ha : in_int (account_id (nth 0 (member sample_saved) member_zero)) /\
               in_int (char_id (nth 0 (member sample_saved) member_zero)))
    by (vm_compute; split; split; discriminate).
  do 7 (split; [first [reflexivity | exact Hp | exact Hi | exact (proj1 Ha) | exact (proj2 Ha) | exact Hw]|]).
  exact (save_leader_then_load sample_db sample_conn_1 sample_saved party_zero 0 sample_row
           eq_refl Hp Hi eq_refl (proj1 Ha) (proj2 Ha) Hw).
Defined.

Lemma create_explicit_id_collides_witness :
  c_faults sample_conn_1 = [] /\ sv_tx (c_server sample_conn_1) = None /\
  party_id sample_saved <> -1 /\ party_id sample_saved <> 0 /\
  t_party (sv_tables (c_server sample_conn_1)) !! party_id sample_saved = Some sample_row /\
  exists c', party_db_sql_create sample_db (sample_conn_1, sample_saved) = Ok false (c', sample_saved) /\
    c_server c' = c_server sample_conn_1.
Proof.
  assert (Hm : party_id sample_saved <> -1) by discriminate.
  assert (Hz : party_id sample_saved <> 0) by discriminate.
  do 5 (split; [first [reflexivity | exact Hm | exact Hz]|]).
  exact (create_explicit_id_collides sample_db sample_conn_1 sample_saved sample_row
           eq_refl eq_refl Hm Hz eq_refl).
Defined.

(** A server whose [AUTO_INCREMENT] value has passed [INT_MAX]. *)
Definition sample_conn_big : conn :=
  mk_conn (mk_server (mk_tables ∅ sample_chars) (2 ^ 31) None) rs_empty 0 [].

Lemma create_id_wraps_witness :
  let ai := sv_auto_inc (c_server sample_conn_big) in
  c_faults sample_conn_big = [] /\ sv_inv (c_server sample_conn_big) /\ party_id sample_party = -1 /\
  INT_MAX < ai < 2 ^ 32 /\ t_party (sv_tables (c_server sample_conn_big)) !! int32 ai = None /\
  exists c', party_db_sql_create sample_db (sample_conn_big, sample_party) =
               Ok true (c', set_party_id sample_party (int32 ai)) /\
    int32 ai = ai - 2 ^ 32 /\ is_Some (t_party (sv_tables (c_server c')) !! ai) /\
    mmo_party_fromsql sample_db (int32 ai) (c', party_zero) = Ok false (set_rs c' rs_empty, party_zero).
Proof.
  cbv zeta.
  assert (Hi : sv_inv (c_server sample_conn_big)).
  { split; [reflexivity|]. split; [|exact I]. intros id Hid. cbn in Hid. set_solver. }
  assert (Hb : INT_MAX < sv_auto_inc (c_server sample_conn_big) < 2 ^ 32)
    by (unfold INT_MAX; cbn; lia).
  do 5 (split; [first [reflexivity | exact Hi | exact Hb]|]).
  exact (create_id_wraps sample_db sample_conn_big sample_party party_zero eq_refl Hi eq_refl Hb eq_refl).
Defined.

Lemma failed_rollback_commits_partial_update_witness :
  let c := mk_conn (c_server sample_conn_1) rs_empty 1 [false; false; true; true] in
  c_faults c = [false; false; true; true] ++ [] /\ sv_tx (c_server c) = None /\
  party_id sample_saved <> 0 /\ 0 <= 0 < Z.of_nat MAX_PARTY /\
  exists c1, party_db_sql_save sample_db (Z.lor PS_BASIC PS_LEADER) 0 (c, sample_saved) =
               Ok false (c1, sample_saved) /\
    committed (c_server c1) = sv_tables (c_server c) /\ sv_tx (c_server c1) = Some (sv_tables (c_server c)) /\
    forall c2, Sql_Query StartTransaction c1 = Ok true c2 ->
      committed (c_server c2) = eff_basic sample_saved (sv_tables (c_server c)).
Proof.
  cbv zeta.
  assert (Hp : party_id sample_saved <> 0) by discriminate.
  assert (Hi : 0 <= 0 < Z.of_nat MAX_PARTY) by (unfold MAX_PARTY; simpl; lia).
  do 4 (split; [first [reflexivity | exact Hp | exact Hi]|]).
  exact (failed_rollback_commits_partial_update sample_db
           (mk_conn (c_server sample_conn_1) rs_empty 1 [false; false; true; true]) sample_saved 0 []
           eq_refl eq_refl Hp Hi).
Defined.

Lemma remove_then_load_witness :
  c_faults sample_conn_1 = [] /\ 1 <> 0 /\
  exists c', party_db_sql_remove sample_db 1 sample_conn_1 = Ok true c' /\
    sv_tx (c_server c') = None /\
    party_members (sv_tables (c_server c')) 1 = [] /\
    mmo_party_fromsql sample_db 1 (c', sample_saved) = Ok false (set_rs c' rs_empty, party_zero).
Proof.
  split; [reflexivity|]. split; [lia|].
  exact (remove_then_load sample_db 1 sample_conn_1 sample_saved eq_refl ltac:(lia)).
Defined.

Lemma party_db_sql_name2id_spec_witness :
  c_faults sample_conn_1 = [] /\ (String.length "heroes" <= NAME_LENGTH)%nat /\
  (forall id, id ∈ dom (t_party (sv_tables (c_server sample_conn_1))) -> in_int id) /\
  party_db_sql_name2id sample_db "heroes" (sample_conn_1, 0) =
    match parties_named (sv_tables (c_server sample_conn_1)) (case_sensitive sample_db) "heroes" with
    | [id] => Ok true (set_rs sample_conn_1 rs_empty, id)
    | _ => Ok false (set_rs sample_conn_1 rs_empty, 0)
    end.
Proof.
  assert (Hl : (String.length "heroes" <= NAME_LENGTH)%nat) by (vm_compute; lia).
  assert (Hd : set_Forall in_int (dom (t_party (sv_tables (c_server sample_conn_1)))))
    by (apply (bool_decide_unpack _); vm_compute; exact I).
  split; [reflexivity|]. split; [exact Hl|]. split; [exact Hd|].
  exact (party_db_sql_name2id_spec sample_db "heroes" sample_conn_1 0 eq_refl Hl Hd).
Defined.

Lemma party_db_sql_name2id_defined_witness :
  (String.length "heroes" <= NAME_LENGTH)%nat /\ defined (party_db_sql_name2id sample_db "heroes").
Proof.
  assert (Hl : (String.length "heroes" <= NAME_LENGTH)%nat) by (vm_compute; lia).
  split; [exact Hl|]. exact (party_db_sql_name2id_defined sample_db "heroes" Hl).
Defined.

Lemma save_kinds_sequential_witness :
  c_faults sample_conn_1 = [] /\ party_id sample_saved <> 0 /\
  has_flag (Z.lor PS_BASIC PS_ADDMEMBER) PS_CREATE = false /\ 0 <= 0 < Z.of_nat MAX_PARTY /\
  party_db_sql_save sample_db (Z.lor PS_BASIC PS_ADDMEMBER) 0 (sample_conn_1, sample_saved) =
    (party_db_sql_save sample_db (Z.land (Z.lor PS_BASIC PS_ADDMEMBER) PS_BASIC) 0;;
     party_db_sql_save sample_db (Z.land (Z.lor PS_BASIC PS_ADDMEMBER) PS_LEADER) 0;;
     party_db_sql_save sample_db (Z.land (Z.lor PS_BASIC PS_ADDMEMBER) PS_ADDMEMBER) 0;;
     party_db_sql_save sample_db (Z.land (Z.lor PS_BASIC PS_ADDMEMBER) PS_DELMEMBER) 0)
      (sample_conn_1, sample_saved).
Proof.
  assert (Hp : party_id sample_saved <> 0) by (cbn; lia).
  assert (Hc : has_flag (Z.lor PS_BASIC PS_ADDMEMBER) PS_CREATE = false) by (vm_compute; reflexivity).
  assert (Hi : 0 <= 0 < Z.of_nat MAX_PARTY) by (unfold MAX_PARTY; lia).
  split; [reflexivity|]. split; [exact Hp|]. split; [exact Hc|]. split; [exact Hi|].
  exact (save_kinds_sequential sample_db (Z.lor PS_BASIC PS_ADDMEMBER) 0 sample_conn_1 sample_saved
           eq_refl Hp Hc Hi).
Defined.

Lemma party_iterator_reaches_every_party_witness :
  hd false (c_faults sample_conn_2) = false /\ keys_int (sv_tables (c_server sample_conn_2)) /\
  exists it c', party_db_sql_iterator sample_db sample_conn_2 = Ok it c' /\
    exists n, (csdb_sql_iterator_next (advance n it)).1 = Some 2.
Proof.
  assert (Hk : keys_int (sv_tables (c_server sample_conn_2))) by (apply keys_int_b_sound; vm_compute; reflexivity).
  split; [reflexivity|]. split; [exact Hk|].
  destruct (party_db_sql_iterator sample_db sample_conn_2) as [it c'| |] eqn:E;
    try (vm_compute in E; discriminate).
  exists it, c'. split; [reflexivity|].
  exact (party_iterator_reaches_every_party sample_db sample_conn_2 it c' 2
           (mk_party_row "Villains" 0 0 101 8) eq_refl Hk eq_refl E).
Defined.

Lemma party_iterator_keys_witness :
  hd false (c_faults sample_conn_2) = false /\ keys_int (sv_tables (c_server sample_conn_2)) /\
  exists it c', party_db_sql_iterator sample_db sample_conn_2 = Ok it c' /\
    let ks := (iter_keys (iter_measure it) it).1 in
    NoDup ks /\ (forall k, k ∈ ks <-> is_Some (t_party (sv_tables (c_server sample_conn_2)) !! k)) /\
    c_server c' = c_server sample_conn_2.
Proof.
  assert (Hk : keys_int (sv_tables (c_server sample_conn_2))) by (apply keys_int_b_sound; vm_compute; reflexivity).
  split; [reflexivity|]. split; [exact Hk|].
  destruct (party_db_sql_iterator sample_db sample_conn_2) as [it c'| |] eqn:E;
    try (vm_compute in E; discriminate).
  exists it, c'. split; [reflexivity|].
  exact (party_iterator_keys sample_db sample_conn_2 it c' eq_refl Hk E).
Defined.

End PartySQL.
