(* ===== verification/PartyIface.v ===== *)
(** * The contract of the party backends and a client of it

    [struct PartyDB] (partydb.h, not under [src/]) is the interface the
    character server holds: it never sees [PartyDB_SQL].  [PartyDBLaws]
    states, against the abstract view of the server's tables
    ([party_view], [party_keys]), what the client below relies on: the
    iterator yields the keys of the table and leaves the server alone,
    and [load] returns a party's view without changing the server.  Both
    hold of any round-trip-free run of the SQL backend's vtable
    ([party_db_sql_sql_laws]).

    The client is the startup pattern of a server that keeps its parties
    in memory: take the iterator, and for each key it returns load the
    party into the caller's struct and keep a copy.  The iterator and
    [load] share the connection, and [load] issues its own queries
    between two advances: the client theorem shows that this
    interleaving yields the view of every party, which holds because the
    iterator holds its keys itself (spec section 4.4). *)

From S2P Require Import Prelude CLib Account SqlModel CsdbIterator PartySql.
Import CSDBIter PartySQL.

Module PartyIface.

(** ** The contract *)

Class PartyDBLaws {Obj} (vt : PartyDB Obj) : Prop := {
  law_iterator o c :
    c_faults c = [] -> keys_int (sv_tables (c_server c)) ->
    exists it c', vt_iterator vt o c = Ok it c' /\ iter_wf it /\
      remaining it = party_keys (sv_tables (c_server c)) /\
      c_server c' = c_server c /\ c_faults c' = [];
  law_load o pid c p :
    c_faults c = [] -> view_wf (sv_tables (c_server c)) pid ->
    exists c', vt_load vt o pid (c, p) =
      match party_view (sv_tables (c_server c)) pid with
      | Some v => Ok true (c', v)
      | None => Ok false (c', party_zero)
      end /\ c_server c' = c_server c /\ c_faults c' = []
}.

(** ** The client *)

(** A program on the connection alone, run on the state with the struct. *)
Definition with_struct {A} (m : M conn A) : M PS A := fun s =>
  match m s.1 with Ok a c => Ok a (c, s.2) | Brk c => Brk (c, s.2) | Undef => Undef end.

Section Client.
Context {Obj : Type} (vt : PartyDB Obj) (o : Obj).

(** [n] rounds of [while (iter->next(iter, &key)) { if (db->load(db, &p,
    key)) keep(p); }]. *)
Fixpoint load_keys (n : nat) (it : CSDBIterator_SQL) : M PS (list party) :=
  match n with
  | O => mret []
  | S n' =>
      match csdb_sql_iterator_next it with
      | (None, _) => mret []
      | (Some k, it') =>
          vt_load vt o k ≫= λ ok : bool,
          get_party ≫= λ p : party,
          load_keys n' it' ≫= λ ps : list party,
          mret (if ok then p :: ps else ps)
      end
  end.

(** The whole loop: as many rounds as the iterator holds keys. *)
Definition load_all : M PS (list party) :=
  it ← with_struct (vt_iterator vt o);
  load_keys (iter_measure it) it.

Context `{!PartyDBLaws vt}.

Lemma load_keys_spec n it c p :
  let T := sv_tables (c_server c) in
  -1 <= pos it -> Z.of_nat (length (ids_arr it)) = ids_num it -> (iter_measure it <= n)%nat ->
  c_faults c = [] -> (forall k, k ∈ remaining it -> view_wf T k) ->
  exists c' p', load_keys n it (c, p) = Ok (omap (party_view T) (remaining it)) (c', p') /\
    c_server c' = c_server c /\ c_faults c' = [].
Proof.
  cbv zeta. revert it c p. induction n as [|n IH]; intros it c p Hp Hl Hn Hf Hw; cbn [load_keys];
    destruct (decide (iter_measure it = O)) as [H0|H0].
  - rewrite remaining_end by assumption. eauto.
  - lia.
  - rewrite measure_zero, remaining_end by assumption. eauto.
  - rewrite measure_pos by exact H0. rewrite (remaining_step it) in Hw |- * by assumption.
    set (k := nth _ _ _) in *. set (it' := mk_iter _ _ _) in *.
    destruct (law_load o k c p Hf (Hw k ltac:(left))) as (c1 & E & Hs1 & Hf1).
    assert (Hw' : forall k', k' ∈ remaining it' -> view_wf (sv_tables (c_server c1)) k').
    { intros k' Hk'. rewrite Hs1. apply Hw. by right. }
    destruct (IH it' c1 (match party_view (sv_tables (c_server c)) k with Some v => v | None => party_zero end))
      as (c2 & p2 & E2 & Hs2 & Hf2);
      [unfold it'; cbn; lia | unfold it'; cbn; lia | unfold it', iter_measure in *; cbn; lia
      | exact Hf1 | exact Hw' |].
    rewrite Hs1 in E2. exists c2, p2. split; [|split; congruence].
    assert (Ho : omap (party_view (sv_tables (c_server c))) (k :: remaining it') =
                 match party_view (sv_tables (c_server c)) k with
                 | Some v => v :: omap (party_view (sv_tables (c_server c))) (remaining it')
                 | None => omap (party_view (sv_tables (c_server c))) (remaining it')
                 end) by reflexivity.
    rewrite Ho. unfold mbind, M_bind. rewrite E.
    destruct (party_view _ k); cbn -[load_keys]; rewrite E2; reflexivity.
Qed.

(** The client against the contract: with no failing round trip and
    well-formed rows, it collects the view of every party of the table. *)
Lemma load_all_spec c p :
  let T := sv_tables (c_server c) in
  c_faults c = [] -> keys_int T -> (forall k, k ∈ party_keys T -> view_wf T k) ->
  exists s', load_all (c, p) = Ok (omap (party_view T) (party_keys T)) s' /\ c_server s'.1 = c_server c.
Proof.
  cbv zeta. intros Hf Hk Hw.
  destruct (law_iterator o c Hf Hk) as (it & c1 & E & Hwf & Hr & Hs1 & Hf1).
  apply iter_wf_bounds in Hwf as [Hp Hl].
  unfold load_all, mbind, M_bind, with_struct. cbn. rewrite E.
  rewrite <- Hr in Hw |- *. rewrite <- Hs1 in Hw |- *.
  destruct (load_keys_spec (iter_measure it) it c1 p Hp Hl ltac:(lia) Hf1 Hw) as (c2 & p2 & E2 & Hs2 & _).
  rewrite E2. eexists. split; [reflexivity | cbn; congruence].
Qed.

End Client.

(** ** The SQL backend meets the contract *)

#[export] Instance party_db_sql_laws : PartyDBLaws party_db_sql_vtable.
Proof.
  split.
  - intros o c Hf Hk. cbn. rewrite party_db_sql_iterator_nofault by (try rewrite Hf; done).
    eexists _, _. split; [reflexivity|]. rewrite Hf. cbn.
    split; [left; cbn; lia|]. unfold remaining. cbn. by rewrite drop_0.
  - intros o pid c p Hf Hw. cbn. unfold party_db_sql_load, mbind, M_bind.
    rewrite fromsql_nofault by assumption. exists (set_rs c rs_empty).
    by destruct (party_view _ _).
Qed.

(** Composition of the iterator and [load] on the SQL backend: a
    client that takes [party_db_sql_iterator] and loads each key it
    returns with [party_db_sql_load], on the same connection, collects the
    view of every party of the table (in the table's order), when no
    round trip fails and the rows hold [int]s; and it leaves the server
    as it was. *)
Theorem party_db_sql_load_all db c p :
  let T := sv_tables (c_server c) in
  c_faults c = [] -> keys_int T -> (forall k, k ∈ party_keys T -> view_wf T k) ->
  exists s', load_all party_db_sql_vtable db (c, p) = Ok (omap (party_view T) (party_keys T)) s' /\
    c_server s'.1 = c_server c.
Proof. apply load_all_spec. typeclasses eauto. Qed.

(** [sample_conn_2]: the two parties, loaded. *)
Lemma party_db_sql_load_all_witness :
  c_faults sample_conn_2 = [] /\ keys_int (sv_tables (c_server sample_conn_2)) /\
  (forall k, k ∈ party_keys (sv_tables (c_server sample_conn_2)) -> view_wf (sv_tables (c_server sample_conn_2)) k) /\
  exists s', load_all party_db_sql_vtable sample_db (sample_conn_2, party_zero) =
    Ok (omap (party_view (sv_tables (c_server sample_conn_2))) (party_keys (sv_tables (c_server sample_conn_2)))) s' /\
    c_server s'.1 = c_server sample_conn_2.
Proof.
  assert (Hk : keys_int (sv_tables (c_server sample_conn_2))) by (apply keys_int_b_sound; vm_compute; reflexivity).
  assert (Hw : forall k, k ∈ party_keys (sv_tables (c_server sample_conn_2)) ->
                 view_wf (sv_tables (c_server sample_conn_2)) k).
  { intros k Hk'. apply view_wf_b_sound. vm_compute in Hk'.
    apply list_elem_of_In in Hk'. destruct Hk' as [<- | [<- | []]]; vm_compute; reflexivity. }
  split; [reflexivity|]. split; [exact Hk|]. split; [exact Hw|].
  exact (party_db_sql_load_all sample_db sample_conn_2 party_zero eq_refl Hk Hw).
Defined.

End PartyIface.
